(** * GuidedHybSensUIR: the training and evaluation scripts

    A shallow embedding of [train.py] and [test.py].  Both scripts are
    sequential orchestration code over a deep-learning framework: every
    statement is a call into the framework (or the Python runtime) whose
    result the script threads to the next call.  The embedding keeps that
    shape:

    - the framework is a record of oracles ([Framework]): what the model,
      the losses, the metrics, the optimizer and the data pipeline compute,
      and which calls raise;
    - the script is a program in a state-and-exception monad over a
      [World] that holds the mutable objects the script touches (model
      weights and mode, autograd tape, optimizer, directories, text files)
      and the trace of framework calls made so far;
    - Python numbers are an abstract type with Python's operators
      ([Number]); integers that steer control flow (epochs, sizes) are [Z]. *)

From Stdlib Require Import ZArith QArith String Ascii List DecimalString.
From stdpp Require Import base option list gmap strings.

Open Scope string_scope.
Open Scope list_scope.
Open Scope Z_scope.

(** ** Python values *)

(** Python's numeric values as the scripts use them: [int] and [float]
    results of metric calls, combined with [+], [-], [*], [/] and [>].
    [of_int] is an integer literal or an [int] value, [float_lit] a decimal
    float literal, [nrepr] is [str()] as used by [str.format]. *)
Class Number (num : Type) := {
  of_int : Z -> num;
  float_lit : Q -> num;
  nadd : num -> num -> num;
  nsub : num -> num -> num;
  nmul : num -> num -> num;
  ndiv : num -> num -> num;
  ngt : num -> num -> bool;
  nrepr : num -> string
}.

(** [str(i)] for an [int]. *)
Definition str_int (i : Z) : string := NilZero.string_of_int (Z.to_int i).

(** [str.format] for templates whose only fields are [{}]: each [{}] is
    replaced by the next positional argument. *)
Fixpoint format (template : string) (args : list string) : string :=
  match template with
  | String "{" (String "}" rest) =>
      match args with
      | a :: args' => a +:+ format rest args'
      | [] => format rest []
      end
  | String c rest => String c (format rest args)
  | EmptyString => EmptyString
  end.

(** [os.path.join(a, b)] on a POSIX system. *)
Definition starts_with_slash (s : string) : bool :=
  match s with
  | String "/" _ => true
  | _ => false
  end.

Fixpoint ends_with_slash (s : string) : bool :=
  match s with
  | EmptyString => false
  | String c EmptyString => if ascii_dec c "/" then true else false
  | String _ rest => ends_with_slash rest
  end.

Definition os_path_join (a b : string) : string :=
  if starts_with_slash b then b
  else match a with
       | EmptyString => b
       | _ => if ends_with_slash a then a +:+ b else a +:+ "/" +:+ b
       end.

(** [json.dumps(s)] for a [str] (default [ensure_ascii=True]); a string is
    a sequence of code points below 256. *)
Definition hex_digit (n : nat) : ascii :=
  nth n (list_ascii_of_string "0123456789abcdef") "0"%char.

Definition json_escape_char (c : ascii) : string :=
  let n := nat_of_ascii c in
  if (n =? 34)%nat then String "\" (String c EmptyString)
  else if (n =? 92)%nat then "\\"
  else if (n =? 10)%nat then "\n"
  else if (n =? 13)%nat then "\r"
  else if (n =? 9)%nat then "\t"
  else if (n =? 8)%nat then "\b"
  else if (n =? 12)%nat then "\f"
  else if ((n <? 32) || (126 <? n))%nat
       then "\u00" +:+ String (hex_digit (n / 16)) (String (hex_digit (n mod 16)) EmptyString)
  else String c EmptyString.

Fixpoint json_escape (s : string) : string :=
  match s with
  | EmptyString => EmptyString
  | String c rest => json_escape_char c +:+ json_escape rest
  end.

Definition dquote : string := String "034"%char EmptyString.

Definition json_dumps (s : string) : string := dquote +:+ json_escape s +:+ dquote.

Definition newline : string := String "010"%char EmptyString.




(** [range(start, stop)]. *)
Definition range (start stop : Z) : list Z :=
  map (fun i => start + Z.of_nat i) (seq 0 (Z.to_nat (stop - start))).

(** Exceptions: the two the interpreter itself can raise in these scripts,
    and whatever a framework call raises. *)
Inductive exn :=
| ZeroDivisionError
| IndexError
| FrameworkError (name : string).

Inductive outcome (A : Type) :=
| Ok (a : A)
| Raise (e : exn).
Arguments Ok {A} a.
Arguments Raise {A} e.

(** ** The framework and the world *)

Section Scripts.

Context {tensor weights optim num : Type} {NumOps : Number num}.

(** [config.yml] as [Config('config.yml')] exposes it; [opt.OPTIM.SEED] is
    [OPTIM_SEED], and so on. *)
Record Config := {
  OPTIM_SEED : Z;
  OPTIM_WANDB : bool;
  OPTIM_BATCH_SIZE : Z;
  OPTIM_LR_INITIAL : num;
  OPTIM_NUM_EPOCHS : Z;
  OPTIM_LR_MIN : num;
  TRAINING_SAVE_DIR : string;
  TRAINING_TRAIN_DIR : string;
  TRAINING_VAL_DIR : string;
  TRAINING_ORI : bool;
  TRAINING_PS_W : Z;
  TRAINING_PS_H : Z;
  TRAINING_VAL_AFTER_EVERY : Z;
  TRAINING_LOG_FILE : string;
  MODEL_INPUT : string;
  MODEL_TARGET : string;
  MODEL_SESSION : string;
  LOG_LOG_DIR : string;
  TESTING_VAL_DIR : string;
  TESTING_INPUT : string;
  TESTING_TARGET : string;
  TESTING_WEIGHT : string;
  TESTING_RESULT_DIR : string;
  TESTING_LOG_FILE : string
}.

(** A dataset item and a collated batch: [data[0]], [data[1]], [data[2]]. *)
Record sample := { s_inp : tensor; s_tar : tensor; s_name : string }.
Record batch := { b_inp : tensor; b_tar : tensor; b_names : list string }.

(** The five accumulated metrics of an evaluation pass. *)
Record Metrics := {
  m_psnr : num; m_ssim : num; m_lpips : num; m_uciqe : num; m_uiqm : num
}.

(** Every call the scripts make into the framework or the runtime, with the
    arguments the script passes. *)
Inductive Event :=
| EConfig (path : string)
| ESeedEverything (seed : Z)
| EAccelerator (log_with : option string)
| EInitTrackers (project : string) (config : list (string * string))
| EPrepare (what : list string)
| EBackward (loss : num)
| EGather (res tar : tensor)
| ELog (values : list (string * num)) (step : Z)
| EEndTraining
| EMakedirs (path : string) (exist_ok : bool)
| EIsDir (path : string)
| EOpen (path mode : string)
| EWrite (path data : string)
| EPrint (s : string)
| EGetData (dir inp tar mode : string) (ori : bool) (w h : Z)
| EDataLoader (batch_size : Z) (shuffle : bool) (num_workers : Z) (drop_last pin_memory : bool)
| ETqdm (disable : bool)
| ENext
| EModel
| ELoadCheckpoint (path : string)
| ESmoothL1Loss
| ELpipsInit (net_type : string) (normalize : bool)
| EAdamW (lr : num)
| ECosineAnnealingLR (T_max : Z) (eta_min : num)
| EModelTrain
| EModelEval
| EForward (training grad : bool) (inp : tensor)
| EZeroGrad
| EOptimizerStep
| ESchedulerStep
| ECriterionPsnr (res tar : tensor)
| ESsim (res tar : tensor)
| ECriterionLpips (res tar : tensor)
| EPsnr (res tar : tensor)
| EUciqe (res : tensor)
| EUiqm (res : tensor)
| EStateDict
| ESaveCheckpoint (state : list (string * weights)) (epoch : Z) (session save_dir : string)
| ESaveImage (res : tensor) (path : string).

(** What the framework computes.  [raises history call] tells whether
    [call], made after [history], raises.  The helpers of the repository
    that the two scripts import ([Config], [get_data], [Model],
    [seed_everything], [save_checkpoint], [load_checkpoint], [batch_uciqe],
    [batch_uiqm]) are taken the same way as the libraries' functions: as
    calls whose results the framework supplies. *)
Record Framework := {
  raises : list Event -> Event -> option exn;
  is_local_main_process : bool;
  fw_config : string -> Config;
  fw_get_data : string -> string -> string -> string -> bool -> Z * Z -> list sample;
  fw_train_batches : list sample -> Z -> Z -> list batch;
  fw_init_weights : weights;
  fw_load_weights : string -> weights -> weights;
  fw_new_optim : num -> Z -> num -> optim;
  fw_forward : bool -> weights -> tensor -> tensor * weights;
  fw_zero_grad : optim -> optim;
  fw_autograd : num -> list tensor -> weights -> optim -> optim;
  fw_optimizer_step : optim -> weights -> weights * optim;
  fw_scheduler_step : optim -> optim;
  fw_gather : tensor -> tensor;
  fw_smooth_l1 : tensor -> tensor -> num;
  fw_ssim : tensor -> tensor -> num;
  fw_lpips : tensor -> tensor -> num;
  fw_psnr : tensor -> tensor -> num;
  fw_uciqe : tensor -> num;
  fw_uiqm : tensor -> num
}.

(** The mutable objects of a run. *)
Record World := {
  trace : list Event;
  model_weights : weights;
  model_training : bool;
  grad_enabled : bool;
  tape : list tensor;
  optimizer : optim;
  dirs : gset string;
  files : gmap string string
}.

Definition log_event (ev : Event) (w : World) : World :=
  {| trace := trace w ++ [ev]; model_weights := model_weights w;
     model_training := model_training w; grad_enabled := grad_enabled w;
     tape := tape w; optimizer := optimizer w; dirs := dirs w; files := files w |}.

Definition set_weights (v : weights) (w : World) : World :=
  {| trace := trace w; model_weights := v;
     model_training := model_training w; grad_enabled := grad_enabled w;
     tape := tape w; optimizer := optimizer w; dirs := dirs w; files := files w |}.

Definition set_training (b : bool) (w : World) : World :=
  {| trace := trace w; model_weights := model_weights w;
     model_training := b; grad_enabled := grad_enabled w;
     tape := tape w; optimizer := optimizer w; dirs := dirs w; files := files w |}.

Definition set_grad_enabled (b : bool) (w : World) : World :=
  {| trace := trace w; model_weights := model_weights w;
     model_training := model_training w; grad_enabled := b;
     tape := tape w; optimizer := optimizer w; dirs := dirs w; files := files w |}.

Definition set_tape (t : list tensor) (w : World) : World :=
  {| trace := trace w; model_weights := model_weights w;
     model_training := model_training w; grad_enabled := grad_enabled w;
     tape := t; optimizer := optimizer w; dirs := dirs w; files := files w |}.

Definition set_optimizer (o : optim) (w : World) : World :=
  {| trace := trace w; model_weights := model_weights w;
     model_training := model_training w; grad_enabled := grad_enabled w;
     tape := tape w; optimizer := o; dirs := dirs w; files := files w |}.

Definition set_dirs (d : gset string) (w : World) : World :=
  {| trace := trace w; model_weights := model_weights w;
     model_training := model_training w; grad_enabled := grad_enabled w;
     tape := tape w; optimizer := optimizer w; dirs := d; files := files w |}.

Definition set_files (f : gmap string string) (w : World) : World :=
  {| trace := trace w; model_weights := model_weights w;
     model_training := model_training w; grad_enabled := grad_enabled w;
     tape := tape w; optimizer := optimizer w; dirs := dirs w; files := f |}.

(** ** The monad of script steps *)

Definition M (A : Type) : Type := World -> outcome A * World.

Definition ret {A} (a : A) : M A := fun w => (Ok a, w).

Definition bind {A B} (m : M A) (f : A -> M B) : M B :=
  fun w => match m w with
           | (Ok a, w') => f a w'
           | (Raise e, w') => (Raise e, w')
           end.

Definition raise {A} (e : exn) : M A := fun w => (Raise e, w).

Definition gets {A} (f : World -> A) : M A := fun w => (Ok (f w), w).

Definition modify (f : World -> World) : M unit := fun w => (Ok tt, f w).

Variable env : Framework.

(** A framework call: it is recorded, and raises when the framework says
    so; nothing after a raising call runs. *)
Definition call (ev : Event) : M unit :=
  fun w => match raises env (trace w) ev with
           | Some e => (Raise e, log_event ev w)
           | None => (Ok tt, log_event ev w)
           end.

Notation "'let!' x ':=' m 'in' k" := (bind m (fun x => k))
  (at level 10, x name, m at level 200, k at level 200).
Notation "'do!' m 'in' k" := (bind m (fun _ => k))
  (at level 10, m at level 200, k at level 200).

(** [for x in xs: s = body(x, s)], with the loop-carried variables [s]. *)
Fixpoint for_each {A S} (xs : list A) (body : A -> S -> M S) (s : S) : M S :=
  match xs with
  | [] => ret s
  | x :: xs' => let! s' := body x s in for_each xs' body s'
  end.

(** Iterating a data loader: fetching each batch is a framework call. *)
Definition for_batches {S} (loader : list batch) (body : batch -> S -> M S) (s : S) : M S :=
  for_each loader (fun data s => do! call ENext in body data s) s.

(** [x / size] and [x % y] raise on a zero right operand. *)
Definition py_div (x : num) (size : Z) : M num :=
  if size =? 0 then raise ZeroDivisionError else ret (ndiv x (of_int size)).

Definition py_mod (x y : Z) : M Z :=
  if y =? 0 then raise ZeroDivisionError else ret (x mod y).

(** [with torch.no_grad(): body]; the previous mode is restored on exit. *)
Definition torch_no_grad {A} (body : M A) : M A :=
  fun w => let prev := grad_enabled w in
           match body (set_grad_enabled false w) with
           | (r, w') => (r, set_grad_enabled prev w')
           end.

(** *** Framework calls, under the names the scripts use *)

Definition Config_yml (path : string) : M Config :=
  do! call (EConfig path) in ret (fw_config env path).

Definition seed_everything (seed : Z) : M unit := call (ESeedEverything seed).

Definition Accelerator (log_with : option string) : M unit := call (EAccelerator log_with).

(** [dirs] holds the directories by the path string a script passed to
    [os.makedirs], or that the run started with.  Parents that
    [os.makedirs] creates on the way and other spellings of a path (as
    ['./result'] for ['result']) are not tracked: [os_path_isdir] answers
    for the string it is given.  Statements about directories are therefore
    made on the calls, and [path ∈ dirs w] is read as: the directory of
    that path exists. *)
Definition os_makedirs (path : string) (exist_ok : bool) : M unit :=
  do! call (EMakedirs path exist_ok) in
  modify (fun w => set_dirs ({[path]} ∪ dirs w) w).

Definition os_path_isdir (path : string) : M bool :=
  do! call (EIsDir path) in gets (fun w => bool_decide (path ∈ dirs w)).

Definition accelerator_init_trackers (project : string) (config : list (string * string)) : M unit :=
  call (EInitTrackers project config).

Definition get_data (dir inp tar mode : string) (ori : bool) (ps : Z * Z) : M (list sample) :=
  do! call (EGetData dir inp tar mode ori (fst ps) (snd ps)) in
  ret (fw_get_data env dir inp tar mode ori ps).

Definition DataLoader (batch_size : Z) (shuffle : bool) (num_workers : Z)
    (drop_last pin_memory : bool) : M unit :=
  call (EDataLoader batch_size shuffle num_workers drop_last pin_memory).

(** What the validation loader ([batch_size=1], [shuffle=False],
    [drop_last=False]) yields: one batch per sample, in dataset order. *)
Definition collate1 (s : sample) : batch :=
  {| b_inp := s_inp s; b_tar := s_tar s; b_names := [s_name s] |}.

Definition Model : M unit :=
  do! call EModel in modify (set_weights (fw_init_weights env)).

Definition load_checkpoint (path : string) : M unit :=
  do! call (ELoadCheckpoint path) in
  modify (fun w => set_weights (fw_load_weights env path (model_weights w)) w).

Definition SmoothL1Loss : M unit := call ESmoothL1Loss.

Definition LearnedPerceptualImagePatchSimilarity (net_type : string) (normalize : bool) : M unit :=
  call (ELpipsInit net_type normalize).

Definition AdamW (lr : num) : M unit := call (EAdamW lr).

Definition CosineAnnealingLR (lr : num) (T_max : Z) (eta_min : num) : M unit :=
  do! call (ECosineAnnealingLR T_max eta_min) in
  modify (set_optimizer (fw_new_optim env lr T_max eta_min)).

Definition accelerator_prepare (what : list string) : M unit := call (EPrepare what).

Definition model_train : M unit := do! call EModelTrain in modify (set_training true).

Definition model_eval : M unit := do! call EModelEval in modify (set_training false).

Definition tqdm (loader : list batch) (disable : bool) : M (list batch) :=
  do! call (ETqdm disable) in ret loader.

(** [model(inp)]: the forward pass in the model's current mode; with
    gradients enabled the pass is recorded on the autograd tape. *)
Definition model_call (inp : tensor) : M tensor :=
  let! training := gets model_training in
  let! grad := gets grad_enabled in
  do! call (EForward training grad inp) in
  let! wt := gets model_weights in
  do! modify (set_weights (snd (fw_forward env training wt inp))) in
  do! modify (fun w => if grad then set_tape (tape w ++ [inp]) w else w) in
  ret (fst (fw_forward env training wt inp)).

Definition optimizer_zero_grad : M unit :=
  do! call EZeroGrad in
  modify (fun w => set_optimizer (fw_zero_grad env (optimizer w)) w).

Definition criterion_psnr (res tar : tensor) : M num :=
  do! call (ECriterionPsnr res tar) in ret (fw_smooth_l1 env res tar).

Definition structural_similarity_index_measure (res tar : tensor) : M num :=
  do! call (ESsim res tar) in ret (fw_ssim env res tar).

Definition criterion_lpips (res tar : tensor) : M num :=
  do! call (ECriterionLpips res tar) in ret (fw_lpips env res tar).

Definition peak_signal_noise_ratio (res tar : tensor) : M num :=
  do! call (EPsnr res tar) in ret (fw_psnr env res tar).

Definition batch_uciqe (res : tensor) : M num :=
  do! call (EUciqe res) in ret (fw_uciqe env res).

Definition batch_uiqm (res : tensor) : M num :=
  do! call (EUiqm res) in ret (fw_uiqm env res).

Definition accelerator_backward (loss : num) : M unit :=
  do! call (EBackward loss) in
  modify (fun w => set_tape []
            (set_optimizer (fw_autograd env loss (tape w) (model_weights w) (optimizer w)) w)).

Definition optimizer_step : M unit :=
  do! call EOptimizerStep in
  modify (fun w => set_optimizer (snd (fw_optimizer_step env (optimizer w) (model_weights w)))
            (set_weights (fst (fw_optimizer_step env (optimizer w) (model_weights w))) w)).

Definition scheduler_step : M unit :=
  do! call ESchedulerStep in
  modify (fun w => set_optimizer (fw_scheduler_step env (optimizer w)) w).

Definition accelerator_gather (res tar : tensor) : M (tensor * tensor) :=
  do! call (EGather res tar) in ret (fw_gather env res, fw_gather env tar).

Definition model_state_dict : M weights := do! call EStateDict in gets model_weights.

(** [save_checkpoint] and [save_image] write files of their own (the
    checkpoint, the image), on every process that makes the call.  These
    are binary files the scripts never read back: they are recorded as
    calls, and [files] holds the text files the scripts write through
    [open] only. *)
Definition save_checkpoint (state : list (string * weights)) (epoch : Z)
    (session save_dir : string) : M unit :=
  call (ESaveCheckpoint state epoch session save_dir).

Definition accelerator_log (values : list (string * num)) (step : Z) : M unit :=
  call (ELog values step).

Definition accelerator_end_training : M unit := call EEndTraining.

Definition print (s : string) : M unit := call (EPrint s).

Definition save_image (res : tensor) (path : string) : M unit := call (ESaveImage res path).

(** [open(path, mode='a')] creates the file when it is missing and keeps
    what it holds; [f.write(data)] on such a handle adds [data] at the end.
    Releasing the handle when the [with] block is left is not a call of
    the script and is not recorded. *)
Definition content (path : string) (w : World) : string :=
  default EmptyString (files w !! path).

Definition open_append (path : string) : M unit :=
  do! call (EOpen path "a") in
  modify (fun w => set_files (<[path := content path w]> (files w)) w).

Definition f_write (path data : string) : M unit :=
  do! call (EWrite path data) in
  modify (fun w => set_files (<[path := content path w +:+ data]> (files w)) w).

(** ** train.py *)

Record Best := { best_epoch : Z; best_psnr : num }.

Definition zero_metrics : Metrics :=
  {| m_psnr := of_int 0; m_ssim := of_int 0; m_lpips := of_int 0;
     m_uciqe := of_int 0; m_uiqm := of_int 0 |}.

(** Lines 82-97: one training batch. *)
Definition train_step (data : batch) : M unit :=
  let inp := b_inp data in
  let tar := b_tar data in
  do! optimizer_zero_grad in
  let! res := model_call inp in
  let! loss_psnr := criterion_psnr res tar in
  let! s := structural_similarity_index_measure res tar in
  let loss_ssim := nsub (of_int 1) s in
  let! loss_lpips := criterion_lpips res tar in
  let train_loss :=
    nadd (nadd loss_psnr (nmul (float_lit (3 # 10)) loss_ssim))
         (nmul (float_lit (7 # 10)) loss_lpips) in
  do! accelerator_backward train_loss in
  optimizer_step.

(** Lines 79-99: the training part of one epoch. *)
Definition train_epoch (trainloader : list batch) : M unit :=
  do! model_train in
  let! it := tqdm trainloader (negb (is_local_main_process env)) in
  do! for_batches it (fun data _ => train_step data) tt in
  scheduler_step.

(** Lines 112-124: one validation batch. *)
Definition val_step (data : batch) (acc : Metrics) : M Metrics :=
  let inp := b_inp data in
  let tar := b_tar data in
  let! res := torch_no_grad (model_call inp) in
  let! rt := accelerator_gather res tar in
  let res := fst rt in
  let tar := snd rt in
  let! v_psnr := peak_signal_noise_ratio res tar in
  let! v_ssim := structural_similarity_index_measure res tar in
  let! v_lpips := criterion_lpips res tar in
  let! v_uciqe := batch_uciqe res in
  let! v_uiqm := batch_uiqm res in
  ret {| m_psnr := nadd (m_psnr acc) v_psnr;
         m_ssim := nadd (m_ssim acc) v_ssim;
         m_lpips := nadd (m_lpips acc) v_lpips;
         m_uciqe := nadd (m_uciqe acc) v_uciqe;
         m_uiqm := nadd (m_uiqm acc) v_uiqm |}.

(** Lines 126-130 (and test.py 75-79): the five divisions by [size]. *)
Definition average (sums : Metrics) (size : Z) : M Metrics :=
  let! psnr := py_div (m_psnr sums) size in
  let! ssim := py_div (m_ssim sums) size in
  let! lpips := py_div (m_lpips sums) size in
  let! uciqe := py_div (m_uciqe sums) size in
  let! uiqm := py_div (m_uiqm sums) size in
  ret {| m_psnr := psnr; m_ssim := ssim; m_lpips := lpips;
         m_uciqe := uciqe; m_uiqm := uiqm |}.

(** Lines 103-130: the evaluation loop of a validation pass and its averages. *)
Definition val_metrics (testloader : list batch) (size : Z) : M Metrics :=
  do! model_eval in
  let! it := tqdm testloader (negb (is_local_main_process env)) in
  let! sums := for_batches it val_step zero_metrics in
  average sums size.

Definition train_log_template : string :=
  "epoch: {}, PSNR: {}, SSIM: {}, LPIPS: {}, UCIQE: {}, UIQM: {}, best PSNR: {}, best epoch: {}".

Definition train_log_stats (epoch : Z) (m : Metrics) (best : Best) : string :=
  format train_log_template
    [str_int epoch; nrepr (m_psnr m); nrepr (m_ssim m); nrepr (m_lpips m);
     nrepr (m_uciqe m); nrepr (m_uiqm m); nrepr (best_psnr best); str_int (best_epoch best)].

Definition metrics_dict (m : Metrics) : list (string * num) :=
  [("PSNR", m_psnr m); ("SSIM", m_ssim m); ("LPIPS", m_lpips m);
   ("UCIQE", m_uciqe m); ("UIQM", m_uiqm m)].

(** Lines 132-138: a new best is recorded and checkpointed. *)
Definition val_checkpoint (opt : Config) (epoch : Z) (m : Metrics) (best : Best) : M Best :=
  if ngt (m_psnr m) (best_psnr best) then
    let! sd := model_state_dict in
    do! save_checkpoint [("state_dict", sd)] epoch (MODEL_SESSION opt) (TRAINING_SAVE_DIR opt) in
    ret {| best_epoch := epoch; best_psnr := m_psnr m |}
  else ret best.

(** Lines 140-154: the report to the tracker and, on the local main
    process, to the console and the log file. *)
Definition val_log (opt : Config) (epoch : Z) (m : Metrics) (best : Best) : M unit :=
  do! accelerator_log (metrics_dict m) epoch in
  if is_local_main_process env then
    let log_stats := train_log_stats epoch m best in
    let path := os_path_join (LOG_LOG_DIR opt) (TRAINING_LOG_FILE opt) in
    do! print log_stats in
    do! open_append path in
    f_write path (json_dumps log_stats +:+ newline)
  else ret tt.

(** Lines 132-154. *)
Definition val_report (opt : Config) (epoch : Z) (m : Metrics) (best : Best) : M Best :=
  let! best := val_checkpoint opt epoch m best in
  do! val_log opt epoch m best in
  ret best.

(** Lines 103-154: a validation pass. *)
Definition validate (opt : Config) (testloader : list batch) (size : Z)
    (epoch : Z) (best : Best) : M Best :=
  let! m := val_metrics testloader size in
  val_report opt epoch m best.

(** Lines 79-154: the body of the epoch loop. *)
Definition epoch_body (opt : Config) (train_dataset : list sample)
    (testloader : list batch) (size : Z) (epoch : Z) (best : Best) : M Best :=
  do! train_epoch (fw_train_batches env train_dataset (OPTIM_BATCH_SIZE opt) epoch) in
  let! r := py_mod epoch (TRAINING_VAL_AFTER_EVERY opt) in
  if r =? 0 then validate opt testloader size epoch best else ret best.

(** Lines 30-70: configuration, data, model, optimizer. *)
Definition train_setup : M (Config * list sample * list batch) :=
  let! opt := Config_yml "config.yml" in
  do! seed_everything (OPTIM_SEED opt) in
  do! Accelerator (if OPTIM_WANDB opt then Some "wandb" else None) in
  do! (if is_local_main_process env
       then os_makedirs (TRAINING_SAVE_DIR opt) true else ret tt) in
  do! accelerator_init_trackers "UW" [("dataset", TRAINING_TRAIN_DIR opt)] in
  let train_dir := TRAINING_TRAIN_DIR opt in
  let val_dir := TRAINING_VAL_DIR opt in
  let! train_dataset :=
    get_data train_dir (MODEL_INPUT opt) (MODEL_TARGET opt) "train" (TRAINING_ORI opt)
             (TRAINING_PS_W opt, TRAINING_PS_H opt) in
  do! DataLoader (OPTIM_BATCH_SIZE opt) true 16 false true in
  let! val_dataset :=
    get_data val_dir (MODEL_INPUT opt) (MODEL_TARGET opt) "test" (TRAINING_ORI opt)
             (TRAINING_PS_W opt, TRAINING_PS_H opt) in
  do! DataLoader 1 false 8 false true in
  let testloader := map collate1 val_dataset in
  do! Model in
  do! SmoothL1Loss in
  do! LearnedPerceptualImagePatchSimilarity "alex" true in
  do! AdamW (OPTIM_LR_INITIAL opt) in
  do! CosineAnnealingLR (OPTIM_LR_INITIAL opt) (OPTIM_NUM_EPOCHS opt) (OPTIM_LR_MIN opt) in
  do! accelerator_prepare ["trainloader"; "testloader"] in
  do! accelerator_prepare ["model"] in
  do! accelerator_prepare ["optimizer_b"; "scheduler_b"] in
  ret (opt, train_dataset, testloader).

Definition initial_best : Best := {| best_epoch := 1; best_psnr := of_int 0 |}.

(** Lines 78-154: the epoch loop over [epochs]. *)
Definition train_loop (opt : Config) (train_dataset : list sample)
    (testloader : list batch) (size : Z) (epochs : list Z) (best : Best) : M Best :=
  for_each epochs (epoch_body opt train_dataset testloader size) best.

Definition train : M unit :=
  let! s := train_setup in
  let opt := fst (fst s) in
  let train_dataset := snd (fst s) in
  let testloader := snd s in
  let start_epoch := 1 in
  let size := Z.of_nat (length testloader) in
  do! train_loop opt train_dataset testloader size
        (range start_epoch (OPTIM_NUM_EPOCHS opt + 1)) initial_best in
  accelerator_end_training.

(** ** test.py *)

(** Lines 59-73: one evaluation batch. *)
Definition test_step (opt : Config) (test_data : batch) (acc : Metrics) : M Metrics :=
  let inp := b_inp test_data in
  let tar := b_tar test_data in
  let! res := torch_no_grad (model_call inp) in
  let! isdir := os_path_isdir (TESTING_RESULT_DIR opt) in
  do! (if negb isdir then os_makedirs (TESTING_RESULT_DIR opt) false else ret tt) in
  let! name := match b_names test_data with
               | name :: _ => ret name
               | [] => raise IndexError
               end in
  do! save_image res (os_path_join (TESTING_RESULT_DIR opt) name) in
  let! v_psnr := peak_signal_noise_ratio res tar in
  let! v_ssim := structural_similarity_index_measure res tar in
  let! v_lpips := criterion_lpips res tar in
  let! v_uciqe := batch_uciqe res in
  let! v_uiqm := batch_uiqm res in
  ret {| m_psnr := nadd (m_psnr acc) v_psnr;
         m_ssim := nadd (m_ssim acc) v_ssim;
         m_lpips := nadd (m_lpips acc) v_lpips;
         m_uciqe := nadd (m_uciqe acc) v_uciqe;
         m_uiqm := nadd (m_uiqm acc) v_uiqm |}.

(** Lines 25-48: configuration, data, model and checkpoint. *)
Definition test_setup : M (Config * list batch) :=
  let! opt := Config_yml "config.yml" in
  do! seed_everything (OPTIM_SEED opt) in
  do! Accelerator None in
  do! LearnedPerceptualImagePatchSimilarity "alex" true in
  let val_dir := TESTING_VAL_DIR opt in
  let! val_dataset :=
    get_data val_dir (TESTING_INPUT opt) (TESTING_TARGET opt) "test" (TRAINING_ORI opt)
             (TRAINING_PS_W opt, TRAINING_PS_H opt) in
  do! DataLoader 1 false 8 false true in
  let testloader := map collate1 val_dataset in
  do! Model in
  do! load_checkpoint (TESTING_WEIGHT opt) in
  do! accelerator_prepare ["model"; "testloader"] in
  do! model_eval in
  ret (opt, testloader).

(** Lines 50-79: the evaluation loop and its averages. *)
Definition test_metrics (opt : Config) (testloader : list batch) : M Metrics :=
  let size := Z.of_nat (length testloader) in
  let! it := tqdm testloader false in
  let! stat := for_batches it (test_step opt) zero_metrics in
  average stat size.

Definition test_info_template : string :=
  "Test Result on {}, check point {}, testing data {}".

Definition test_log_template : string :=
  "PSNR: {}, SSIM: {}, LPIPS: {}, UCIQUE: {}, UIQM: {}".

Definition test_info_of (opt : Config) : string :=
  format test_info_template [MODEL_SESSION opt; TESTING_WEIGHT opt; TESTING_VAL_DIR opt].

Definition test_log_stats (m : Metrics) : string :=
  format test_log_template
    [nrepr (m_psnr m); nrepr (m_ssim m); nrepr (m_lpips m);
     nrepr (m_uciqe m); nrepr (m_uiqm m)].

(** Lines 81-89: the report. *)
Definition test_report (opt : Config) (m : Metrics) : M unit :=
  let test_info := test_info_of opt in
  let log_stats := test_log_stats m in
  let path := os_path_join (LOG_LOG_DIR opt) (TESTING_LOG_FILE opt) in
  do! print test_info in
  do! print log_stats in
  do! open_append path in
  do! f_write path (json_dumps test_info +:+ newline) in
  f_write path (json_dumps log_stats +:+ newline).

Definition test : M unit :=
  let! s := test_setup in
  let opt := fst s in
  let testloader := snd s in
  let! m := test_metrics opt testloader in
  test_report opt m.

(** ** What the setup of each script yields *)

Definition config_yml : Config := fw_config env "config.yml".

Definition train_dataset : list sample :=
  fw_get_data env (TRAINING_TRAIN_DIR config_yml) (MODEL_INPUT config_yml)
    (MODEL_TARGET config_yml) "train" (TRAINING_ORI config_yml)
    (TRAINING_PS_W config_yml, TRAINING_PS_H config_yml).

Definition train_val_dataset : list sample :=
  fw_get_data env (TRAINING_VAL_DIR config_yml) (MODEL_INPUT config_yml)
    (MODEL_TARGET config_yml) "test" (TRAINING_ORI config_yml)
    (TRAINING_PS_W config_yml, TRAINING_PS_H config_yml).

Definition test_val_dataset : list sample :=
  fw_get_data env (TESTING_VAL_DIR config_yml) (TESTING_INPUT config_yml)
    (TESTING_TARGET config_yml) "test" (TRAINING_ORI config_yml)
    (TRAINING_PS_W config_yml, TRAINING_PS_H config_yml).

(** ** Observations on runs *)

(** [keeps J E m]: from a world satisfying [J], the step [m] only makes
    calls satisfying [E] and leaves a world satisfying [J], whether it
    returns or raises. *)
Definition keeps {A} (J : World -> Prop) (E : Event -> Prop) (m : M A) : Prop :=
  forall w, J w ->
    exists evs, trace (snd (m w)) = trace w ++ evs /\ Forall E evs /\ J (snd (m w)).

(** [only_calls E m]: whatever the world, [m] only makes calls satisfying [E]. *)
Definition only_calls {A} (E : Event -> Prop) (m : M A) : Prop :=
  keeps (fun _ => True) E m.

(** [returns m v]: when [m] returns, it returns [v]. *)
Definition returns {A} (m : M A) (v : A) : Prop :=
  forall w a w', m w = (Ok a, w') -> a = v.

(** [propagates m]: in every run of [m], a framework call that raises is
    the last call of the run, and what it raised is the outcome of [m]. *)
Definition propagates {A} (m : M A) : Prop :=
  forall w, exists evs,
    trace (snd (m w)) = trace w ++ evs /\
    forall pre ev post e,
      evs = pre ++ ev :: post ->
      raises env (trace w ++ pre) ev = Some e ->
      post = [] /\ fst (m w) = Raise e.

Definition is_checkpoint_write (ev : Event) : bool :=
  match ev with
  | ESaveCheckpoint _ _ _ _ => true
  | _ => false
  end.

(** The sum and the mean of per-batch values, as the loops compute them:
    from [0], adding batch after batch, then dividing by [size]. *)
Definition sum_of (vs : list num) : num := fold_left nadd vs (of_int 0).

Definition mean_of (vs : list num) (size : Z) : num := ndiv (sum_of vs) (of_int size).

Definition averages (vals : list Metrics) (size : Z) : Metrics :=
  {| m_psnr := mean_of (map m_psnr vals) size;
     m_ssim := mean_of (map m_ssim vals) size;
     m_lpips := mean_of (map m_lpips vals) size;
     m_uciqe := mean_of (map m_uciqe vals) size;
     m_uiqm := mean_of (map m_uiqm vals) size |}.

(** The five metric values of one batch, for the restored image [res]. *)
Definition batch_metrics (res tar : tensor) : Metrics :=
  {| m_psnr := fw_psnr env res tar;
     m_ssim := fw_ssim env res tar;
     m_lpips := fw_lpips env res tar;
     m_uciqe := fw_uciqe env res;
     m_uiqm := fw_uiqm env res |}.

(** The per-batch metric values of an evaluation loop that starts with
    weights [wt]; [g] is what the loop does to the restored image and the
    target before measuring ([accelerator.gather] in [train], nothing in
    [test]). *)
Fixpoint batch_values (g : tensor -> tensor) (training : bool) (wt : weights)
    (loader : list batch) : list Metrics :=
  match loader with
  | [] => []
  | data :: rest =>
      let out := fw_forward env training wt (b_inp data) in
      batch_metrics (g (fst out)) (g (b_tar data))
        :: batch_values g training (snd out) rest
  end.

(** The restored images of an evaluation loop that starts with weights [wt]. *)
Fixpoint outputs (training : bool) (wt : weights) (loader : list batch) : list tensor :=
  match loader with
  | [] => []
  | data :: rest =>
      let out := fw_forward env training wt (b_inp data) in
      fst out :: outputs training (snd out) rest
  end.

(** The model's weights after the forward passes of a loop. *)
Fixpoint weights_after (training : bool) (wt : weights) (loader : list batch) : weights :=
  match loader with
  | [] => wt
  | data :: rest =>
      weights_after training (snd (fw_forward env training wt (b_inp data))) rest
  end.

Definition add_metrics (acc v : Metrics) : Metrics :=
  {| m_psnr := nadd (m_psnr acc) (m_psnr v);
     m_ssim := nadd (m_ssim acc) (m_ssim v);
     m_lpips := nadd (m_lpips acc) (m_lpips v);
     m_uciqe := nadd (m_uciqe acc) (m_uciqe v);
     m_uiqm := nadd (m_uiqm acc) (m_uiqm v) |}.

(** The calls through which a script reports: the tracker, the console,
    a write to a file. *)
Definition is_report (ev : Event) : bool :=
  match ev with
  | ELog _ _ | EPrint _ | EWrite _ _ => true
  | _ => false
  end.

Definition train_log_path (opt : Config) : string :=
  os_path_join (LOG_LOG_DIR opt) (TRAINING_LOG_FILE opt).

Definition test_log_path (opt : Config) : string :=
  os_path_join (LOG_LOG_DIR opt) (TESTING_LOG_FILE opt).


(** What [test] reports for the averaged metrics [m]. *)
Definition test_reports (opt : Config) (m : Metrics) : list Event :=
  [EPrint (test_info_of opt);
   EPrint (test_log_stats m);
   EWrite (test_log_path opt) (json_dumps (test_info_of opt) +:+ newline);
   EWrite (test_log_path opt) (json_dumps (test_log_stats m) +:+ newline)].

Definition no_report (ev : Event) : Prop := is_report ev = false.

Definition is_image_write (ev : Event) : bool :=
  match ev with
  | ESaveImage _ _ => true
  | _ => false
  end.

Definition is_makedirs (ev : Event) : bool :=
  match ev with
  | EMakedirs _ _ => true
  | _ => false
  end.

(** The image [test] writes for the batch [data] restored as [res]. *)
Definition image_of (opt : Config) (data : batch) (res : tensor) : Event :=
  ESaveImage res
    (os_path_join (TESTING_RESULT_DIR opt) (List.hd EmptyString (b_names data))).

(** The loss of a training batch: the SmoothL1 term, plus 0.3 times the
    SSIM term [1 - ssim], plus 0.7 times the LPIPS term. *)
Definition train_loss_of (res tar : tensor) : num :=
  nadd (nadd (fw_smooth_l1 env res tar)
             (nmul (float_lit (3 # 10)) (nsub (of_int 1) (fw_ssim env res tar))))
       (nmul (float_lit (7 # 10)) (fw_lpips env res tar)).

(** The calls of one training batch, in order, when the model is in mode
    [training], gradients are [grad] and the forward pass gives [res]. *)
Definition train_step_calls (training grad : bool) (data : batch) (res : tensor) : list Event :=
  [EZeroGrad;
   EForward training grad (b_inp data);
   ECriterionPsnr res (b_tar data);
   ESsim res (b_tar data);
   ECriterionLpips res (b_tar data);
   EBackward (train_loss_of res (b_tar data));
   EOptimizerStep].

(** The calls of the training part of an epoch over [loader], when the
    forward pass of the i-th batch runs on the i-th weights of [wts]. *)
Definition train_epoch_calls (grad : bool) (loader : list batch) (wts : list weights) : list Event :=
  [EModelTrain; ETqdm (negb (is_local_main_process env))] ++
  concat (zip_with
            (fun data wt =>
               ENext :: train_step_calls true grad data
                          (fst (fw_forward env true wt (b_inp data))))
            loader wts) ++
  [ESchedulerStep].

Definition is_scheduler_step (ev : Event) : bool :=
  match ev with
  | ESchedulerStep => true
  | _ => false
  end.



(** The framework never raises. *)
Definition never_raises : Prop := forall h ev, raises env h ev = None.

(** The averaged PSNR values a run logged to the tracker, with their
    epochs, and the epochs at which it saved a checkpoint. *)
Definition logged_psnr (ev : Event) : list (Z * num) :=
  match ev with
  | ELog ((_, p) :: _) step => [(step, p)]
  | _ => []
  end.

Definition psnr_history (evs : list Event) : list (Z * num) := flat_map logged_psnr evs.

Definition saved_epoch (ev : Event) : list Z :=
  match ev with
  | ESaveCheckpoint _ epoch _ _ => [epoch]
  | _ => []
  end.

Definition saved_epochs (evs : list Event) : list Z := flat_map saved_epoch evs.

(** The epochs of a history whose PSNR strictly exceeds the best before
    them, starting from the best value [b]. *)
Fixpoint new_bests (hist : list (Z * num)) (b : num) : list Z :=
  match hist with
  | [] => []
  | (e, p) :: rest => if ngt p b then e :: new_bests rest p else new_bests rest b
  end.

(** Lines 132-135 on one averaged PSNR, and on a history of them. *)
Definition update_best (b : Best) (ep : Z * num) : Best :=
  if ngt (snd ep) (best_psnr b)
  then {| best_epoch := fst ep; best_psnr := snd ep |}
  else b.

Definition best_after (hist : list (Z * num)) (b : Best) : Best :=
  fold_left update_best hist b.

Definition quiet (ev : Event) : Prop := logged_psnr ev = [] /\ saved_epoch ev = [].

(** The calls an evaluation may make: forward passes only in eval mode
    with gradients disabled, and nothing that trains. *)
Definition eval_call (ev : Event) : Prop :=
  match ev with
  | EForward training grad _ => training = false /\ grad = false
  | EModelTrain | EZeroGrad | EBackward _ | EOptimizerStep | ESchedulerStep => False
  | _ => True
  end.

(** The model is in eval mode. *)
Definition eval_mode (w : World) : Prop := model_training w = false.

(** The framework's forward pass in eval mode leaves the model as it is. *)
Definition eval_pure : Prop :=
  forall wt inp, snd (fw_forward env false wt inp) = wt.

(** The model is in eval mode with weights [wt], and the autograd tape and
    the optimizer are [tp] and [o]. *)
Definition frozen (wt : weights) (tp : list tensor) (o : optim) (w : World) : Prop :=
  model_training w = false /\ model_weights w = wt /\ tape w = tp /\ optimizer w = o.

(** The model has weights [wt], and the tape and the optimizer are [tp]
    and [o], in whatever mode. *)
Definition same_model (wt : weights) (tp : list tensor) (o : optim) (w : World) : Prop :=
  model_weights w = wt /\ tape w = tp /\ optimizer w = o.






(** The weights [test] evaluates: those of the loaded checkpoint. *)
Definition test_weights : weights :=
  fw_load_weights env (TESTING_WEIGHT config_yml) (fw_init_weights env).

(** The checkpoint that [train] writes at [epoch] for weights [wt]. *)
Definition checkpoint_of (opt : Config) (epoch : Z) (wt : weights) : Event :=
  ESaveCheckpoint [("state_dict", wt)] epoch (MODEL_SESSION opt) (TRAINING_SAVE_DIR opt).

Definition no_checkpoint (ev : Event) : Prop := is_checkpoint_write ev = false.

Definition train_checkpoint (opt : Config) (ev : Event) : Prop :=
  is_checkpoint_write ev = true ->
  exists epoch wt,
    ev = checkpoint_of opt epoch wt /\
    1 <= epoch <= OPTIM_NUM_EPOCHS opt /\
    epoch mod TRAINING_VAL_AFTER_EVERY opt = 0.

(** ** The entry point of test.py *)

(** test.py, lines 92-94: the directory [result] is created, whatever
    [opt.TESTING.RESULT_DIR] is, before [test] runs. *)
Definition test_main : M unit :=
  do! os_makedirs "result" true in test.

(** ** Further observations on runs *)

(** [succeeds m]: [m] returns, whatever the world it starts in. *)
Definition succeeds {A} (m : M A) : Prop :=
  forall w, exists a w', m w = (Ok a, w').

(** [blames m]: when [m] raises, either the last call it made raised that
    exception, or the exception is a [ZeroDivisionError]. *)
Definition blames {A} (m : M A) : Prop :=
  forall w, exists evs,
    trace (snd (m w)) = trace w ++ evs /\
    forall e, fst (m w) = Raise e ->
      e = ZeroDivisionError \/
      exists pre ev, evs = pre ++ [ev] /\ raises env (trace w ++ pre) ev = Some e.

(** [scripted calls m]: every run of [m] makes the calls [calls], in that
    order, when it returns, and the first ones of them when it raises. *)
Definition scripted {A} (calls : list Event) (m : M A) : Prop :=
  forall w, exists evs,
    trace (snd (m w)) = trace w ++ evs /\
    match fst (m w) with
    | Ok _ => evs = calls
    | Raise _ => exists rest, calls = evs ++ rest
    end.

(** The calls of the setup of [train] (lines 30-70) and of [test]
    (lines 25-48), in order. *)
Definition train_setup_calls : list Event :=
  let opt := config_yml in
  [EConfig "config.yml";
   ESeedEverything (OPTIM_SEED opt);
   EAccelerator (if OPTIM_WANDB opt then Some "wandb" else None)] ++
  (if is_local_main_process env then [EMakedirs (TRAINING_SAVE_DIR opt) true] else []) ++
  [EInitTrackers "UW" [("dataset", TRAINING_TRAIN_DIR opt)];
   EGetData (TRAINING_TRAIN_DIR opt) (MODEL_INPUT opt) (MODEL_TARGET opt) "train"
     (TRAINING_ORI opt) (TRAINING_PS_W opt) (TRAINING_PS_H opt);
   EDataLoader (OPTIM_BATCH_SIZE opt) true 16 false true;
   EGetData (TRAINING_VAL_DIR opt) (MODEL_INPUT opt) (MODEL_TARGET opt) "test"
     (TRAINING_ORI opt) (TRAINING_PS_W opt) (TRAINING_PS_H opt);
   EDataLoader 1 false 8 false true;
   EModel;
   ESmoothL1Loss;
   ELpipsInit "alex" true;
   EAdamW (OPTIM_LR_INITIAL opt);
   ECosineAnnealingLR (OPTIM_NUM_EPOCHS opt) (OPTIM_LR_MIN opt);
   EPrepare ["trainloader"; "testloader"];
   EPrepare ["model"];
   EPrepare ["optimizer_b"; "scheduler_b"]].

Definition test_setup_calls : list Event :=
  let opt := config_yml in
  [EConfig "config.yml";
   ESeedEverything (OPTIM_SEED opt);
   EAccelerator None;
   ELpipsInit "alex" true;
   EGetData (TESTING_VAL_DIR opt) (TESTING_INPUT opt) (TESTING_TARGET opt) "test"
     (TRAINING_ORI opt) (TRAINING_PS_W opt) (TRAINING_PS_H opt);
   EDataLoader 1 false 8 false true;
   EModel;
   ELoadCheckpoint (TESTING_WEIGHT opt);
   EPrepare ["model"; "testloader"];
   EModelEval].

Definition is_model_train (ev : Event) : bool :=
  match ev with
  | EModelTrain => true
  | _ => false
  end.

Definition is_end_training (ev : Event) : bool :=
  match ev with
  | EEndTraining => true
  | _ => false
  end.

(** The epochs of a run of [train] at which line 102 holds. *)
Definition validation_epochs (opt : Config) : list Z :=
  List.filter (fun epoch => epoch mod TRAINING_VAL_AFTER_EVERY opt =? 0)
    (range 1 (OPTIM_NUM_EPOCHS opt + 1)).

(** The forward passes of [train]: in train mode with gradients as the
    script found them ([grad]), or in eval mode with gradients disabled. *)
Definition train_forward (grad : bool) (ev : Event) : Prop :=
  match ev with
  | EForward training g _ => (training = true /\ g = grad) \/ (training = false /\ g = false)
  | _ => True
  end.

(** Directories are those of [w0], and possibly [dir]. *)
Definition dirs_within (dir : string) (w0 w : World) : Prop :=
  dirs w0 ⊆ dirs w /\ dirs w ⊆ {[dir]} ∪ dirs w0.

(** ** Whole runs *)

(** The calls through which the scripts log: to the tracker, to the
    console, and the opening of and the writes to a log file. *)
Definition is_log_call (ev : Event) : bool :=
  match ev with
  | ELog _ _ | EPrint _ | EOpen _ _ | EWrite _ _ => true
  | _ => false
  end.

Definition no_log (ev : Event) : Prop := is_log_call ev = false.

(** The calls of lines 140-154 of train.py for the averaged metrics [m] of
    [epoch] and the best so far [best], in order. *)
Definition val_log_calls (opt : Config) (epoch : Z) (m : Metrics) (best : Best) : list Event :=
  ELog (metrics_dict m) epoch ::
  (if is_local_main_process env
   then [EPrint (train_log_stats epoch m best);
         EOpen (train_log_path opt) "a";
         EWrite (train_log_path opt) (json_dumps (train_log_stats epoch m best) +:+ newline)]
   else []).


(** The five means of a validation pass of [train] over [loader] that the
    model enters with the weights [wt]: for each metric, the values of the
    batches (each measured on the gathered eval-mode output for that batch
    and the gathered target), added from 0 in loader order, divided by
    [size]. *)
Definition pass_metrics (loader : list batch) (size : Z) (wt : weights) : Metrics :=
  averages (batch_values (fw_gather env) false wt loader) size.


(** The validation passes of a run are given by their epochs and the
    weights the model enters them with.  [pass_history] is the averaged
    PSNR of each, [running_bests] the best (lines 132-135) after each. *)
Definition pass_history (loader : list batch) (size : Z) (passes : list (Z * weights))
    : list (Z * num) :=
  map (fun p => (fst p, m_psnr (pass_metrics loader size (snd p)))) passes.

Fixpoint running_bests (hist : list (Z * num)) (b : Best) : list Best :=
  match hist with
  | [] => []
  | ep :: rest => update_best b ep :: running_bests rest (update_best b ep)
  end.

(** What the passes log, and what they report, one pass after the other:
    each pass with its own epoch, its means, and the best after it. *)
Definition pass_logs (opt : Config) (loader : list batch) (size : Z)
    (passes : list (Z * weights)) (best : Best) : list Event :=
  concat (zip_with
            (fun p b => val_log_calls opt (fst p) (pass_metrics loader size (snd p)) b)
            passes (running_bests (pass_history loader size passes) best)).


(** The calls of one epoch of [train]: those of its training part, the
    forward pass of the i-th batch running on the i-th weights of
    [fst part], followed by the calls [snd part] of its validation pass,
    if it has one. *)
Definition epoch_calls (grad : bool) (opt : Config) (ds : list sample) (epoch : Z)
    (part : list weights * list Event) : list Event :=
  train_epoch_calls grad (fw_train_batches env ds (OPTIM_BATCH_SIZE opt) epoch) (fst part) ++
  snd part.

(** [part] fits [epoch]: one weight per training batch, and a validation
    pass that makes no call of a training step. *)
Definition epoch_part (opt : Config) (ds : list sample) (epoch : Z)
    (part : list weights * list Event) : Prop :=
  length (fst part) = length (fw_train_batches env ds (OPTIM_BATCH_SIZE opt) epoch) /\
  Forall eval_call (snd part).

(** The calls of a whole run of [train]: the setup, the epochs from [1] to
    [opt.OPTIM.NUM_EPOCHS] in order, and [accelerator.end_training()]. *)
Definition train_calls (grad : bool) (parts : list (list weights * list Event)) : list Event :=
  train_setup_calls ++
  concat (zip_with (epoch_calls grad config_yml train_dataset)
            (range 1 (OPTIM_NUM_EPOCHS config_yml + 1)) parts) ++
  [EEndTraining].

(** [>] orders the values [vals] as numbers are ordered: it is asymmetric
    and negatively transitive on them.  Floating-point values other than
    NaN are ordered so. *)
Definition ordered_on (vals : list num) : Prop :=
  forall a b c, In a vals -> In b vals -> In c vals ->
    (ngt a b = true -> ngt b a = false) /\
    (ngt a c = true -> ngt a b = true \/ ngt b c = true).

End Scripts.

Arguments bind : simpl never.
Arguments call : simpl never.
Arguments ret : simpl never.
Arguments gets : simpl never.
Arguments modify : simpl never.
Arguments raise : simpl never.
Arguments torch_no_grad : simpl never.
Arguments py_div : simpl never.
Arguments py_mod : simpl never.

Notation "'let!' x ':=' m 'in' k" := (bind m (fun x => k))
  (at level 10, x name, m at level 200, k at level 200).
Notation "'do!' m 'in' k" := (bind m (fun _ => k))
  (at level 10, m at level 200, k at level 200).

Arguments Config : clear implicits.
Arguments Event : clear implicits.
Arguments Framework : clear implicits.
Arguments World : clear implicits.
Arguments sample : clear implicits.
Arguments batch : clear implicits.
Arguments Metrics : clear implicits.
Arguments Best : clear implicits.

(** ** A small concrete framework

    Tensors, weights and optimizer states are integers and numbers are
    rationals, so that the scripts can be run. *)

#[export] Instance Q_number : Number Q := {|
  of_int := inject_Z;
  float_lit := fun q => q;
  nadd := Qplus;
  nsub := Qminus;
  nmul := Qmult;
  ndiv := Qdiv;
  ngt := fun a b => negb (Qle_bool a b);
  nrepr := fun q => str_int (Qnum q) +:+ "/" +:+ str_int (Zpos (Qden q))
|}.

(** Numbers with a NaN ([None]), as Python's floats have one: NaN
    propagates through the arithmetic, and [>] is false when either side is
    NaN. *)
#[export] Instance Q_nan_number : Number (option Q) := {|
  of_int := fun i => Some (inject_Z i);
  float_lit := fun q => Some q;
  nadd := fun a b => match a, b with Some x, Some y => Some (Qplus x y) | _, _ => None end;
  nsub := fun a b => match a, b with Some x, Some y => Some (Qminus x y) | _, _ => None end;
  nmul := fun a b => match a, b with Some x, Some y => Some (Qmult x y) | _, _ => None end;
  ndiv := fun a b => match a, b with Some x, Some y => Some (Qdiv x y) | _, _ => None end;
  ngt := fun a b => match a, b with Some x, Some y => negb (Qle_bool x y) | _, _ => false end;
  nrepr := fun a =>
    match a with
    | Some q => str_int (Qnum q) +:+ "/" +:+ str_int (Zpos (Qden q))
    | None => "nan"
    end
|}.

Definition toy_config : Config Q := {|
  OPTIM_SEED := 42; OPTIM_WANDB := false; OPTIM_BATCH_SIZE := 2;
  OPTIM_LR_INITIAL := 1 # 1000; OPTIM_NUM_EPOCHS := 2; OPTIM_LR_MIN := 1 # 100000;
  TRAINING_SAVE_DIR := "checkpoints"; TRAINING_TRAIN_DIR := "data/train";
  TRAINING_VAL_DIR := "data/val"; TRAINING_ORI := false;
  TRAINING_PS_W := 256; TRAINING_PS_H := 256; TRAINING_VAL_AFTER_EVERY := 1;
  TRAINING_LOG_FILE := "train.log";
  MODEL_INPUT := "input"; MODEL_TARGET := "target"; MODEL_SESSION := "UW";
  LOG_LOG_DIR := "log";
  TESTING_VAL_DIR := "data/test"; TESTING_INPUT := "input"; TESTING_TARGET := "target";
  TESTING_WEIGHT := "checkpoints/best.pth"; TESTING_RESULT_DIR := "result";
  TESTING_LOG_FILE := "test.log"
|}.

Definition toy_samples : list (sample Z) :=
  [ {| s_inp := 1; s_tar := 3; s_name := "a.png" |};
    {| s_inp := 2; s_tar := 5; s_name := "b.png" |} ].

Definition toy_env (faults : list (Event Z Z Q) -> Event Z Z Q -> option exn)
    (main : bool) (val_samples : list (sample Z)) : Framework Z Z Z Q := {|
  raises := faults;
  is_local_main_process := main;
  fw_config := fun _ => toy_config;
  fw_get_data := fun _ _ _ mode _ _ =>
    if String.eqb mode "train" then toy_samples else val_samples;
  fw_train_batches := fun ds _ _ => map collate1 ds;
  fw_init_weights := 0;
  fw_load_weights := fun _ _ => 7;
  fw_new_optim := fun _ _ _ => 0;
  fw_forward := fun training wt inp => (inp + wt, if training then wt + 1 else wt);
  fw_zero_grad := fun _ => 0;
  fw_autograd := fun _ t _ o => o + Z.of_nat (length t);
  fw_optimizer_step := fun o wt => (wt + o, o);
  fw_scheduler_step := fun o => o;
  fw_gather := fun t => t;
  fw_smooth_l1 := fun res tar => inject_Z (Z.abs (res - tar));
  fw_ssim := fun res tar => 1 # 2;
  fw_lpips := fun res tar => 1 # 4;
  fw_psnr := fun res tar => inject_Z (res - tar);
  fw_uciqe := fun res => inject_Z res;
  fw_uiqm := fun res => inject_Z (2 * res)
|}.

Definition no_faults {T W N : Type} : list (Event T W N) -> Event T W N -> option exn :=
  fun _ _ => None.

Definition toy_world : World Z Z Z Q := {|
  trace := []; model_weights := 0; model_training := true; grad_enabled := true;
  tape := []; optimizer := 0; dirs := ∅; files := ∅
|}.

Definition toy : Framework Z Z Z Q := toy_env no_faults true toy_samples.

Definition toy_empty : Framework Z Z Z Q := toy_env no_faults true [].

Definition toy_loader : list (batch Z) := map collate1 toy_samples.



(** * Reasoning about runs *)

Section Runs.

Context {tensor weights optim num : Type} {NumOps : Number num}.
Variable env : Framework tensor weights optim num.

#[local] Abbreviation World := (World tensor weights optim num).
#[local] Abbreviation Event := (Event tensor weights num).
#[local] Abbreviation M := (@M tensor weights optim num).

Implicit Types (w : World) (ev : Event) (evs : list Event).
Implicit Types (J : World -> Prop) (E : Event -> Prop).

(** ** Successful runs, step by step *)

Lemma bind_Ok {A B} (m : M A) (f : A -> M B) w b w2 :
  bind m f w = (Ok b, w2) ->
  exists a w1, m w = (Ok a, w1) /\ f a w1 = (Ok b, w2).
Proof.
  unfold bind. destruct (m w) as [[a|e] w1]; [eauto | discriminate].
Qed.

Lemma bind_Ok_intro {A B} (m : M A) (f : A -> M B) w a w1 :
  m w = (Ok a, w1) -> bind m f w = f a w1.
Proof. unfold bind. intros ->. reflexivity. Qed.

Lemma bind_Raise_intro {A B} (m : M A) (f : A -> M B) w e w1 :
  m w = (Raise e, w1) -> bind m f w = (Raise e, w1).
Proof. unfold bind. intros ->. reflexivity. Qed.

Lemma call_Ok ev w u w' :
  call env ev w = (Ok u, w') -> raises env (trace w) ev = None /\ w' = log_event ev w.
Proof.
  unfold call. destruct (raises env (trace w) ev); [discriminate|].
  intros [= <-]. auto.
Qed.

Lemma ret_Ok {A} (a b : A) w w' : ret a w = (Ok b, w') -> b = a /\ w' = w.
Proof. unfold ret. intros [= <- <-]. auto. Qed.

Lemma gets_Ok {A} (f : World -> A) b w w' : gets f w = (Ok b, w') -> b = f w /\ w' = w.
Proof. unfold gets. intros [= <- <-]. auto. Qed.

Lemma modify_Ok (f : World -> World) u w w' : modify f w = (Ok u, w') -> w' = f w.
Proof. unfold modify. intros [= <-]. auto. Qed.

Lemma raise_Ok {A} e (a : A) w w' : raise e w = (Ok a, w') -> False.
Proof. unfold raise. discriminate. Qed.

Lemma py_div_Ok x size r w w' :
  py_div x size w = (Ok r, w') -> size <> 0 /\ r = ndiv x (of_int size) /\ w' = w.
Proof.
  unfold py_div. destruct (Z.eqb_spec size 0).
  - intros H. destruct (raise_Ok _ _ _ _ H).
  - intros [-> ->]%ret_Ok. auto.
Qed.

Lemma py_mod_Ok x y r w w' :
  py_mod x y w = (Ok r, w') -> y <> 0 /\ r = x mod y /\ w' = w.
Proof.
  unfold py_mod. destruct (Z.eqb_spec y 0).
  - intros H. destruct (raise_Ok _ _ _ _ H).
  - intros [-> ->]%ret_Ok. auto.
Qed.

Lemma torch_no_grad_Ok {A} (body : M A) a w w' :
  torch_no_grad body w = (Ok a, w') ->
  exists w1, body (set_grad_enabled false w) = (Ok a, w1) /\
             w' = set_grad_enabled (grad_enabled w) w1.
Proof.
  unfold torch_no_grad. destruct (body _) as [r w1]. intros [= -> <-]. eauto.
Qed.

(** ** What every run does, successful or not *)

Lemma keeps_ret {A} J E (a : A) : keeps J E (ret a).
Proof. intros w HJ. exists []. simpl. rewrite app_nil_r. auto. Qed.

Lemma keeps_raise {A} J E e : keeps J E (@raise _ _ _ _ A e).
Proof. intros w HJ. exists []. simpl. rewrite app_nil_r. auto. Qed.

Lemma keeps_gets {A} J E (f : World -> A) : keeps J E (gets f).
Proof. intros w HJ. exists []. simpl. rewrite app_nil_r. auto. Qed.

Lemma keeps_modify J E (f : World -> World) :
  (forall w, J w -> trace (f w) = trace w /\ J (f w)) -> keeps J E (modify f).
Proof.
  intros Hf w HJ. destruct (Hf w HJ) as [Ht HJ']. exists []. simpl.
  rewrite app_nil_r. auto.
Qed.

Lemma keeps_call J E ev :
  E ev -> (forall w, J w -> J (log_event ev w)) -> keeps J E (call env ev).
Proof.
  intros HE Hlog w HJ. exists [ev]. unfold call.
  destruct (raises env (trace w) ev); simpl; auto.
Qed.

Lemma keeps_bind {A B} J E (m : M A) (f : A -> M B) :
  keeps J E m -> (forall a, keeps J E (f a)) -> keeps J E (bind m f).
Proof.
  intros Hm Hf w HJ. destruct (Hm w HJ) as (evs & Ht & HE & HJ').
  unfold bind. destruct (m w) as [[a|e] w1]; simpl in *.
  - destruct (Hf a w1 HJ') as (evs' & Ht' & HE' & HJ'').
    exists (evs ++ evs'). rewrite Ht', Ht, app_assoc.
    split; [reflexivity|]. split; [apply Forall_app; auto | auto].
  - exists evs. auto.
Qed.

Lemma keeps_for_each {A S} J E (body : A -> S -> M S) xs :
  (forall x s, In x xs -> keeps J E (body x s)) -> forall s, keeps J E (for_each xs body s).
Proof.
  induction xs as [|x xs IH]; intros Hb s; simpl.
  - apply keeps_ret.
  - apply keeps_bind.
    + apply Hb. left. reflexivity.
    + intros s'. apply IH. intros y s'' Hy. apply Hb. right. exact Hy.
Qed.

Lemma keeps_for_batches {S} J E (body : batch tensor -> S -> M S) loader :
  E ENext -> (forall w, J w -> J (log_event ENext w)) ->
  (forall data s, In data loader -> keeps J E (body data s)) ->
  forall s, keeps J E (for_batches env loader body s).
Proof.
  intros HE Hlog Hb s. unfold for_batches. apply keeps_for_each.
  intros data s' Hin. apply keeps_bind; [apply keeps_call; auto | intros _; auto].
Qed.

Lemma keeps_no_grad {A} (J J' : World -> Prop) E (body : M A) :
  (forall w, J w -> J' (set_grad_enabled false w)) ->
  (forall w g, J' w -> J (set_grad_enabled g w)) ->
  keeps J' E body -> keeps J E (torch_no_grad body).
Proof.
  intros Hin Hout Hb w HJ. unfold torch_no_grad.
  destruct (Hb _ (Hin w HJ)) as (evs & Ht & HE & HJ').
  destruct (body (set_grad_enabled false w)) as [r w1]; simpl in *.
  exists evs. auto.
Qed.

Lemma keeps_weaken {A} (J : World -> Prop) (E E' : Event -> Prop) (m : M A) :
  (forall ev, E ev -> E' ev) -> keeps J E m -> keeps J E' m.
Proof.
  intros HEE Hm w HJ. destruct (Hm w HJ) as (evs & Ht & HE & HJ').
  exists evs. split; [exact Ht|]. split; [|exact HJ'].
  eapply Forall_impl; eauto.
Qed.

(** [model(inp)] in a world whose mode flags are known. *)
Lemma keeps_model_call J E inp :
  (forall w, J w ->
     E (EForward (model_training w) (grad_enabled w) inp) /\
     J (log_event (EForward (model_training w) (grad_enabled w) inp) w) /\
     forall wt t, (wt = snd (fw_forward env (model_training w) (model_weights w) inp)) ->
                  (t = if grad_enabled w then tape w ++ [inp] else tape w) ->
                  J (set_tape t (set_weights wt
                       (log_event (EForward (model_training w) (grad_enabled w) inp) w)))) ->
  keeps J E (model_call env inp).
Proof.
  intros H w HJ. destruct (H w HJ) as (HE & HJ1 & HJ2).
  exists [EForward (model_training w) (grad_enabled w) inp].
  unfold model_call, bind, gets, modify, ret, call. simpl.
  destruct (raises env (trace w) _); simpl.
  - auto.
  - split; [destruct (grad_enabled w); reflexivity|]. split; [auto|].
    specialize (HJ2 _ _ eq_refl eq_refl).
    destruct (grad_enabled w); simpl in *; exact HJ2.
Qed.

Lemma keeps_bind_returns {A B} J E (m : M A) (f : A -> M B) v :
  returns m v -> keeps J E m -> keeps J E (f v) -> keeps J E (bind m f).
Proof.
  intros Hv Hm Hf w HJ. destruct (Hm w HJ) as (evs & Ht & HE & HJ').
  unfold bind. destruct (m w) as [[a|e] w1] eqn:Hrun; simpl in *.
  - rewrite (Hv _ _ _ Hrun).
    destruct (Hf w1 HJ') as (evs' & Ht' & HE' & HJ'').
    exists (evs ++ evs'). rewrite Ht', Ht, app_assoc.
    split; [reflexivity|]. split; [apply Forall_app; auto | auto].
  - exists evs. auto.
Qed.

Lemma bind_run {A B} (m : M A) (f : A -> M B) w r w2 :
  bind m f w = (r, w2) ->
  (exists a w1, m w = (Ok a, w1) /\ f a w1 = (r, w2)) \/
  (exists e, m w = (Raise e, w2) /\ r = Raise e).
Proof.
  unfold bind. destruct (m w) as [[a|e] w1].
  - intros H. left. eauto.
  - intros [= <- <-]. right. eauto.
Qed.

Lemma call_run ev w r w' :
  call env ev w = (r, w') ->
  w' = log_event ev w /\
  ((r = Ok tt /\ raises env (trace w) ev = None) \/
   (exists e, r = Raise e /\ raises env (trace w) ev = Some e)).
Proof.
  unfold call. destruct (raises env (trace w) ev) as [e|]; intros [= <- <-].
  - split; [reflexivity|]. right. eauto.
  - split; [reflexivity|]. left. auto.
Qed.

Lemma bind_assoc {A B C} (m : M A) (f : A -> M B) (g : B -> M C) w :
  bind (bind m f) g w = bind m (fun a => bind (f a) g) w.
Proof. unfold bind. destruct (m w) as [[a|e] w1]; reflexivity. Qed.

(** ** Raising calls end the run *)

Lemma propagates_silent {A} (m : M A) :
  (forall w, trace (snd (m w)) = trace w) -> propagates env m.
Proof.
  intros H w. exists []. rewrite app_nil_r. split; [apply H|].
  intros pre ev post e Hsplit. destruct pre; discriminate Hsplit.
Qed.

Lemma propagates_ret {A} (a : A) : propagates env (ret a).
Proof. apply propagates_silent. reflexivity. Qed.

Lemma propagates_raise {A} e : propagates env (@raise _ _ _ _ A e).
Proof. apply propagates_silent. reflexivity. Qed.

Lemma propagates_gets {A} (f : World -> A) : propagates env (gets f).
Proof. apply propagates_silent. reflexivity. Qed.

Lemma propagates_modify (f : World -> World) :
  (forall w, trace (f w) = trace w) -> propagates env (modify f).
Proof. intros H. apply propagates_silent. exact H. Qed.

Lemma propagates_call ev : propagates env (call env ev).
Proof.
  intros w. exists [ev]. split.
  - unfold call. destruct (raises env (trace w) ev); reflexivity.
  - intros pre ev' post e Hsplit Hr.
    destruct pre as [|x pre]; [|destruct pre; discriminate Hsplit].
    injection Hsplit as <- <-. rewrite app_nil_r in Hr.
    unfold call. rewrite Hr. auto.
Qed.

Lemma propagates_bind {A B} (m : M A) (f : A -> M B) :
  propagates env m -> (forall a, propagates env (f a)) -> propagates env (bind m f).
Proof.
  intros Hm Hf w. destruct (Hm w) as (evs1 & Ht1 & H1).
  unfold bind. destruct (m w) as [[a|e] w1]; simpl in *.
  - destruct (Hf a w1) as (evs2 & Ht2 & H2).
    exists (evs1 ++ evs2). split; [rewrite Ht2, Ht1, app_assoc; reflexivity|].
    intros pre ev post e Hsplit Hr.
    apply app_eq_app in Hsplit as [l [[Hpre Hev]|[Hpre Hev]]].
    + destruct l as [|x l].
      * rewrite app_nil_r in Hpre. subst pre. simpl in Hev. symmetry in Hev.
        apply (H2 [] ev post e Hev). rewrite app_nil_r, Ht1. exact Hr.
      * injection Hev as <- ->. destruct (H1 pre ev l e Hpre Hr) as [_ Hbad].
        discriminate Hbad.
    + subst pre. apply (H2 l ev post e Hev).
      rewrite Ht1, <- app_assoc. exact Hr.
  - exists evs1. split; [exact Ht1|].
    intros pre ev post e' Hsplit Hr.
    destruct (H1 pre ev post e' Hsplit Hr) as [-> [= ->]]. auto.
Qed.

Lemma propagates_for_each {A S} (body : A -> S -> M S) xs :
  (forall x s, propagates env (body x s)) -> forall s, propagates env (for_each xs body s).
Proof.
  intros Hb. induction xs as [|x xs IH]; intros s; simpl.
  - apply propagates_ret.
  - apply propagates_bind; [apply Hb | exact IH].
Qed.

Lemma propagates_no_grad {A} (body : M A) :
  propagates env body -> propagates env (torch_no_grad body).
Proof.
  intros Hb w. destruct (Hb (set_grad_enabled false w)) as (evs & Ht & H).
  unfold torch_no_grad. destruct (body (set_grad_enabled false w)) as [r w1].
  exists evs. split; [exact Ht | exact H].
Qed.

End Runs.

(** Decompose a hypothesis saying that a composed step succeeded into the
    successes of its parts. *)
Ltac run_inv_step :=
  match goal with
  | H : bind _ _ _ = (Ok _, _) |- _ =>
      let a := fresh "a" in let w1 := fresh "w" in let H1 := fresh "Hrun" in
      apply bind_Ok in H; destruct H as (a & w1 & H1 & H)
  | H : call _ _ _ = (Ok _, _) |- _ =>
      let Hnf := fresh "Hnofault" in
      apply call_Ok in H; destruct H as [Hnf H]
  | H : ret _ _ = (Ok _, _) |- _ => apply ret_Ok in H; destruct H
  | H : gets _ _ = (Ok _, _) |- _ => apply gets_Ok in H; destruct H
  | H : modify _ _ = (Ok _, _) |- _ => apply modify_Ok in H
  | H : raise _ _ = (Ok _, _) |- _ => destruct (raise_Ok _ _ _ _ H)
  | H : py_div _ _ _ = (Ok _, _) |- _ =>
      apply py_div_Ok in H; destruct H as (? & ? & ?)
  | H : py_mod _ _ _ = (Ok _, _) |- _ =>
      apply py_mod_Ok in H; destruct H as (? & ? & ?)
  | H : torch_no_grad _ _ = (Ok _, _) |- _ =>
      let w1 := fresh "w" in
      apply torch_no_grad_Ok in H; destruct H as (w1 & H & ?)
  | H : (if ?b then _ else _) _ = (Ok _, _) |- _ => destruct b eqn:?
  | H : (let _ := _ in _) _ = (Ok _, _) |- _ => cbv zeta in H
  end.

Ltac world_simpl :=
  cbn [trace model_weights model_training grad_enabled tape optimizer dirs files
       log_event set_weights set_training set_grad_enabled set_tape set_optimizer
       set_dirs set_files fst snd] in *.

Ltac run_inv := repeat (run_inv_step; subst; world_simpl).

Create HintDb returns.

Ltac head_of t := lazymatch t with ?f _ => head_of f | _ => t end.

(** One structural step of a [keeps] derivation. *)
Ltac keeps_step :=
  lazymatch goal with
  | |- keeps _ _ (bind _ _) =>
      first [ eapply keeps_bind_returns; [solve [eauto with returns] | | ]
            | apply keeps_bind; [| intros ?] ]
  | |- keeps _ _ (ret _) => apply keeps_ret
  | |- keeps _ _ (raise _) => apply keeps_raise
  | |- keeps _ _ (gets _) => apply keeps_gets
  | |- keeps _ _ (modify _) => apply keeps_modify
  | |- keeps _ _ (call _ _) => apply keeps_call
  | |- keeps _ _ (for_batches _ _ _ _) => apply keeps_for_batches; [ | | intros ? ? ?]
  | |- keeps _ _ (for_each _ _ _) => apply keeps_for_each; intros ? ? ?
  | |- keeps _ _ (model_call _ _) => apply keeps_model_call
  | |- keeps ?J _ (torch_no_grad _) => apply keeps_no_grad with (J' := J)
  | |- keeps _ _ (if ?b then _ else _) => destruct b eqn:?
  | |- keeps _ _ (match ?x with _ => _ end) => destruct x
  | |- keeps _ _ (let _ := _ in _) => cbv zeta
  | |- keeps _ _ ?m => let h := head_of m in unfold h
  end.

Ltac keeps_steps := repeat keeps_step.

Ltac keeps_side :=
  try solve [ exact I | reflexivity | intros; simpl; auto
            | intros; repeat split; simpl; auto ].

(** ** What the setup steps return *)

Section Returns.

Context {tensor weights optim num : Type} {NumOps : Number num}.
Variable env : Framework tensor weights optim num.

Lemma Config_yml_returns path : returns (Config_yml env path) (fw_config env path).
Proof. intros w a w' H. unfold Config_yml in H. run_inv. reflexivity. Qed.

Lemma get_data_returns dir inp tar mode ori ps :
  returns (get_data env dir inp tar mode ori ps) (fw_get_data env dir inp tar mode ori ps).
Proof. intros w a w' H. unfold get_data in H. run_inv. reflexivity. Qed.

Lemma train_setup_returns :
  returns (train_setup env)
    (config_yml env, train_dataset env, map collate1 (train_val_dataset env)).
Proof.
  intros w a w' H. unfold train_setup in H.
  unfold Config_yml, get_data in H. run_inv; reflexivity.
Qed.

Lemma test_setup_returns :
  returns (test_setup env) (config_yml env, map collate1 (test_val_dataset env)).
Proof.
  intros w a w' H. unfold test_setup in H.
  unfold Config_yml, get_data in H. run_inv; reflexivity.
Qed.

Lemma py_mod_returns x y : returns (@py_mod tensor weights optim num x y) (x mod y).
Proof. intros w a w' H. run_inv. reflexivity. Qed.

End Returns.

#[export] Hint Resolve Config_yml_returns get_data_returns train_setup_returns
  test_setup_returns py_mod_returns : returns.

(** One structural step of a [propagates] derivation. *)
Ltac prop_step :=
  lazymatch goal with
  | |- propagates _ (bind _ _) => apply propagates_bind; [| intros ?]
  | |- propagates _ (ret _) => apply propagates_ret
  | |- propagates _ (raise _) => apply propagates_raise
  | |- propagates _ (gets _) => apply propagates_gets
  | |- propagates _ (modify _) =>
      apply propagates_modify; intros ?; simpl;
      repeat match goal with |- context [if ?b then _ else _] => destruct b end;
      reflexivity
  | |- propagates _ (call _ _) => apply propagates_call
  | |- propagates _ (for_each _ _ _) => apply propagates_for_each; intros ? ?
  | |- propagates _ (torch_no_grad _) => apply propagates_no_grad
  | |- propagates _ (if ?b then _ else _) => destruct b
  | |- propagates _ (match ?x with _ => _ end) => destruct x
  | |- propagates _ (let _ := _ in _) => cbv zeta
  | |- propagates _ ?m => let h := head_of m in unfold h
  end.

Ltac prop_steps := repeat prop_step.
(** Unfold the framework calls of a step. *)
Ltac unfold_calls H :=
  unfold model_call, accelerator_gather, peak_signal_noise_ratio,
    structural_similarity_index_measure, criterion_lpips, criterion_psnr,
    batch_uciqe, batch_uiqm, os_path_isdir, os_makedirs, save_image,
    optimizer_zero_grad, accelerator_backward, optimizer_step, scheduler_step,
    model_train, model_eval, tqdm, model_state_dict, save_checkpoint,
    accelerator_log, print, open_append, f_write, accelerator_end_training in H.


(** * The claims *)

Section Claims.

Context {tensor weights optim num : Type} {NumOps : Number num}.
Variable env : Framework tensor weights optim num.

#[local] Abbreviation World := (World tensor weights optim num).
#[local] Abbreviation Event := (Event tensor weights num).
#[local] Abbreviation M := (@M tensor weights optim num).

Implicit Types (w : World) (ev : Event) (evs : list Event).
Implicit Types (J : World -> Prop) (E : Event -> Prop).

Lemma in_range x a b : In x (range a b) -> a <= x < b.
Proof.
  unfold range. intros H. apply in_map_iff in H. destruct H as (i & <- & Hi).
  apply in_seq in Hi. lia.
Qed.

Lemma only_calls_weaken {A} E E' (m : M A) :
  (forall ev, E ev -> E' ev) -> only_calls E m -> only_calls E' m.
Proof. apply keeps_weaken. Qed.

(** ** The training part of an epoch *)

Lemma train_step_run data w r w' :
  train_step env data w = (r, w') ->
  let res := fst (fw_forward env (model_training w) (model_weights w) (b_inp data)) in
  let calls := train_step_calls env (model_training w) (grad_enabled w) data res in
  exists evs, trace w' = trace w ++ evs /\
    match r with
    | Ok _ => evs = calls /\
              model_training w' = model_training w /\
              grad_enabled w' = grad_enabled w
    | Raise _ => exists rest, calls = evs ++ rest
    end.
Proof.
  unfold train_step, train_step_calls, train_loss_of.
  unfold optimizer_zero_grad, model_call, criterion_psnr, structural_similarity_index_measure,
    criterion_lpips, accelerator_backward, optimizer_step.
  unfold bind, call, gets, modify, ret. world_simpl.
  destruct (grad_enabled w) eqn:Hg;
    repeat (match goal with
            | |- context [match raises env ?h ?e with _ => _ end] =>
                destruct (raises env h e)
            end; world_simpl; rewrite ?Hg);
    intros [= <- <-]; cbv zeta; world_simpl; rewrite ?Hg;
    (eexists; split; [rewrite <- ?app_assoc; reflexivity|]; simpl;
     first [eexists; reflexivity | repeat split; reflexivity]).
Qed.

Lemma train_loop_run loader : forall w r w',
  for_batches env loader (fun data _ => train_step env data) tt w = (r, w') ->
  model_training w = true ->
  exists wts evs,
    length wts = length loader /\
    trace w' = trace w ++ evs /\
    (let calls := concat (zip_with
            (fun data wt =>
               ENext :: train_step_calls env true (grad_enabled w) data
                          (fst (fw_forward env true wt (b_inp data))))
            loader wts) in
     match r with
     | Ok _ => evs = calls /\ grad_enabled w' = grad_enabled w
     | Raise _ => exists rest, calls ++ [ESchedulerStep] = evs ++ rest
     end).
Proof.
  unfold for_batches.
  induction loader as [|data rest IH]; intros w r w' H Htr; simpl in H.
  - injection H as <- <-. exists [], []. rewrite app_nil_r. repeat split; reflexivity.
  - apply bind_run in H as [(s' & w1 & Hbody & Hrest)|(e & Hbody & ->)].
    + apply bind_Ok in Hbody as (u & w0 & Hnext & Hstep).
      apply call_Ok in Hnext as [_ ->].
      apply train_step_run in Hstep. world_simpl. rewrite Htr in Hstep.
      destruct Hstep as (evs1 & Ht1 & Hev1 & Htr1 & Hg1).
      destruct s'. apply IH in Hrest; [|congruence].
      destruct Hrest as (wts & evs2 & Hlen & Ht2 & Hout2).
      exists (model_weights w :: wts), (ENext :: evs1 ++ evs2).
      split; [simpl; congruence|].
      split; [rewrite Ht2, Ht1, <- !app_assoc; reflexivity|].
      rewrite Hg1 in Hout2. cbn [zip_with concat]. subst evs1.
      destruct r.
      * destruct Hout2 as [-> Hg2]. split; [reflexivity | congruence].
      * destruct Hout2 as [k Hk]. exists k.
        cbn [app]. rewrite <- !app_assoc, Hk. reflexivity.
    + apply bind_run in Hbody as [(u & w0 & Hnext & Hstep)|(e' & Hnext & [= ->])].
      * apply call_Ok in Hnext as [_ ->].
        apply train_step_run in Hstep. world_simpl. rewrite Htr in Hstep.
        destruct Hstep as (evs1 & Ht1 & k & Hk).
        exists (model_weights w :: repeat (model_weights w) (length rest)), (ENext :: evs1).
        split; [simpl; rewrite repeat_length; reflexivity|].
        split; [rewrite Ht1, <- !app_assoc; reflexivity|].
        cbn [zip_with concat app]. rewrite Hk. cbn [app]. rewrite <- !app_assoc.
        eexists. reflexivity.
      * apply call_run in Hnext as [-> _].
        exists (model_weights w :: repeat (model_weights w) (length rest)), [ENext].
        split; [simpl; rewrite repeat_length; reflexivity|]. split; [reflexivity|].
        simpl. eexists. reflexivity.
Qed.

Lemma train_epoch_run loader w r w' :
  train_epoch env loader w = (r, w') ->
  exists wts evs,
    length wts = length loader /\
    trace w' = trace w ++ evs /\
    match r with
    | Ok _ => evs = train_epoch_calls env (grad_enabled w) loader wts
    | Raise _ => exists rest, train_epoch_calls env (grad_enabled w) loader wts = evs ++ rest
    end.
Proof.
  unfold train_epoch, train_epoch_calls, model_train, tqdm, scheduler_step. intros H.
  apply bind_run in H as [(u1 & w1 & H1 & H)|(e & H1 & ->)].
  2:{ apply bind_run in H1 as [(u & w0 & Hc & Hm)|(e' & Hc & [= ->])].
      - apply call_Ok in Hc as [_ ->]. discriminate Hm.
      - apply call_run in Hc as [-> _].
        exists (repeat (model_weights w) (length loader)), [EModelTrain].
        split; [apply repeat_length|]. split; [reflexivity|]. simpl. eexists. reflexivity. }
  run_inv.
  apply bind_run in H as [(u2 & w2 & H2 & H)|(e & H2 & ->)].
  2:{ apply bind_run in H2 as [(u & w0 & Hc & Hm)|(e' & Hc & [= ->])].
      - apply call_Ok in Hc as [_ ->]. discriminate Hm.
      - apply call_run in Hc as [-> _]. world_simpl.
        exists (repeat (model_weights w) (length loader)), [EModelTrain; ETqdm (negb (is_local_main_process env))].
        split; [apply repeat_length|]. split; [rewrite <- app_assoc; reflexivity|].
        simpl. eexists. reflexivity. }
  run_inv.
  apply bind_run in H as [(u3 & w3 & H3 & H)|(e & H3 & ->)].
  - apply train_loop_run in H3; [|reflexivity]. world_simpl.
    destruct H3 as (wts & evs & Hlen & Ht & -> & Hg).
    exists wts.
    match type of Ht with _ = _ ++ ?l =>
      exists (EModelTrain :: ETqdm (negb (is_local_main_process env)) :: l ++ [ESchedulerStep])
    end.
    split; [exact Hlen|].
    apply bind_run in H as [(u & w0 & Hc & Hm)|(e' & Hc & ->)].
    + apply call_Ok in Hc as [_ ->]. unfold modify in Hm. injection Hm as <- <-.
      world_simpl. split; [rewrite Ht, <- !app_assoc; reflexivity|]. reflexivity.
    + apply call_run in Hc as [-> _]. world_simpl.
      split; [rewrite Ht, <- !app_assoc; reflexivity|].
      exists []. rewrite app_nil_r. reflexivity.
  - apply train_loop_run in H3; [|reflexivity]. world_simpl.
    destruct H3 as (wts & evs & Hlen & Ht & k & Hk).
    exists wts, (EModelTrain :: ETqdm (negb (is_local_main_process env)) :: evs).
    split; [exact Hlen|]. split; [rewrite Ht, <- !app_assoc; reflexivity|].
    exists k. cbn [app]. rewrite Hk. reflexivity.
Qed.

Lemma train_epoch_calls_scheduler grad loader wts :
  List.filter is_scheduler_step (train_epoch_calls env grad loader wts) = [ESchedulerStep].
Proof.
  unfold train_epoch_calls. rewrite !List.filter_app. simpl.
  assert (H : List.filter is_scheduler_step
                (concat (zip_with
                   (fun data wt =>
                      ENext :: train_step_calls env true grad data
                                 (fst (fw_forward env true wt (b_inp data))))
                   loader wts)) = []).
  { revert wts. induction loader as [|data rest IH]; intros [|wt wts]; simpl; auto. }
  rewrite H. reflexivity.
Qed.

(** ** Evaluation loops and their reports *)

Lemma val_step_Ok data acc w acc' w' :
  val_step env data acc w = (Ok acc', w') ->
  let out := fw_forward env (model_training w) (model_weights w) (b_inp data) in
  acc' = add_metrics acc (batch_metrics env (fw_gather env (fst out)) (fw_gather env (b_tar data))) /\
  model_weights w' = snd out /\
  model_training w' = model_training w.
Proof.
  intros H. unfold val_step in H. unfold_calls H.
  run_inv. simpl. auto.
Qed.

Lemma val_loop_Ok loader : forall acc w acc' w',
  for_batches env loader (val_step env) acc w = (Ok acc', w') ->
  acc' = fold_left add_metrics
           (batch_values env (fw_gather env) (model_training w) (model_weights w) loader) acc /\
  model_weights w' = weights_after env (model_training w) (model_weights w) loader /\
  model_training w' = model_training w.
Proof.
  unfold for_batches.
  induction loader as [|data rest IH]; intros acc w acc' w' H; simpl in H.
  - run_inv. auto.
  - apply bind_Ok in H as (s' & w1 & Hbody & Hrest).
    apply bind_Ok in Hbody as (u & w0 & Hnext & Hstep).
    apply call_Ok in Hnext as [_ ->].
    apply val_step_Ok in Hstep. world_simpl. destruct Hstep as (-> & Hw & Ht).
    apply IH in Hrest. rewrite Hw, Ht in Hrest. exact Hrest.
Qed.

Lemma fold_add_metrics vals : forall acc,
  fold_left add_metrics vals acc =
  {| m_psnr := fold_left nadd (map m_psnr vals) (m_psnr acc);
     m_ssim := fold_left nadd (map m_ssim vals) (m_ssim acc);
     m_lpips := fold_left nadd (map m_lpips vals) (m_lpips acc);
     m_uciqe := fold_left nadd (map m_uciqe vals) (m_uciqe acc);
     m_uiqm := fold_left nadd (map m_uiqm vals) (m_uiqm acc) |}.
Proof.
  induction vals as [|v vals IH]; intros acc; simpl.
  - destruct acc; reflexivity.
  - rewrite IH. reflexivity.
Qed.

Lemma average_Ok sums size m w w' :
  average sums size w = (Ok m, w') ->
  size <> 0 /\ w' = w /\
  m = {| m_psnr := ndiv (m_psnr sums) (of_int size);
         m_ssim := ndiv (m_ssim sums) (of_int size);
         m_lpips := ndiv (m_lpips sums) (of_int size);
         m_uciqe := ndiv (m_uciqe sums) (of_int size);
         m_uiqm := ndiv (m_uiqm sums) (of_int size) |}.
Proof. intros H. unfold average in H. run_inv. auto. Qed.

Lemma averages_of_sums vals size :
  averages vals size =
  let sums := fold_left add_metrics vals zero_metrics in
  {| m_psnr := ndiv (m_psnr sums) (of_int size);
     m_ssim := ndiv (m_ssim sums) (of_int size);
     m_lpips := ndiv (m_lpips sums) (of_int size);
     m_uciqe := ndiv (m_uciqe sums) (of_int size);
     m_uiqm := ndiv (m_uiqm sums) (of_int size) |}.
Proof. rewrite fold_add_metrics. reflexivity. Qed.

Lemma val_metrics_Ok loader size m w w' :
  val_metrics env loader size w = (Ok m, w') ->
  size <> 0 /\
  m = averages (batch_values env (fw_gather env) false (model_weights w) loader) size /\
  model_weights w' = weights_after env false (model_weights w) loader /\
  model_training w' = false.
Proof.
  intros H. unfold val_metrics in H. unfold_calls H. run_inv.
  apply average_Ok in H. destruct H as (Hsz & -> & ->).
  match goal with Hl : for_batches _ _ _ _ _ = _ |- _ =>
    apply val_loop_Ok in Hl; world_simpl; destruct Hl as (-> & Hw & Ht) end.
  rewrite averages_of_sums. auto.
Qed.

Lemma only_calls_run {A} E (m : M A) w r w' :
  only_calls E m -> m w = (r, w') ->
  exists evs, trace w' = trace w ++ evs /\ Forall E evs.
Proof.
  intros Hm Hrun. destruct (Hm w I) as (evs & Ht & HE & _).
  rewrite Hrun in Ht. eauto.
Qed.

Lemma filter_none {A} (f : A -> bool) (l : list A) :
  Forall (fun x => f x = false) l -> List.filter f l = [].
Proof.
  induction 1 as [|x l Hx _ IH]; simpl; [reflexivity|]. rewrite Hx. exact IH.
Qed.

Lemma no_report_val_metrics loader size : only_calls no_report (val_metrics env loader size).
Proof. unfold only_calls. keeps_steps; keeps_side. Qed.

Lemma val_checkpoint_Ok opt epoch m best best' w w' :
  val_checkpoint env opt epoch m best w = (Ok best', w') ->
  best' = (if ngt (m_psnr m) (best_psnr best)
           then {| best_epoch := epoch; best_psnr := m_psnr m |} else best) /\
  model_weights w' = model_weights w /\
  exists evs, trace w' = trace w ++ evs /\
    List.filter is_checkpoint_write evs =
      (if ngt (m_psnr m) (best_psnr best)
       then [checkpoint_of opt epoch (model_weights w)] else []) /\
    List.filter is_report evs = [].
Proof.
  intros H. unfold val_checkpoint in H. unfold_calls H.
  destruct (ngt _ _); run_inv.
  - split; [reflexivity|]. split; [reflexivity|].
    eexists [_; _]. rewrite <- !app_assoc. repeat split; reflexivity.
  - split; [reflexivity|]. split; [reflexivity|].
    exists []. rewrite app_nil_r. repeat split; reflexivity.
Qed.

Lemma test_step_Ok opt data acc w acc' w' :
  test_step env opt data acc w = (Ok acc', w') ->
  let out := fw_forward env (model_training w) (model_weights w) (b_inp data) in
  acc' = add_metrics acc (batch_metrics env (fst out) (b_tar data)) /\
  model_weights w' = snd out /\
  model_training w' = model_training w /\
  dirs w ⊆ dirs w' /\
  TESTING_RESULT_DIR opt ∈ dirs w' /\
  exists evs, trace w' = trace w ++ evs /\
    List.filter is_image_write evs = [image_of opt data (fst out)] /\
    List.filter is_makedirs evs =
      (if bool_decide (TESTING_RESULT_DIR opt ∈ dirs w) then []
       else [EMakedirs (TESTING_RESULT_DIR opt) false]).
Proof.
  intros H. unfold test_step in H. unfold_calls H. unfold image_of.
  destruct (b_names data) as [|name names]; run_inv; simpl;
    (split; [reflexivity|]); (split; [reflexivity|]); (split; [reflexivity|]).
  - split; [set_solver|]. split; [set_solver|].
    eexists [_; _; _; _; _; _; _; _; _]. rewrite <- !app_assoc.
    split; [reflexivity|]. simpl. 
    match goal with Hb : negb _ = true |- _ => apply negb_true_iff in Hb; rewrite Hb end.
    split; reflexivity.
  - match goal with Hb : negb _ = false |- _ => apply negb_false_iff in Hb end.
    split; [set_solver|]. split; [apply bool_decide_eq_true in Heqb; exact Heqb|].
    eexists [_; _; _; _; _; _; _; _]. rewrite <- !app_assoc.
    split; [reflexivity|]. simpl. rewrite Heqb. split; reflexivity.
Qed.
Lemma test_loop_Ok opt loader : forall acc w acc' w',
  for_batches env loader (test_step env opt) acc w = (Ok acc', w') ->
  acc' = fold_left add_metrics
           (batch_values env (fun t => t) (model_training w) (model_weights w) loader) acc /\
  model_weights w' = weights_after env (model_training w) (model_weights w) loader /\
  model_training w' = model_training w /\
  dirs w ⊆ dirs w' /\
  (loader <> [] -> TESTING_RESULT_DIR opt ∈ dirs w') /\
  exists evs, trace w' = trace w ++ evs /\
    List.filter is_image_write evs =
      zip_with (image_of opt) loader
        (outputs env (model_training w) (model_weights w) loader) /\
    List.filter is_makedirs evs =
      (if bool_decide (TESTING_RESULT_DIR opt ∈ dirs w) then []
       else match loader with
            | [] => []
            | _ => [EMakedirs (TESTING_RESULT_DIR opt) false]
            end).
Proof.
  unfold for_batches.
  induction loader as [|data rest IH]; intros acc w acc' w' H; simpl in H.
  - apply ret_Ok in H as [-> ->]. do 3 (split; [reflexivity|]).
    split; [set_solver|]. split; [intros Hne; contradiction|].
    exists []. rewrite app_nil_r. do 2 (split; [reflexivity|]).
    simpl. destruct (bool_decide _); reflexivity.
  - apply bind_Ok in H as (s' & w1 & Hbody & Hrest).
    apply bind_Ok in Hbody as (u & w0 & Hnext & Hstep).
    apply call_Ok in Hnext as [_ ->].
    apply test_step_Ok in Hstep. world_simpl.
    destruct Hstep as (-> & Hw & Ht & Hsub & Hin & evs1 & Htr1 & Him1 & Hmk1).
    apply IH in Hrest. rewrite Hw, Ht in Hrest.
    destruct Hrest as (-> & Hw' & Ht' & Hsub' & _ & evs2 & Htr2 & Him2 & Hmk2).
    simpl. split; [reflexivity|]. do 2 (split; [assumption|]).
    split; [transitivity (dirs w1); assumption|].
    split; [intros _; exact (proj1 (elem_of_subseteq _ _) Hsub' _ Hin)|].
    exists (ENext :: evs1 ++ evs2). split.
    { rewrite Htr2, Htr1, <- !app_assoc. reflexivity. }
    simpl. rewrite !List.filter_app, Him1, Him2, Hmk1, Hmk2.
    split; [reflexivity|].
    rewrite ?(bool_decide_eq_true_2 _ Hin), ?app_nil_r. reflexivity.
Qed.

Lemma test_setup_Ok s w w' :
  test_setup env w = (Ok s, w') ->
  s = (config_yml env, map collate1 (test_val_dataset env)) /\
  model_weights w' = test_weights env /\
  model_training w' = false /\
  dirs w' = dirs w.
Proof.
  intros H. pose proof (test_setup_returns env _ _ _ H) as ->.
  unfold test_setup in H. unfold Config_yml, get_data, seed_everything, Accelerator,
    LearnedPerceptualImagePatchSimilarity, DataLoader, Model, load_checkpoint,
    accelerator_prepare in H. unfold_calls H.
  run_inv. repeat split; reflexivity.
Qed.

Lemma test_metrics_Ok opt loader m w w' :
  test_metrics env opt loader w = (Ok m, w') ->
  loader <> [] /\
  m = averages (batch_values env (fun t => t) (model_training w) (model_weights w) loader)
        (Z.of_nat (length loader)) /\
  TESTING_RESULT_DIR opt ∈ dirs w' /\
  exists evs, trace w' = trace w ++ evs /\
    List.filter is_image_write evs =
      zip_with (image_of opt) loader
        (outputs env (model_training w) (model_weights w) loader) /\
    List.filter is_makedirs evs =
      (if bool_decide (TESTING_RESULT_DIR opt ∈ dirs w) then []
       else [EMakedirs (TESTING_RESULT_DIR opt) false]).
Proof.
  intros H. unfold test_metrics in H. unfold_calls H. cbv zeta in H.
  apply bind_Ok in H as (it & w1 & Htq & H).
  apply bind_Ok in H as (stat & w2 & Hloop & H).
  run_inv.
  apply average_Ok in H as (Hsz & -> & ->).
  apply test_loop_Ok in Hloop. world_simpl.
  destruct Hloop as (-> & _ & _ & _ & Hin & evs & Htr & Him & Hmk).
  assert (Hne : loader <> []) by (destruct loader; [simpl in Hsz; lia | discriminate]).
  split; [exact Hne|]. split; [rewrite averages_of_sums; reflexivity|].
  split; [auto|].
  exists (ETqdm false :: evs). rewrite Htr, <- app_assoc. split; [reflexivity|].
  simpl. rewrite Him, Hmk. split; [reflexivity|].
  destruct loader; [contradiction | reflexivity].
Qed.

Lemma test_report_Ok opt m u w w' :
  test_report env opt m w = (Ok u, w') ->
  exists evs, trace w' = trace w ++ evs /\
    List.filter is_report evs = test_reports opt m /\
    List.filter is_image_write evs = [] /\
    List.filter is_makedirs evs = [].
Proof.
  intros H. unfold test_report in H. unfold_calls H. run_inv.
  eexists [_; _; _; _; _]. rewrite <- !app_assoc. repeat split; reflexivity.
Qed.


Lemma train_size_is_validation_set_size w :
  train env w =
  (let! _ := train_setup env in
   do! train_loop env (config_yml env) (train_dataset env)
         (map collate1 (train_val_dataset env))
         (Z.of_nat (length (train_val_dataset env)))
         (range 1 (OPTIM_NUM_EPOCHS (config_yml env) + 1)) initial_best in
   accelerator_end_training env) w.
Proof.
  unfold train. destruct (train_setup env w) as [[s|e] w1] eqn:H.
  - rewrite !(bind_Ok_intro _ _ _ _ _ H), (train_setup_returns _ _ _ _ H).
    cbn [fst snd]. rewrite length_map. reflexivity.
  - rewrite !(bind_Raise_intro _ _ _ _ _ H). reflexivity.
Qed.

Lemma no_image_test_setup :
  only_calls (fun ev => is_image_write ev = false /\ is_makedirs ev = false) (test_setup env).
Proof. unfold only_calls. keeps_steps; keeps_side. Qed.

Lemma outputs_length training loader : forall wt,
  length (outputs env training wt loader) = length loader.
Proof.
  induction loader as [|data rest IH]; intros wt; simpl; [reflexivity|].
  rewrite IH. reflexivity.
Qed.

Lemma os_path_join_relative dir name :
  starts_with_slash name = false ->
  os_path_join dir name = dir +:+ name \/ os_path_join dir name = dir +:+ "/" +:+ name.
Proof.
  intros H. unfold os_path_join. rewrite H.
  destruct dir as [|c dir]; [left; reflexivity|].
  destruct (ends_with_slash (String c dir)); auto.
Qed.

(** C4. When the evaluation loop of [test] completes, it has written one
    image per batch of the loader, in loader order: the restored image of
    that batch, at [os.path.join(opt.TESTING.RESULT_DIR, name)] for the
    batch's first file name.  The result directory is created (once) when it
    was missing, and exists afterwards.  For a whole run of [test] that is
    one image per sample of the evaluation set, under the sample's own file
    name. *)
Theorem one_image_per_sample_in_result_dir :
  (forall opt loader m w w',
     test_metrics env opt loader w = (Ok m, w') ->
     TESTING_RESULT_DIR opt ∈ dirs w' /\
     exists evs,
       trace w' = trace w ++ evs /\
       List.filter is_image_write evs =
         zip_with (image_of opt) loader
           (outputs env (model_training w) (model_weights w) loader) /\
       length (List.filter is_image_write evs) = length loader /\
       List.filter is_makedirs evs =
         (if bool_decide (TESTING_RESULT_DIR opt ∈ dirs w) then []
          else [EMakedirs (TESTING_RESULT_DIR opt) false])) /\
  (forall w w',
     test env w = (Ok tt, w') ->
     let result_dir := TESTING_RESULT_DIR (config_yml env) in
     result_dir ∈ dirs w' /\
     exists evs,
       trace w' = trace w ++ evs /\
       List.filter is_image_write evs =
         zip_with (fun s res => ESaveImage res (os_path_join result_dir (s_name s)))
           (test_val_dataset env)
           (outputs env false (test_weights env) (map collate1 (test_val_dataset env))) /\
       length (List.filter is_image_write evs) = length (test_val_dataset env) /\
       List.filter is_makedirs evs =
         (if bool_decide (result_dir ∈ dirs w) then [] else [EMakedirs result_dir false])) /\
  (forall dir name,
     starts_with_slash name = false ->
     os_path_join dir name = dir +:+ name \/ os_path_join dir name = dir +:+ "/" +:+ name).
Proof.
  split; [|split; [|exact os_path_join_relative]].
  - intros opt loader m w w' H.
    apply test_metrics_Ok in H as (_ & _ & Hin & evs & Ht & Him & Hmk).
    split; [exact Hin|]. exists evs. split; [exact Ht|]. split; [exact Him|].
    split; [|exact Hmk].
    rewrite Him, length_zip_with, outputs_length. lia.
  - intros w w' H result_dir. unfold test in H.
    apply bind_Ok in H as (s & w1 & Hs & H).
    apply bind_Ok in H as (m & w2 & Hm & H).
    destruct (only_calls_run _ _ _ _ _ no_image_test_setup Hs) as (evs1 & Ht1 & HE1).
    apply test_setup_Ok in Hs as (-> & Hw & Htr & Hd). cbn [fst snd] in Hm, H.
    apply test_metrics_Ok in Hm as (_ & _ & Hin & evs2 & Ht2 & Him & Hmk).
    rewrite Hw, Htr, Hd in *.
    pose proof H as Hdirs.
    apply test_report_Ok in H as (evs3 & Ht3 & _ & Him3 & Hmk3).
    split.
    { unfold test_report in Hdirs. unfold_calls Hdirs. run_inv. exact Hin. }
    assert (HE1i : Forall (fun ev => is_image_write ev = false) evs1)
      by (eapply List.Forall_impl; [|exact HE1]; intros ev [? ?]; assumption).
    assert (HE1m : Forall (fun ev => is_makedirs ev = false) evs1)
      by (eapply List.Forall_impl; [|exact HE1]; intros ev [? ?]; assumption).
    exists (evs1 ++ evs2 ++ evs3).
    split; [rewrite Ht3, Ht2, Ht1, <- !app_assoc; reflexivity|].
    assert (Himg : List.filter is_image_write (evs1 ++ evs2 ++ evs3) =
              zip_with (fun s res => ESaveImage res (os_path_join result_dir (s_name s)))
                (test_val_dataset env)
                (outputs env false (test_weights env)
                   (map collate1 (test_val_dataset env)))).
    { rewrite !List.filter_app, Him, Him3, app_nil_r.
      rewrite (filter_none _ _ HE1i). simpl.
      rewrite zip_with_fmap_l. reflexivity. }
    split; [exact Himg|]. split.
    + rewrite Himg, length_zip_with, outputs_length, length_map. lia.
    + rewrite !List.filter_app, Hmk, Hmk3, app_nil_r.
      rewrite (filter_none _ _ HE1m). reflexivity.
Qed.

(** ** Checkpoints *)

Lemma no_checkpoint_train_setup : only_calls no_checkpoint (train_setup env).
Proof. unfold only_calls. keeps_steps; keeps_side. Qed.

Lemma no_checkpoint_train_epoch loader : only_calls no_checkpoint (train_epoch env loader).
Proof. unfold only_calls. keeps_steps; keeps_side. Qed.

Lemma no_checkpoint_val_metrics loader size :
  only_calls no_checkpoint (val_metrics env loader size).
Proof. unfold only_calls. keeps_steps; keeps_side. Qed.

Lemma no_checkpoint_val_log opt epoch m best :
  only_calls no_checkpoint (val_log env opt epoch m best).
Proof. unfold only_calls. keeps_steps; keeps_side. Qed.

Lemma no_checkpoint_end_training : only_calls no_checkpoint (accelerator_end_training env).
Proof. unfold only_calls. keeps_steps; keeps_side. Qed.

Lemma no_checkpoint_test : only_calls no_checkpoint (test env).
Proof. unfold only_calls. keeps_steps; keeps_side. Qed.

Lemma no_checkpoint_train_checkpoint opt ev : no_checkpoint ev -> train_checkpoint opt ev.
Proof. unfold no_checkpoint, train_checkpoint. congruence. Qed.

Lemma val_checkpoint_writes opt epoch m best w :
  exists evs, trace (snd (val_checkpoint env opt epoch m best w)) = trace w ++ evs /\
    (List.filter is_checkpoint_write evs = [] \/
     List.filter is_checkpoint_write evs = [checkpoint_of opt epoch (model_weights w)]).
Proof.
  unfold val_checkpoint, model_state_dict, save_checkpoint, bind, call, gets, ret.
  destruct (ngt _ _).
  - destruct (raises env (trace w) EStateDict); simpl.
    + exists [EStateDict]. auto.
    + destruct (raises env _ _); simpl;
        (eexists [EStateDict; _]; rewrite <- app_assoc;
         split; [reflexivity | right; reflexivity]).
  - exists []. simpl. rewrite app_nil_r. auto.
Qed.

Lemma train_checkpoints : only_calls (train_checkpoint (config_yml env)) (train env).
Proof.
  unfold only_calls, train.
  eapply keeps_bind_returns; [apply train_setup_returns | | ].
  - eapply keeps_weaken;
      [apply no_checkpoint_train_checkpoint | apply no_checkpoint_train_setup].
  - cbv zeta. simpl fst. simpl snd.
    apply keeps_bind; [| intros _; keeps_steps; keeps_side; discriminate].
    unfold train_loop. apply keeps_for_each. intros epoch best Hin%in_range.
    unfold epoch_body. apply keeps_bind.
    { eapply keeps_weaken;
        [apply no_checkpoint_train_checkpoint | apply no_checkpoint_train_epoch]. }
    intros _. eapply keeps_bind_returns; [apply py_mod_returns | keeps_steps; keeps_side |].
    destruct (Z.eqb_spec (epoch mod TRAINING_VAL_AFTER_EVERY (config_yml env)) 0)
      as [Hmod|_]; [|apply keeps_ret].
    unfold validate. apply keeps_bind.
    { eapply keeps_weaken;
        [apply no_checkpoint_train_checkpoint | apply no_checkpoint_val_metrics]. }
    intros m. unfold val_report. apply keeps_bind.
    + keeps_steps; keeps_side; try discriminate.
      intros _. exists epoch. eexists. split; [reflexivity|]. split; [lia | exact Hmod].
    + intros b. apply keeps_bind; [|intros _; apply keeps_ret].
      eapply keeps_weaken;
        [apply no_checkpoint_train_checkpoint | apply no_checkpoint_val_log].
Qed.

(** C3. A checkpoint is written only by lines 132-138 of [train]: there,
    at most one, holding the model's current state dictionary under the key
    [state_dict] and identified by the current epoch, [opt.MODEL.SESSION] and
    [opt.TRAINING.SAVE_DIR].  The setup, the training part of an epoch, the
    evaluation loop, the report and the end of [train] write none, so every
    checkpoint of a whole run of [train] has that form, for an epoch of the
    run that is a validation epoch; [test] writes none. *)
Theorem checkpoint_is_state_dict_by_epoch_and_session :
  (forall opt epoch m best w,
     exists evs,
       trace (snd (val_checkpoint env opt epoch m best w)) = trace w ++ evs /\
       (List.filter is_checkpoint_write evs = [] \/
        List.filter is_checkpoint_write evs =
          [checkpoint_of opt epoch (model_weights w)])) /\
  only_calls no_checkpoint (train_setup env) /\
  (forall loader, only_calls no_checkpoint (train_epoch env loader)) /\
  (forall loader size, only_calls no_checkpoint (val_metrics env loader size)) /\
  (forall opt epoch m best, only_calls no_checkpoint (val_log env opt epoch m best)) /\
  only_calls no_checkpoint (accelerator_end_training env) /\
  only_calls (train_checkpoint (config_yml env)) (train env) /\
  only_calls no_checkpoint (test env).
Proof.
  split; [exact val_checkpoint_writes|].
  split; [exact no_checkpoint_train_setup|].
  split; [exact no_checkpoint_train_epoch|].
  split; [exact no_checkpoint_val_metrics|].
  split; [exact no_checkpoint_val_log|].
  split; [exact no_checkpoint_end_training|].
  split; [exact train_checkpoints | exact no_checkpoint_test].
Qed.

(** ** Log files *)









(** ** An empty validation set *)

Lemma validate_empty opt epoch best w :
  never_raises env ->
  fst (validate env opt [] 0 epoch best w) = Raise ZeroDivisionError.
Proof.
  intros H. unfold validate, val_metrics, model_eval, tqdm, for_batches, average, py_div.
  unfold bind, call, modify, ret, raise. cbn.
  repeat (rewrite H; cbn). reflexivity.
Qed.

Lemma test_empty w :
  never_raises env -> test_val_dataset env = [] ->
  fst (test env w) = Raise ZeroDivisionError.
Proof.
  intros H Hds. unfold test.
  destruct (test_setup env w) as [[s|e] w1] eqn:Hs.
  - rewrite (bind_Ok_intro _ _ _ _ _ Hs).
    rewrite (test_setup_returns env _ _ _ Hs), Hds. cbn [fst snd map].
    unfold test_metrics, tqdm, for_batches, average, py_div.
    unfold bind, call, modify, ret, raise. cbn.
    repeat (rewrite H; cbn). reflexivity.
  - exfalso. revert Hs. unfold test_setup.
    unfold Config_yml, get_data, seed_everything, Accelerator,
      LearnedPerceptualImagePatchSimilarity, DataLoader, Model, load_checkpoint,
      accelerator_prepare, model_eval.
    unfold bind, call, modify, ret, raise. cbn.
    repeat (rewrite H; cbn). discriminate.
Qed.

Lemma validate_needs_samples opt loader epoch best w best' w' :
  validate env opt loader (Z.of_nat (length loader)) epoch best w = (Ok best', w') ->
  loader <> [].
Proof.
  intros H. unfold validate in H. apply bind_Ok in H as (m & w1 & Hm & _).
  apply val_metrics_Ok in Hm as (Hsz & _). intros ->. apply Hsz. reflexivity.
Qed.

Lemma test_needs_samples w w' :
  test env w = (Ok tt, w') -> test_val_dataset env <> [].
Proof.
  intros H. unfold test in H.
  apply bind_Ok in H as (s & w1 & Hs & H).
  apply bind_Ok in H as (m & w2 & Hm & _).
  rewrite (test_setup_returns env _ _ _ Hs) in Hm. cbn [fst snd] in Hm.
  apply test_metrics_Ok in Hm as (Hne & _). intros Hds. apply Hne. rewrite Hds. reflexivity.
Qed.

Lemma no_report_train_setup : only_calls no_report (train_setup env).
Proof. unfold only_calls. keeps_steps; keeps_side. Qed.

Lemma no_report_train_epoch loader : only_calls no_report (train_epoch env loader).
Proof. unfold only_calls. keeps_steps; keeps_side. Qed.

Lemma no_report_validate_empty opt epoch best :
  only_calls no_report (validate env opt [] 0 epoch best).
Proof.
  intros w _. unfold validate.
  destruct (no_report_val_metrics [] 0 w I) as (evs & Ht & HE & _).
  destruct (val_metrics env [] 0 w) as [[m|e] w1] eqn:Hm.
  - apply val_metrics_Ok in Hm as (Hsz & _). contradiction.
  - rewrite (bind_Raise_intro _ _ _ _ _ Hm). eauto.
Qed.

Lemma no_report_train_empty :
  train_val_dataset env = [] -> only_calls no_report (train env).
Proof.
  intros Hds. unfold only_calls, train.
  eapply keeps_bind_returns; [apply train_setup_returns | apply no_report_train_setup |].
  rewrite Hds. cbn [fst snd map length Z.of_nat]. cbv zeta.
  apply keeps_bind; [|intros _; keeps_steps; keeps_side].
  unfold train_loop. apply keeps_for_each. intros epoch best _.
  unfold epoch_body. apply keeps_bind; [apply no_report_train_epoch|].
  intros _. apply keeps_bind; [keeps_steps; keeps_side|]. intros r.
  destruct (r =? 0); [apply no_report_validate_empty | apply keeps_ret].
Qed.
(** C8. With a loader that yields no batch, a validation pass of [train]
    and a run of [test] end in [ZeroDivisionError] when no framework call
    raises before the averages are taken; whatever the framework does,
    neither completes: a validation pass that returns, and a run of [test]
    that returns, had a non-empty loader, and [train] on an empty
    validation set never reports a metric. *)
Theorem empty_validation_set_divides_by_zero :
  (forall opt loader epoch best w,
     never_raises env -> loader = [] ->
     fst (validate env opt loader (Z.of_nat (length loader)) epoch best w) =
       Raise ZeroDivisionError) /\
  (forall w,
     never_raises env -> test_val_dataset env = [] ->
     fst (test env w) = Raise ZeroDivisionError) /\
  (forall opt loader epoch best w best' w',
     validate env opt loader (Z.of_nat (length loader)) epoch best w = (Ok best', w') ->
     loader <> []) /\
  (forall w w', test env w = (Ok tt, w') -> test_val_dataset env <> []) /\
  (train_val_dataset env = [] -> only_calls no_report (train env)).
Proof.
  split; [|split; [exact test_empty|]].
  - intros opt loader epoch best w H ->. apply validate_empty, H.
  - split; [exact validate_needs_samples|].
    split; [exact test_needs_samples | exact no_report_train_empty].
Qed.

(** ** The best PSNR *)

Lemma best_after_cons e p hist (b : Best num) :
  best_after ((e, p) :: hist) b =
  best_after hist (if ngt p (best_psnr b)
                   then {| best_epoch := e; best_psnr := p |} else b).
Proof. reflexivity. Qed.

Lemma best_after_app h1 h2 (b : Best num) :
  best_after (h1 ++ h2) b = best_after h2 (best_after h1 b).
Proof. apply fold_left_app. Qed.

Lemma new_bests_app h1 : forall h2 (b : Best num),
  new_bests (h1 ++ h2) (best_psnr b) =
  new_bests h1 (best_psnr b) ++ new_bests h2 (best_psnr (best_after h1 b)).
Proof.
  induction h1 as [|[e p] h1 IH]; intros h2 b; [reflexivity|].
  rewrite best_after_cons. simpl. destruct (ngt p (best_psnr b)) eqn:Hp.
  - simpl. f_equal. apply (IH h2 {| best_epoch := e; best_psnr := p |}).
  - apply IH.
Qed.

Lemma quiet_history evs :
  Forall quiet evs -> psnr_history evs = [] /\ saved_epochs evs = [].
Proof.
  induction 1 as [|ev evs [Hl Hs] _ [IHl IHs]]; [split; reflexivity|].
  unfold psnr_history, saved_epochs. simpl. rewrite Hl, Hs. split; assumption.
Qed.

Lemma quiet_train_epoch loader : only_calls quiet (train_epoch env loader).
Proof. unfold only_calls. keeps_steps; try solve [split; reflexivity]; keeps_side. Qed.

Lemma quiet_val_metrics loader size : only_calls quiet (val_metrics env loader size).
Proof. unfold only_calls. keeps_steps; try solve [split; reflexivity]; keeps_side. Qed.

Lemma val_report_history opt epoch m best best' w w' :
  val_report env opt epoch m best w = (Ok best', w') ->
  exists evs, trace w' = trace w ++ evs /\
    psnr_history evs = [(epoch, m_psnr m)] /\
    saved_epochs evs = (if ngt (m_psnr m) (best_psnr best) then [epoch] else []) /\
    best' = update_best best (epoch, m_psnr m).
Proof.
  intros H. unfold val_report, val_checkpoint, val_log in H. unfold_calls H.
  unfold update_best. simpl.
  destruct (ngt (m_psnr m) (best_psnr best)); run_inv;
    (eexists; split; [rewrite <- ?app_assoc; reflexivity|]; repeat split; reflexivity).
Qed.

Lemma validate_history opt loader size epoch best best' w w' :
  validate env opt loader size epoch best w = (Ok best', w') ->
  exists evs p, trace w' = trace w ++ evs /\
    psnr_history evs = [(epoch, p)] /\
    saved_epochs evs = (if ngt p (best_psnr best) then [epoch] else []) /\
    best' = update_best best (epoch, p).
Proof.
  intros H. unfold validate in H. apply bind_Ok in H as (m & w1 & Hm & H).
  destruct (only_calls_run _ _ _ _ _ (quiet_val_metrics _ _) Hm) as (evs1 & Ht1 & HE1).
  apply quiet_history in HE1 as [Hl1 Hs1].
  apply val_report_history in H as (evs2 & Ht2 & Hl2 & Hs2 & Hb).
  exists (evs1 ++ evs2), (m_psnr m).
  split; [rewrite Ht2, Ht1, <- app_assoc; reflexivity|].
  unfold psnr_history, saved_epochs in *. rewrite !flat_map_app, Hl1, Hs1. auto.
Qed.

Lemma epoch_body_history opt ds loader size epoch best best' w w' :
  epoch_body env opt ds loader size epoch best w = (Ok best', w') ->
  exists evs, trace w' = trace w ++ evs /\
    best' = best_after (psnr_history evs) best /\
    saved_epochs evs = new_bests (psnr_history evs) (best_psnr best).
Proof.
  intros H. unfold epoch_body in H.
  apply bind_Ok in H as (u & w1 & He & H).
  destruct (only_calls_run _ _ _ _ _ (quiet_train_epoch _) He) as (evs1 & Ht1 & HE1).
  apply quiet_history in HE1 as [Hl1 Hs1].
  apply bind_Ok in H as (r & w2 & Hr & H). apply py_mod_Ok in Hr as (_ & -> & ->).
  destruct (_ =? 0).
  - apply validate_history in H as (evs2 & p & Ht2 & Hl2 & Hs2 & Hb).
    exists (evs1 ++ evs2). split; [rewrite Ht2, Ht1, <- app_assoc; reflexivity|].
    unfold psnr_history, saved_epochs in *. rewrite !flat_map_app, Hl1, Hs1, Hl2, Hs2.
    simpl. split; [exact Hb|]. destruct (ngt p (best_psnr best)); reflexivity.
  - apply ret_Ok in H as [-> ->]. exists evs1. split; [exact Ht1|].
    rewrite Hl1, Hs1. split; reflexivity.
Qed.

Lemma train_loop_history opt ds loader size epochs : forall best best' w w',
  train_loop env opt ds loader size epochs best w = (Ok best', w') ->
  exists evs, trace w' = trace w ++ evs /\
    best' = best_after (psnr_history evs) best /\
    saved_epochs evs = new_bests (psnr_history evs) (best_psnr best).
Proof.
  unfold train_loop.
  induction epochs as [|epoch epochs IH]; intros best best' w w' H; simpl in H.
  - apply ret_Ok in H as [-> ->]. exists []. rewrite app_nil_r. repeat split; reflexivity.
  - apply bind_Ok in H as (b1 & w1 & H1 & H).
    apply epoch_body_history in H1 as (evs1 & Ht1 & -> & Hs1).
    apply IH in H as (evs2 & Ht2 & -> & Hs2).
    exists (evs1 ++ evs2). split; [rewrite Ht2, Ht1, <- app_assoc; reflexivity|].
    unfold psnr_history, saved_epochs in *. rewrite !flat_map_app.
    split; [rewrite best_after_app; reflexivity|].
    rewrite Hs1, Hs2. symmetry. apply new_bests_app.
Qed.
Lemma best_after_attained hist : forall b : Best num,
  (best_after hist b = b /\ forall e p, In (e, p) hist -> ngt p (best_psnr b) = false) \/
  In (best_epoch (best_after hist b), best_psnr (best_after hist b)) hist.
Proof.
  induction hist as [|[e0 p0] hist IH]; intros b.
  - left. split; [reflexivity | contradiction].
  - rewrite best_after_cons. destruct (ngt p0 (best_psnr b)) eqn:Hp.
    + right. destruct (IH {| best_epoch := e0; best_psnr := p0 |}) as [[-> _]|H].
      * left. reflexivity.
      * right. exact H.
    + destruct (IH b) as [[Heq Hall]|H]; [left|right; right; exact H].
      split; [exact Heq|]. intros e p [[= -> ->]|Hin]; [exact Hp | eauto].
Qed.

Lemma new_bests_none hist : forall b : num,
  (forall e p, In (e, p) hist -> ngt p b = false) -> new_bests hist b = [].
Proof.
  induction hist as [|[e0 p0] hist IH]; intros b Hall; simpl; [reflexivity|].
  rewrite (Hall e0 p0) by (left; reflexivity). apply IH. intros e p Hin.
  apply (Hall e p). right. exact Hin.
Qed.

(** ** Evaluation and the model *)

Lemma keeps_eval_forward_mode inp :
  keeps eval_mode eval_call (torch_no_grad (model_call env inp)).
Proof.
  apply keeps_no_grad with (J' := fun w => eval_mode w /\ grad_enabled w = false).
  - intros w H. split; [exact H | reflexivity].
  - intros w g [H _]. exact H.
  - apply keeps_model_call. intros w [Hm Hg]. unfold eval_mode in *.
    rewrite Hm, Hg. simpl. repeat split; auto.
Qed.

Lemma keeps_eval_forward_frozen wt tp o inp :
  eval_pure env ->
  keeps (frozen wt tp o) (fun _ => True) (torch_no_grad (model_call env inp)).
Proof.
  intros Hpure.
  apply keeps_no_grad with (J' := fun w => frozen wt tp o w /\ grad_enabled w = false).
  - intros w H. split; [exact H | reflexivity].
  - intros w g [H _]. exact H.
  - apply keeps_model_call. intros w [(Hm & Hw & Ht & Ho) Hg].
    split; [exact I|]. split; [repeat split; assumption|].
    intros wt' t' -> ->. rewrite Hm, Hg, Hpure. repeat split; assumption.
Qed.

#[local] Ltac eval_steps :=
  repeat first [ apply keeps_eval_forward_mode | keeps_step ].

Lemma eval_calls_val_loop loader size :
  keeps eval_mode eval_call
    (let! it := tqdm env loader (negb (is_local_main_process env)) in
     let! sums := for_batches env it (val_step env) zero_metrics in
     average sums size).
Proof. eval_steps; keeps_side. Qed.

Lemma eval_calls_val_report opt epoch m best :
  keeps eval_mode eval_call (val_report env opt epoch m best).
Proof. eval_steps; keeps_side. Qed.

Lemma eval_calls_test_loop opt loader :
  keeps eval_mode eval_call (test_metrics env opt loader).
Proof. eval_steps; keeps_side. Qed.

Lemma eval_calls_test_report opt m :
  keeps eval_mode eval_call (test_report env opt m).
Proof. eval_steps; keeps_side. Qed.

Lemma eval_calls_test_setup : only_calls eval_call (test_setup env).
Proof. unfold only_calls. keeps_steps; keeps_side. Qed.

Lemma bind_model_eval {A} (k : unit -> M A) w :
  bind (model_eval env) k w =
  match raises env (trace w) EModelEval with
  | Some e => (Raise e, log_event EModelEval w)
  | None => k tt (set_training false (log_event EModelEval w))
  end.
Proof.
  unfold model_eval, bind, call, modify.
  destruct (raises env (trace w) EModelEval); reflexivity.
Qed.

Lemma validate_eval_calls opt loader size epoch best w :
  exists evs,
    trace (snd (validate env opt loader size epoch best w)) = trace w ++ EModelEval :: evs /\
    Forall eval_call evs.
Proof.
  unfold validate, val_metrics. rewrite bind_assoc, bind_model_eval.
  destruct (raises env (trace w) EModelEval).
  - exists []. split; [reflexivity | constructor].
  - match goal with |- context [bind ?k ?k2 ?w1] =>
      assert (Hk : keeps eval_mode eval_call (bind k k2)) end.
    { apply keeps_bind; [apply eval_calls_val_loop|]. intros m. apply eval_calls_val_report. }
    destruct (Hk _ (eq_refl : eval_mode (set_training false (log_event EModelEval w))))
      as (evs & Htr & HE & _).
    exists evs. split; [|exact HE]. rewrite Htr. simpl. rewrite <- app_assoc. reflexivity.
Qed.

Lemma test_setup_ends_in_eval s w w' :
  test_setup env w = (Ok s, w') ->
  model_training w' = false /\ exists evs, trace w' = trace w ++ evs ++ [EModelEval].
Proof.
  intros H. unfold test_setup in H. unfold Config_yml, get_data, seed_everything, Accelerator,
    LearnedPerceptualImagePatchSimilarity, DataLoader, Model, load_checkpoint,
    accelerator_prepare in H. unfold_calls H.
  run_inv. split; [reflexivity|].
  eexists [_; _; _; _; _; _; _; _; _]. rewrite <- !app_assoc. reflexivity.
Qed.

Lemma test_eval_calls w :
  exists evs, trace (snd (test env w)) = trace w ++ evs /\ Forall eval_call evs.
Proof.
  unfold test.
  destruct (eval_calls_test_setup w I) as (evs1 & Ht1 & HE1 & _).
  destruct (test_setup env w) as [[s|e] w1] eqn:Hs.
  - rewrite (bind_Ok_intro _ _ _ _ _ Hs). simpl in Ht1.
    apply test_setup_ends_in_eval in Hs as [Hm _].
    assert (Hk : keeps eval_mode eval_call
                   (let! m := test_metrics env s.1 s.2 in test_report env s.1 m)).
    { apply keeps_bind; [apply eval_calls_test_loop|]. intros m. apply eval_calls_test_report. }
    destruct (Hk w1 Hm) as (evs2 & Ht2 & HE2 & _).
    exists (evs1 ++ evs2). cbv zeta. split; [rewrite Ht2, Ht1, app_assoc; reflexivity|].
    apply Forall_app; auto.
  - rewrite (bind_Raise_intro _ _ _ _ _ Hs). exists evs1. auto.
Qed.

#[local] Ltac frozen_steps H :=
  repeat first [ apply keeps_eval_forward_frozen; exact H | keeps_step ].

#[local] Ltac frozen_side :=
  try solve [ exact I
            | let H := fresh in
              intros ? H; try (split; [reflexivity|]); exact H ].

Lemma frozen_val_loop wt tp o loader size :
  eval_pure env ->
  keeps (frozen wt tp o) (fun _ => True)
    (let! it := tqdm env loader (negb (is_local_main_process env)) in
     let! sums := for_batches env it (val_step env) zero_metrics in
     average sums size).
Proof. intros H. frozen_steps H; frozen_side. Qed.

Lemma frozen_val_report wt tp o opt epoch m best :
  keeps (frozen wt tp o) (fun _ => True) (val_report env opt epoch m best).
Proof. keeps_steps; frozen_side. Qed.

Lemma frozen_test_loop wt tp o opt loader :
  eval_pure env ->
  keeps (frozen wt tp o) (fun _ => True) (test_metrics env opt loader).
Proof. intros H. frozen_steps H; frozen_side. Qed.

Lemma frozen_test_report wt tp o opt m :
  keeps (frozen wt tp o) (fun _ => True) (test_report env opt m).
Proof. keeps_steps; frozen_side. Qed.

Lemma validate_same_model opt loader size epoch best w :
  eval_pure env ->
  same_model (model_weights w) (tape w) (optimizer w)
    (snd (validate env opt loader size epoch best w)).
Proof.
  intros Hpure. unfold validate, val_metrics. rewrite bind_assoc, bind_model_eval.
  destruct (raises env (trace w) EModelEval).
  - repeat split.
  - match goal with |- context [bind ?k ?k2 ?w1] =>
      assert (Hk : keeps (frozen (model_weights w) (tape w) (optimizer w)) (fun _ => True)
                     (bind k k2)) end.
    { apply keeps_bind; [apply frozen_val_loop, Hpure|]. intros m. apply frozen_val_report. }
    destruct (Hk (set_training false (log_event EModelEval w))) as (_ & _ & _ & _ & H).
    + repeat split.
    + exact H.
Qed.

Lemma test_same_model w w' :
  eval_pure env ->
  test env w = (Ok tt, w') ->
  same_model (test_weights env) (tape w) (optimizer w) w'.
Proof.
  intros Hpure H. unfold test in H.
  apply bind_Ok in H as (s & w1 & Hs & H).
  assert (Hfr : frozen (test_weights env) (tape w) (optimizer w) w1).
  { unfold test_setup in Hs. unfold Config_yml, get_data, seed_everything, Accelerator,
      LearnedPerceptualImagePatchSimilarity, DataLoader, Model, load_checkpoint,
      accelerator_prepare in Hs. unfold_calls Hs. run_inv. repeat split. }
  assert (Hk : keeps (frozen (test_weights env) (tape w) (optimizer w)) (fun _ => True)
                 (let! m := test_metrics env s.1 s.2 in test_report env s.1 m)).
  { apply keeps_bind; [apply frozen_test_loop, Hpure|]. intros m. apply frozen_test_report. }
  destruct (Hk w1 Hfr) as (_ & _ & _ & _ & Hfin). cbv zeta in H. rewrite H in Hfin. exact Hfin.
Qed.
(** C10. A validation pass of [train] begins by putting the model in eval
    mode, and [test] does so at the end of its setup; from there on, in the
    validation pass and in all of [test], every forward pass runs in eval
    mode with gradients disabled, and there is no [zero_grad], backward
    pass, optimizer step, scheduler step or [model.train()].  When the
    framework's eval-mode forward pass leaves the model as it is, the
    weights, the autograd tape and the optimizer are the same after a
    validation pass as before it, the evaluation loop of [test] keeps them,
    and after [test] the weights are those of the loaded checkpoint. *)
Theorem evaluation_leaves_model_unchanged :
  (forall opt loader size epoch best w,
     exists evs,
       trace (snd (validate env opt loader size epoch best w)) =
         trace w ++ EModelEval :: evs /\
       Forall eval_call evs) /\
  (forall w,
     exists evs, trace (snd (test env w)) = trace w ++ evs /\ Forall eval_call evs) /\
  (forall s w w',
     test_setup env w = (Ok s, w') ->
     model_training w' = false /\
     exists evs, trace w' = trace w ++ evs ++ [EModelEval]) /\
  (eval_pure env ->
   forall opt loader size epoch best w,
     same_model (model_weights w) (tape w) (optimizer w)
       (snd (validate env opt loader size epoch best w))) /\
  (eval_pure env ->
   forall wt tp o opt loader,
     keeps (frozen wt tp o) (fun _ => True) (test_metrics env opt loader)) /\
  (eval_pure env ->
   forall w w',
     test env w = (Ok tt, w') ->
     same_model (test_weights env) (tape w) (optimizer w) w').
Proof.
  split; [exact validate_eval_calls|]. split; [exact test_eval_calls|].
  split; [exact test_setup_ends_in_eval|]. split; [|split].
  - intros H opt loader size epoch best w. apply validate_same_model, H.
  - intros H wt tp o opt loader. apply frozen_test_loop, H.
  - intros H w w'. apply test_same_model, H.
Qed.

(** ** The process role *)






(** ** Exceptions *)

(** C6. Neither script handles an exception: in every run of [train] and
    of [test], a framework call that raises is the last call the script
    makes - no later step runs - and the exception it raised is the outcome
    of the script. *)
Theorem framework_exceptions_propagate_unhandled :
  propagates env (train env) /\ propagates env (test env).
Proof. split; prop_steps. Qed.

End Claims.

(** * The claims on the concrete framework *)

Lemma one_image_per_sample_witness :
  TESTING_RESULT_DIR toy_config ∈ dirs (snd (test_metrics toy toy_config toy_loader toy_world)) /\
  TESTING_RESULT_DIR (config_yml toy) ∈ dirs (snd (test toy toy_world)) /\
  (os_path_join "result" "a.png" = "result" +:+ "a.png" \/
   os_path_join "result" "a.png" = "result" +:+ "/" +:+ "a.png").
Proof.
  destruct (one_image_per_sample_in_result_dir toy) as (Hloop & Htest & Hjoin).
  split; [|split].
  - destruct (Hloop toy_config toy_loader
                (averages (batch_values toy (fun t => t) true 0 toy_loader) 2)
                toy_world (snd (test_metrics toy toy_config toy_loader toy_world)))
      as [H _].
    + vm_compute. reflexivity.
    + exact H.
  - destruct (Htest toy_world (snd (test toy toy_world))) as [H _].
    + vm_compute. reflexivity.
    + exact H.
  - apply Hjoin. reflexivity.
Defined.


Lemma empty_validation_set_witness :
  fst (validate toy_empty toy_config [] 0 1 initial_best toy_world) =
    Raise ZeroDivisionError /\
  fst (test toy_empty toy_world) = Raise ZeroDivisionError /\
  toy_loader <> [] /\
  test_val_dataset toy <> [] /\
  only_calls no_report (train toy_empty).
Proof.
  destruct (empty_validation_set_divides_by_zero toy_empty) as (Hval & Htest & _ & _ & Htrain).
  destruct (empty_validation_set_divides_by_zero toy) as (_ & _ & Hvne & Htne & _).
  split; [|split; [|split; [|split]]].
  - apply (Hval toy_config [] 1 initial_best toy_world); [intros h ev|]; reflexivity.
  - apply Htest; [intros h ev|]; reflexivity.
  - apply (Hvne toy_config toy_loader 1 initial_best toy_world initial_best
             (snd (validate toy toy_config toy_loader 2 1 initial_best toy_world))).
    vm_compute. reflexivity.
  - apply (Htne toy_world (snd (test toy toy_world))). vm_compute. reflexivity.
  - apply Htrain. reflexivity.
Defined.

Lemma Q_ngt_asym (a b : Q) : ngt a b = true -> ngt b a = false.
Proof.
  simpl. intros H. apply negb_true_iff in H. apply negb_false_iff.
  apply Qle_bool_iff. apply Qlt_le_weak. apply Qnot_le_lt.
  intros Hle. apply Qle_bool_iff in Hle. congruence.
Qed.

Lemma Q_ngt_neg_trans (a b c : Q) : ngt a c = true -> ngt a b = true \/ ngt b c = true.
Proof.
  simpl. intros H. apply negb_true_iff in H.
  destruct (Qle_bool a b) eqn:Hab; [|left; reflexivity].
  destruct (Qle_bool b c) eqn:Hbc; [|right; reflexivity].
  apply Qle_bool_iff in Hab, Hbc.
  assert (Hac : Qle_bool a c = true) by (apply Qle_bool_iff; eapply Qle_trans; eassumption).
  congruence.
Qed.

Lemma toy_eval_pure : eval_pure toy.
Proof. intros wt inp. reflexivity. Qed.

Lemma evaluation_leaves_model_unchanged_witness :
  model_training (snd (test_setup toy toy_world)) = false /\
  same_model 0 [] 0 (snd (validate toy toy_config toy_loader 2 1 initial_best toy_world)) /\
  same_model 7 [] 0 (snd (test toy toy_world)).
Proof.
  destruct (evaluation_leaves_model_unchanged toy) as (_ & _ & Hsetup & Hval & _ & Htest).
  split; [|split].
  - destruct (Hsetup (toy_config, toy_loader) toy_world (snd (test_setup toy toy_world)))
      as [H _].
    + vm_compute. reflexivity.
    + exact H.
  - exact (Hval toy_eval_pure toy_config toy_loader 2 1 initial_best toy_world).
  - apply (Htest toy_eval_pure toy_world (snd (test toy toy_world))).
    vm_compute. reflexivity.
Defined.



(** * Further properties of the scripts *)

Section Further.

Context {tensor weights optim num : Type} {NumOps : Number num}.
Variable env : Framework tensor weights optim num.

#[local] Abbreviation World := (World tensor weights optim num).
#[local] Abbreviation Event := (Event tensor weights num).
#[local] Abbreviation M := (@M tensor weights optim num).

Implicit Types (w : World) (ev : Event) (evs : list Event).
Implicit Types (J : World -> Prop) (E : Event -> Prop).

(** ** Files and directories *)

(** Side conditions of a [keeps] derivation whose invariant does not
    depend on the part of the world a step changes. *)
#[local] Ltac frame_side :=
  try solve [ exact I
            | let H := fresh in intros ? H; exact H
            | let H := fresh in intros ? ? H; exact H
            | let H := fresh in intros ? H; split; [reflexivity | exact H]
            | let H := fresh in
              intros ? H; split; [exact I|]; split; [exact H | intros ? ? _ _; exact H] ].

Lemma dirs_within_refl dir w : dirs_within dir w w.
Proof. split; [reflexivity | apply union_subseteq_r]. Qed.

Lemma dirs_within_makedirs dir w0 w :
  dirs_within dir w0 w -> dirs_within dir w0 (set_dirs ({[dir]} ∪ dirs w) w).
Proof.
  intros [H1 H2]. split; simpl.
  - transitivity (dirs w); [exact H1 | apply union_subseteq_r].
  - apply union_least; [apply union_subseteq_l | exact H2].
Qed.

#[local] Ltac dirs_side :=
  try solve [ let H := fresh in
              intros ? H; split; [reflexivity | apply dirs_within_makedirs; exact H] ].

Lemma dirs_within_test w0 :
  keeps (dirs_within (TESTING_RESULT_DIR (config_yml env)) w0) (fun _ => True) (test env).
Proof. keeps_steps; frame_side; dirs_side. Qed.

(** ** Runs that complete *)

Lemma succeeds_ret {A} (a : A) : succeeds (ret a : M A).
Proof. intros w. exists a, w. reflexivity. Qed.

Lemma succeeds_gets {A} (f : World -> A) : succeeds (gets f).
Proof. intros w. exists (f w), w. reflexivity. Qed.

Lemma succeeds_modify (f : World -> World) : succeeds (modify f).
Proof. intros w. exists tt, (f w). reflexivity. Qed.

Lemma succeeds_call ev : never_raises env -> succeeds (call env ev).
Proof. intros H w. exists tt, (log_event ev w). unfold call. rewrite H. reflexivity. Qed.

Lemma succeeds_bind {A B} (m : M A) (f : A -> M B) :
  succeeds m -> (forall a, succeeds (f a)) -> succeeds (bind m f).
Proof.
  intros Hm Hf w. destruct (Hm w) as (a & w1 & H1). destruct (Hf a w1) as (b & w2 & H2).
  exists b, w2. rewrite (bind_Ok_intro _ _ _ _ _ H1). exact H2.
Qed.

Lemma succeeds_bind_returns {A B} (m : M A) (f : A -> M B) v :
  returns m v -> succeeds m -> succeeds (f v) -> succeeds (bind m f).
Proof.
  intros Hv Hm Hf w. destruct (Hm w) as (a & w1 & H1).
  rewrite (bind_Ok_intro _ _ _ _ _ H1), (Hv _ _ _ H1). apply Hf.
Qed.

Lemma succeeds_for_each {A S} (body : A -> S -> M S) xs :
  (forall x s, In x xs -> succeeds (body x s)) -> forall s, succeeds (for_each xs body s).
Proof.
  induction xs as [|x xs IH]; intros Hb s; simpl.
  - apply succeeds_ret.
  - apply succeeds_bind.
    + apply Hb. left. reflexivity.
    + intros s'. apply IH. intros y s'' Hy. apply Hb. right. exact Hy.
Qed.

Lemma succeeds_no_grad {A} (body : M A) : succeeds body -> succeeds (torch_no_grad body).
Proof.
  intros Hb w. destruct (Hb (set_grad_enabled false w)) as (a & w1 & H1).
  exists a, (set_grad_enabled (grad_enabled w) w1). unfold torch_no_grad. rewrite H1. reflexivity.
Qed.

Lemma succeeds_py_div (x : num) size : size <> 0 -> succeeds (py_div x size : M num).
Proof.
  intros Hne w. unfold py_div. destruct (Z.eqb_spec size 0); [contradiction|].
  apply succeeds_ret.
Qed.

Lemma succeeds_py_mod x y : y <> 0 -> succeeds (py_mod x y : M Z).
Proof.
  intros Hne w. unfold py_mod. destruct (Z.eqb_spec y 0); [contradiction|].
  apply succeeds_ret.
Qed.

Lemma tqdm_returns loader disable : returns (tqdm env loader disable) loader.
Proof. intros w a w' H. unfold tqdm in H. run_inv. reflexivity. Qed.

#[local] Hint Resolve tqdm_returns : returns.

Section Completes.

Hypothesis framework_is_reliable : never_raises env.

(** One structural step of a [succeeds] derivation. *)
#[local] Ltac succ_step :=
  lazymatch goal with
  | |- succeeds (bind _ _) =>
      first [ eapply succeeds_bind_returns; [solve [eauto with returns] | | ]
            | apply succeeds_bind; [| intros ?] ]
  | |- succeeds (ret _) => apply succeeds_ret
  | |- succeeds (gets _) => apply succeeds_gets
  | |- succeeds (modify _) => apply succeeds_modify
  | |- succeeds (call _ _) => apply succeeds_call; exact framework_is_reliable
  | |- succeeds (for_each _ _ _) => apply succeeds_for_each; intros ? ? ?
  | |- succeeds (torch_no_grad _) => apply succeeds_no_grad
  | |- succeeds (py_div _ _) => apply succeeds_py_div
  | |- succeeds (py_mod _ _) => apply succeeds_py_mod
  | |- succeeds (raise _) => fail
  | |- succeeds (match b_names _ with _ => _ end) => fail
  | |- succeeds (if ?b then _ else _) => destruct b eqn:?
  | |- succeeds (let _ := _ in _) => cbv zeta
  | |- succeeds ?m => let h := head_of m in unfold h
  end.

#[local] Ltac succ_steps := repeat succ_step.

Lemma train_setup_succeeds : succeeds (train_setup env).
Proof. succ_steps. Qed.

Lemma test_setup_succeeds : succeeds (test_setup env).
Proof. succ_steps. Qed.

Lemma train_epoch_succeeds loader : succeeds (train_epoch env loader).
Proof. succ_steps. Qed.

Lemma of_nat_length_nonzero {A} (l : list A) : l <> [] -> Z.of_nat (length l) <> 0.
Proof. destruct l; [contradiction | simpl; lia]. Qed.

Lemma validate_succeeds opt loader size epoch best :
  size <> 0 -> succeeds (validate env opt loader size epoch best).
Proof. intros Hne. succ_steps; assumption. Qed.

Lemma test_step_succeeds opt s acc : succeeds (test_step env opt (collate1 s) acc).
Proof. unfold test_step. cbn [b_names b_inp b_tar collate1]. succ_steps. Qed.

Lemma test_metrics_succeeds opt ds :
  ds <> [] -> succeeds (test_metrics env opt (map collate1 ds)).
Proof.
  intros Hne. unfold test_metrics. cbv zeta.
  eapply succeeds_bind_returns; [apply tqdm_returns | succ_steps |].
  apply succeeds_bind.
  - unfold for_batches. apply succeeds_for_each.
    intros data acc (s & <- & _)%in_map_iff.
    apply succeeds_bind; [succ_steps | intros _; apply test_step_succeeds].
  - intros sums. unfold average.
    assert (Z.of_nat (length (map collate1 ds)) <> 0).
    { apply of_nat_length_nonzero. destruct ds; [contradiction | discriminate]. }
    succ_steps; assumption.
Qed.

Lemma test_report_succeeds opt m : succeeds (test_report env opt m).
Proof. succ_steps. Qed.

Lemma test_succeeds : test_val_dataset env <> [] -> succeeds (test env).
Proof.
  intros Hne. unfold test.
  eapply succeeds_bind_returns; [apply test_setup_returns | apply test_setup_succeeds |].
  cbn [fst snd]. apply succeeds_bind; [apply test_metrics_succeeds, Hne|].
  intros m. apply test_report_succeeds.
Qed.

Lemma epoch_body_succeeds opt ds loader size epoch best :
  TRAINING_VAL_AFTER_EVERY opt <> 0 ->
  (epoch mod TRAINING_VAL_AFTER_EVERY opt = 0 -> size <> 0) ->
  succeeds (epoch_body env opt ds loader size epoch best).
Proof.
  intros Hv Hne. unfold epoch_body.
  apply succeeds_bind; [apply train_epoch_succeeds|]. intros _.
  eapply succeeds_bind_returns; [apply py_mod_returns | apply succeeds_py_mod, Hv |].
  destruct (Z.eqb_spec (epoch mod TRAINING_VAL_AFTER_EVERY opt) 0) as [Hmod|_];
    [apply validate_succeeds, Hne, Hmod | apply succeeds_ret].
Qed.

Lemma filter_nil_false {A} (f : A -> bool) (l : list A) x :
  List.filter f l = [] -> In x l -> f x = false.
Proof.
  intros Hf Hin. destruct (f x) eqn:Hx; [|reflexivity].
  assert (Hin' : In x (List.filter f l)) by (apply List.filter_In; auto).
  rewrite Hf in Hin'. destruct Hin'.
Qed.

Lemma train_succeeds :
  OPTIM_NUM_EPOCHS (config_yml env) < 1 \/
  (TRAINING_VAL_AFTER_EVERY (config_yml env) <> 0 /\
   (validation_epochs (config_yml env) = [] \/ train_val_dataset env <> [])) ->
  succeeds (train env).
Proof.
  intros Hcase. unfold train.
  eapply succeeds_bind_returns; [apply train_setup_returns | apply train_setup_succeeds |].
  cbn [fst snd]. cbv zeta.
  apply succeeds_bind; [|intros _; succ_steps].
  unfold train_loop. apply succeeds_for_each. intros epoch best Hin.
  destruct Hcase as [Hn|[Hv Hne]]; [apply in_range in Hin; lia|].
  apply epoch_body_succeeds; [exact Hv|]. intros Hmod.
  destruct Hne as [Hnone|Hne].
  - apply (filter_nil_false _ _ epoch Hnone) in Hin. rewrite Hmod in Hin. discriminate.
  - apply of_nat_length_nonzero. destruct (train_val_dataset env); [contradiction | discriminate].
Qed.

End Completes.


(** ** The epochs of a completed run *)

Lemma train_epoch_calls_model_train grad loader wts :
  List.filter is_model_train (train_epoch_calls env grad loader wts) = [EModelTrain].
Proof.
  unfold train_epoch_calls. rewrite !List.filter_app. simpl.
  assert (H : List.filter is_model_train
                (concat (zip_with
                   (fun data wt =>
                      ENext :: train_step_calls env true grad data
                                 (fst (fw_forward env true wt (b_inp data))))
                   loader wts)) = []).
  { revert wts. induction loader as [|data rest IH]; intros [|wt wts]; simpl; auto. }
  rewrite H. reflexivity.
Qed.

Lemma eval_calls_do_not_train evs :
  Forall eval_call evs ->
  List.filter is_scheduler_step evs = [] /\ List.filter is_model_train evs = [].
Proof.
  intros H. split; apply filter_none; (eapply List.Forall_impl; [|exact H]);
    intros [] Hev; try reflexivity; destruct Hev.
Qed.

Lemma epoch_body_Ok opt ds loader size epoch best best' w w' :
  epoch_body env opt ds loader size epoch best w = (Ok best', w') ->
  TRAINING_VAL_AFTER_EVERY opt <> 0 /\
  (epoch mod TRAINING_VAL_AFTER_EVERY opt = 0 -> size <> 0) /\
  exists evs, trace w' = trace w ++ evs /\
    List.filter is_scheduler_step evs = [ESchedulerStep] /\
    List.filter is_model_train evs = [EModelTrain] /\
    map fst (psnr_history evs) =
      (if epoch mod TRAINING_VAL_AFTER_EVERY opt =? 0 then [epoch] else []).
Proof.
  intros H. unfold epoch_body in H.
  apply bind_Ok in H as (u & w1 & He & H).
  destruct (only_calls_run _ _ _ _ _ (quiet_train_epoch env _) He) as (evs1 & Ht1 & HE1).
  apply quiet_history in HE1 as [Hl1 _].
  apply train_epoch_run in He as (wts & evs1' & _ & Ht1' & ->).
  rewrite Ht1 in Ht1'. apply app_inv_head in Ht1'. subst evs1.
  apply bind_Ok in H as (r & w2 & Hr & H). apply py_mod_Ok in Hr as (Hv & -> & ->).
  split; [exact Hv|].
  destruct (Z.eqb_spec (epoch mod TRAINING_VAL_AFTER_EVERY opt) 0) as [Hmod|Hmod].
  - split.
    { intros _. unfold validate in H. apply bind_Ok in H as (m & w3 & Hm & _).
      apply val_metrics_Ok in Hm as (Hsz & _). exact Hsz. }
    destruct (validate_eval_calls env opt loader size epoch best w1) as (evs2 & Ht2 & HE2).
    rewrite H in Ht2. simpl in Ht2.
    apply validate_history in H as (evs2' & p & Ht2' & Hl2 & _).
    rewrite Ht2 in Ht2'. apply app_inv_head in Ht2'. subst evs2'.
    apply eval_calls_do_not_train in HE2 as [Hs2 Hm2].
    pose proof (train_epoch_calls_scheduler env (grad_enabled w)
                  (fw_train_batches env ds (OPTIM_BATCH_SIZE opt) epoch) wts) as Hs1.
    pose proof (train_epoch_calls_model_train (grad_enabled w)
                  (fw_train_batches env ds (OPTIM_BATCH_SIZE opt) epoch) wts) as Hm1.
    remember (train_epoch_calls env (grad_enabled w)
                (fw_train_batches env ds (OPTIM_BATCH_SIZE opt) epoch) wts) as evs1.
    exists (evs1 ++ EModelEval :: evs2).
    split; [rewrite Ht2, Ht1, <- app_assoc; reflexivity|].
    rewrite !List.filter_app, Hs1, Hm1. simpl. rewrite Hs2, Hm2.
    do 2 (split; [reflexivity|]).
    unfold psnr_history in *. rewrite flat_map_app, Hl1, Hl2. reflexivity.
  - split; [intros Hz; contradiction|].
    apply ret_Ok in H as [-> ->]. eexists. split; [exact Ht1|].
    rewrite train_epoch_calls_scheduler, train_epoch_calls_model_train, Hl1. auto.
Qed.

Lemma train_loop_Ok opt ds loader size epochs : forall best best' w w',
  train_loop env opt ds loader size epochs best w = (Ok best', w') ->
  (epochs <> [] -> TRAINING_VAL_AFTER_EVERY opt <> 0) /\
  (List.filter (fun epoch => epoch mod TRAINING_VAL_AFTER_EVERY opt =? 0) epochs <> [] ->
   size <> 0) /\
  exists evs, trace w' = trace w ++ evs /\
    length (List.filter is_scheduler_step evs) = length epochs /\
    length (List.filter is_model_train evs) = length epochs /\
    map fst (psnr_history evs) =
      List.filter (fun epoch => epoch mod TRAINING_VAL_AFTER_EVERY opt =? 0) epochs.
Proof.
  unfold train_loop.
  induction epochs as [|epoch epochs IH]; intros best best' w w' H; simpl in H.
  - apply ret_Ok in H as [-> ->]. do 2 (split; [intros Hne; contradiction|]).
    exists []. rewrite app_nil_r. repeat split; reflexivity.
  - apply bind_Ok in H as (b1 & w1 & H1 & H).
    apply epoch_body_Ok in H1 as (Hv & Hsz1 & evs1 & Ht1 & Hs1 & Hm1 & Hl1).
    apply IH in H as (_ & Hsz2 & evs2 & Ht2 & Hs2 & Hm2 & Hl2).
    split; [intros _; exact Hv|]. split.
    { simpl. destruct (Z.eqb_spec (epoch mod TRAINING_VAL_AFTER_EVERY opt) 0) as [Hmod|_];
        [intros _; exact (Hsz1 Hmod) | exact Hsz2]. }
    exists (evs1 ++ evs2). split; [rewrite Ht2, Ht1, <- app_assoc; reflexivity|].
    rewrite !List.filter_app, !length_app, Hs1, Hm1, Hs2, Hm2.
    do 2 (split; [reflexivity|]).
    unfold psnr_history in *. rewrite flat_map_app, map_app, Hl1, Hl2. simpl.
    destruct (_ =? 0); reflexivity.
Qed.

Lemma range_length start stop : length (range start stop) = Z.to_nat (stop - start).
Proof. unfold range. rewrite length_map, length_seq. reflexivity. Qed.

Lemma train_setup_calls_no_epoch :
  only_calls (fun ev => is_scheduler_step ev = false /\ is_model_train ev = false /\
                        is_end_training ev = false /\ logged_psnr ev = [])
    (train_setup env).
Proof. unfold only_calls. keeps_steps; keeps_side. Qed.

Lemma train_loop_does_not_end_training opt ds loader size epochs best :
  only_calls (fun ev => is_end_training ev = false)
    (train_loop env opt ds loader size epochs best).
Proof. unfold only_calls. keeps_steps; keeps_side. Qed.

Lemma train_setup_schedule s w w' :
  train_setup env w = (Ok s, w') ->
  exists evs, trace w' = trace w ++ evs /\
    In (ECosineAnnealingLR (OPTIM_NUM_EPOCHS (config_yml env)) (OPTIM_LR_MIN (config_yml env)))
       evs.
Proof.
  intros H. unfold train_setup in H. unfold Config_yml, get_data, seed_everything, Accelerator,
    accelerator_init_trackers, SmoothL1Loss, AdamW, CosineAnnealingLR,
    LearnedPerceptualImagePatchSimilarity, DataLoader, Model, accelerator_prepare in H.
  unfold_calls H. run_inv.
  - eexists [_; _; _; _; _; _; _; _; _; _; _; _; _; _; _; _; _]. rewrite <- !app_assoc.
    split; [reflexivity|]. unfold config_yml. simpl. auto 20.
  - eexists [_; _; _; _; _; _; _; _; _; _; _; _; _; _; _; _]. rewrite <- !app_assoc.
    split; [reflexivity|]. unfold config_yml. simpl. auto 20.
Qed.

Lemma train_Ok w w' :
  train env w = (Ok tt, w') ->
  let opt := config_yml env in
  (1 <= OPTIM_NUM_EPOCHS opt -> TRAINING_VAL_AFTER_EVERY opt <> 0) /\
  (validation_epochs opt <> [] -> train_val_dataset env <> []) /\
  exists evs, trace w' = trace w ++ evs ++ [EEndTraining] /\
    List.filter is_end_training evs = [] /\
    length (List.filter is_scheduler_step evs) = Z.to_nat (OPTIM_NUM_EPOCHS opt) /\
    length (List.filter is_model_train evs) = Z.to_nat (OPTIM_NUM_EPOCHS opt) /\
    map fst (psnr_history evs) = validation_epochs opt /\
    In (ECosineAnnealingLR (OPTIM_NUM_EPOCHS opt) (OPTIM_LR_MIN opt)) evs.
Proof.
  intros H opt. rewrite train_size_is_validation_set_size in H.
  apply bind_Ok in H as (s & w1 & Hs & H).
  apply bind_Ok in H as (b & w2 & Hl & H).
  unfold accelerator_end_training in H. apply call_Ok in H as [_ ->].
  destruct (only_calls_run _ _ _ _ _ train_setup_calls_no_epoch Hs) as (evs1 & Ht1 & HE1).
  apply train_setup_schedule in Hs as (evs1' & Ht1' & Hin).
  rewrite Ht1 in Ht1'. apply app_inv_head in Ht1'. subst evs1'.
  destruct (only_calls_run _ _ _ _ _ (train_loop_does_not_end_training _ _ _ _ _ _) Hl)
    as (evs2 & Ht2 & HE2).
  apply train_loop_Ok in Hl as (Hv & Hsz & evs2' & Ht2' & Hs2 & Hm2 & Hl2).
  rewrite Ht2 in Ht2'. apply app_inv_head in Ht2'. subst evs2'.
  fold opt in Hv, Hsz, Hs2, Hm2, Hl2 |- *.
  rewrite range_length in Hs2, Hm2.
  replace (OPTIM_NUM_EPOCHS opt + 1 - 1) with (OPTIM_NUM_EPOCHS opt) in Hs2, Hm2 by lia.
  split.
  { intros Hn. apply Hv. intros Hnil. apply (f_equal (@length _)) in Hnil.
    rewrite range_length in Hnil. simpl in Hnil. lia. }
  split.
  { intros Hne Hds. apply (Hsz Hne). rewrite Hds. reflexivity. }
  exists (evs1 ++ evs2). split; [simpl; rewrite Ht2, Ht1, <- !app_assoc; reflexivity|].
  assert (H1s : List.filter is_scheduler_step evs1 = [])
    by (apply filter_none; eapply List.Forall_impl; [|exact HE1]; intros ev (? & ? & ? & ?); assumption).
  assert (H1m : List.filter is_model_train evs1 = [])
    by (apply filter_none; eapply List.Forall_impl; [|exact HE1]; intros ev (? & ? & ? & ?); assumption).
  assert (H1e : List.filter is_end_training evs1 = [])
    by (apply filter_none; eapply List.Forall_impl; [|exact HE1]; intros ev (? & ? & ? & ?); assumption).
  assert (H1l : psnr_history evs1 = []).
  { unfold psnr_history. clear -HE1. induction HE1 as [|ev evs (_ & _ & _ & Hev) _ IH];
      [reflexivity|]. simpl. rewrite Hev. exact IH. }
  rewrite !List.filter_app, H1s, H1m, H1e, (filter_none _ _ HE2).
  split; [reflexivity|]. split; [exact Hs2|]. split; [exact Hm2|].
  split; [|apply in_or_app; left; exact Hin].
  unfold psnr_history in *. rewrite flat_map_app, H1l. exact Hl2.
Qed.


(** ** Where an exception comes from *)

Lemma blames_silent {A} (m : M A) :
  (forall w, trace (snd (m w)) = trace w) ->
  (forall w e, fst (m w) = Raise e -> e = ZeroDivisionError) ->
  blames env m.
Proof.
  intros Ht He w. exists []. rewrite app_nil_r. split; [apply Ht|].
  intros e Hr. left. exact (He w e Hr).
Qed.

Lemma blames_ret {A} (a : A) : blames env (ret a).
Proof. apply blames_silent; [reflexivity | discriminate]. Qed.

Lemma blames_gets {A} (f : World -> A) : blames env (gets f).
Proof. apply blames_silent; [reflexivity | discriminate]. Qed.

Lemma blames_modify (f : World -> World) :
  (forall w, trace (f w) = trace w) -> blames env (modify f).
Proof. intros H. apply blames_silent; [exact H | discriminate]. Qed.

Lemma blames_zero_division {A} : blames env (@raise _ _ _ _ A ZeroDivisionError).
Proof. apply blames_silent; [reflexivity|]. intros w e [= <-]. reflexivity. Qed.

Lemma blames_py_div (x : num) size : blames env (py_div x size).
Proof. unfold py_div. destruct (size =? 0); [apply blames_zero_division | apply blames_ret]. Qed.

Lemma blames_py_mod x y : blames env (py_mod x y).
Proof. unfold py_mod. destruct (y =? 0); [apply blames_zero_division | apply blames_ret]. Qed.

Lemma blames_call ev : blames env (call env ev).
Proof.
  intros w. exists [ev]. unfold call.
  destruct (raises env (trace w) ev) as [e|] eqn:Hr; simpl.
  - split; [reflexivity|]. intros e' [= <-]. right. exists [], ev.
    rewrite app_nil_r. auto.
  - split; [reflexivity | discriminate].
Qed.

Lemma blames_bind {A B} (m : M A) (f : A -> M B) :
  blames env m -> (forall a, blames env (f a)) -> blames env (bind m f).
Proof.
  intros Hm Hf w. destruct (Hm w) as (evs1 & Ht1 & H1).
  unfold bind. destruct (m w) as [[a|e] w1]; simpl in *.
  - destruct (Hf a w1) as (evs2 & Ht2 & H2).
    exists (evs1 ++ evs2). split; [rewrite Ht2, Ht1, app_assoc; reflexivity|].
    intros e Hr. destruct (H2 e Hr) as [->|(pre & ev & -> & Hev)]; [left; reflexivity|].
    right. exists (evs1 ++ pre), ev. split; [rewrite app_assoc; reflexivity|].
    rewrite app_assoc, <- Ht1. exact Hev.
  - exists evs1. split; [exact Ht1|]. intros e' [= <-]. apply H1. reflexivity.
Qed.

Lemma blames_bind_returns {A B} (m : M A) (f : A -> M B) v :
  returns m v -> blames env m -> blames env (f v) -> blames env (bind m f).
Proof.
  intros Hv Hm Hf w. destruct (Hm w) as (evs1 & Ht1 & H1).
  unfold bind. destruct (m w) as [[a|e] w1] eqn:Hrun; simpl in *.
  - rewrite (Hv _ _ _ Hrun). destruct (Hf w1) as (evs2 & Ht2 & H2).
    exists (evs1 ++ evs2). split; [rewrite Ht2, Ht1, app_assoc; reflexivity|].
    intros e Hr. destruct (H2 e Hr) as [->|(pre & ev & -> & Hev)]; [left; reflexivity|].
    right. exists (evs1 ++ pre), ev. split; [rewrite app_assoc; reflexivity|].
    rewrite app_assoc, <- Ht1. exact Hev.
  - exists evs1. split; [exact Ht1|]. intros e' [= <-]. apply H1. reflexivity.
Qed.

Lemma blames_for_each {A S} (body : A -> S -> M S) xs :
  (forall x s, In x xs -> blames env (body x s)) -> forall s, blames env (for_each xs body s).
Proof.
  induction xs as [|x xs IH]; intros Hb s; simpl.
  - apply blames_ret.
  - apply blames_bind.
    + apply Hb. left. reflexivity.
    + intros s'. apply IH. intros y s'' Hy. apply Hb. right. exact Hy.
Qed.

Lemma blames_no_grad {A} (body : M A) : blames env body -> blames env (torch_no_grad body).
Proof.
  intros Hb w. destruct (Hb (set_grad_enabled false w)) as (evs & Ht & H).
  unfold torch_no_grad. destruct (body (set_grad_enabled false w)) as [r w1].
  exists evs. split; [exact Ht | exact H].
Qed.

(** One structural step of a [blames] derivation. *)
#[local] Ltac blame_step :=
  lazymatch goal with
  | |- blames _ (bind _ _) =>
      first [ eapply blames_bind_returns; [solve [eauto with returns] | | ]
            | apply blames_bind; [| intros ?] ]
  | |- blames _ (ret _) => apply blames_ret
  | |- blames _ (raise ZeroDivisionError) => apply blames_zero_division
  | |- blames _ (raise _) => fail
  | |- blames _ (gets _) => apply blames_gets
  | |- blames _ (modify _) =>
      apply blames_modify; intros ?; simpl;
      repeat match goal with |- context [if ?b then _ else _] => destruct b end;
      reflexivity
  | |- blames _ (call _ _) => apply blames_call
  | |- blames _ (py_div _ _) => apply blames_py_div
  | |- blames _ (py_mod _ _) => apply blames_py_mod
  | |- blames _ (for_each (map collate1 _) _ _) =>
      apply blames_for_each; intros ? ? (? & <- & _)%in_map_iff
  | |- blames _ (for_each _ _ _) => apply blames_for_each; intros ? ? _
  | |- blames _ (torch_no_grad _) => apply blames_no_grad
  | |- blames _ (match b_names (collate1 _) with _ => _ end) => cbn [b_names collate1]
  | |- blames _ (match b_names _ with _ => _ end) => fail
  | |- blames _ (if ?b then _ else _) => destruct b
  | |- blames _ (let _ := _ in _) => cbv zeta
  | |- blames _ ?m => let h := head_of m in unfold h
  end.

#[local] Ltac blame_steps := repeat blame_step.

Lemma train_blames : blames env (train env).
Proof. blame_steps. Qed.

Lemma test_blames : blames env (test env).
Proof.
  unfold test.
  eapply blames_bind_returns; [apply test_setup_returns | blame_steps |].
  cbn [fst snd]. blame_steps.
Qed.

Lemma blames_reliable {A} (m : M A) w e :
  never_raises env -> blames env m -> fst (m w) = Raise e -> e = ZeroDivisionError.
Proof.
  intros Hnr Hm Hr. destruct (Hm w) as (evs & _ & H).
  destruct (H e Hr) as [->|(pre & ev & _ & Hev)]; [reflexivity|].
  rewrite Hnr in Hev. discriminate.
Qed.


(** ** Validating every zero epochs *)



Lemma train_setup_keeps_grad g :
  keeps (fun w => grad_enabled w = g) (fun _ => True) (train_setup env).
Proof. keeps_steps; frame_side. Qed.


(** ** The entry point of test.py *)

Lemma dirs_kept_test_report d opt m :
  keeps (fun w => dirs w = d) (fun _ => True) (test_report env opt m).
Proof. keeps_steps; frame_side. Qed.

Lemma keeps_run {A} J (m : M A) w r w' :
  keeps J (fun _ => True) m -> J w -> m w = (r, w') -> J w'.
Proof.
  intros Hm HJ Hrun. destruct (Hm w HJ) as (_ & _ & _ & H). rewrite Hrun in H. exact H.
Qed.

Lemma test_Ok_dirs w w' :
  test env w = (Ok tt, w') ->
  let result_dir := TESTING_RESULT_DIR (config_yml env) in
  result_dir ∈ dirs w' /\
  exists evs, trace w' = trace w ++ evs /\
    List.filter is_makedirs evs =
      (if bool_decide (result_dir ∈ dirs w) then [] else [EMakedirs result_dir false]).
Proof.
  intros H result_dir.
  destruct (dirs_within_test w w (dirs_within_refl _ w)) as (_ & _ & _ & Hsub & _).
  rewrite H in Hsub. simpl in Hsub.
  unfold test in H.
  apply bind_Ok in H as (s & w1 & Hs & H).
  apply bind_Ok in H as (m & w2 & Hm & H).
  destruct (only_calls_run _ _ _ _ _ (no_image_test_setup env) Hs) as (evs1 & Ht1 & HE1).
  apply test_setup_Ok in Hs as (-> & _ & _ & Hd). cbn [fst snd] in Hm, H.
  apply test_metrics_Ok in Hm as (_ & _ & Hin & evs2 & Ht2 & _ & Hmk).
  rewrite Hd in Hmk.
  pose proof (keeps_run _ _ _ _ _ (dirs_kept_test_report (dirs w2) _ _) eq_refl H) as Hd3.
  apply test_report_Ok in H as (evs3 & Ht3 & _ & _ & Hmk3).
  split; [rewrite Hd3; exact Hin|].
  exists (evs1 ++ evs2 ++ evs3).
  split; [rewrite Ht3, Ht2, Ht1, <- !app_assoc; reflexivity|].
  rewrite !List.filter_app, Hmk, Hmk3, app_nil_r.
  rewrite filter_none; [reflexivity|].
  eapply List.Forall_impl; [|exact HE1]. intros ev [_ Hev]. exact Hev.
Qed.

Lemma test_main_Ok w w' :
  test_main env w = (Ok tt, w') ->
  let result_dir := TESTING_RESULT_DIR (config_yml env) in
  "result" ∈ dirs w' /\ result_dir ∈ dirs w' /\
  exists evs, trace w' = trace w ++ EMakedirs "result" true :: evs /\
    List.filter is_makedirs evs =
      (if bool_decide (result_dir ∈ ({["result"]} ∪ dirs w : gset string)) then []
       else [EMakedirs result_dir false]).
Proof.
  intros H result_dir. unfold test_main, os_makedirs in H.
  apply bind_Ok in H as (u & w1 & Hmk & H).
  apply bind_Ok in Hmk as (u' & w0 & Hc & Hmk).
  apply call_Ok in Hc as [_ ->]. apply modify_Ok in Hmk. subst w1.
  match type of H with test env ?w1 = _ =>
    destruct (dirs_within_test w1 w1 (dirs_within_refl _ w1)) as (_ & _ & _ & Hsub & _) end.
  rewrite H in Hsub. cbn [snd dirs set_dirs log_event] in Hsub.
  apply test_Ok_dirs in H as (Hin & evs & Ht & Hf). cbn [dirs set_dirs log_event trace] in *.
  split; [apply (proj1 (elem_of_subseteq _ _) Hsub), elem_of_union_l, elem_of_singleton; reflexivity|].
  split; [exact Hin|].
  exists evs. split; [rewrite Ht, <- app_assoc; reflexivity | exact Hf].
Qed.


(** ** Gradient mode *)

Lemma keeps_grad_no_grad {A} g (body : M A) :
  only_calls (fun _ => True) body ->
  keeps (fun w => grad_enabled w = g) (fun _ => True) (torch_no_grad body).
Proof.
  intros Hb w Hg. unfold torch_no_grad.
  destruct (Hb (set_grad_enabled false w) I) as (evs & Ht & HE & _).
  destruct (body (set_grad_enabled false w)) as [r w1]; simpl in *.
  exists evs. auto.
Qed.

Lemma only_calls_model_call inp : only_calls (fun _ => True) (model_call env inp).
Proof. unfold only_calls. keeps_steps; frame_side. Qed.

#[local] Ltac grad_steps :=
  repeat first [ apply keeps_grad_no_grad, only_calls_model_call | keeps_step ].

Lemma grad_kept_train_epoch g loader :
  keeps (fun w => grad_enabled w = g) (fun _ => True) (train_epoch env loader).
Proof. keeps_steps; frame_side. Qed.

Lemma grad_kept_validate g opt loader size epoch best :
  keeps (fun w => grad_enabled w = g) (fun _ => True)
    (validate env opt loader size epoch best).
Proof. grad_steps; frame_side. Qed.

Lemma grad_kept_test g : keeps (fun w => grad_enabled w = g) (fun _ => True) (test env).
Proof. grad_steps; frame_side. Qed.

Lemma keeps_both {A} J E (m : M A) :
  keeps J (fun _ => True) m ->
  (forall w, J w -> exists evs, trace (snd (m w)) = trace w ++ evs /\ Forall E evs) ->
  keeps J E m.
Proof.
  intros HJ HE w Hw. destruct (HJ w Hw) as (evs & Ht & _ & Hpost).
  destruct (HE w Hw) as (evs' & Ht' & Hevs).
  exists evs'. auto.
Qed.

Lemma Forall_prefix {A} (P : A -> Prop) (l1 l2 : list A) :
  Forall P (l1 ++ l2) -> Forall P l1.
Proof. intros H. apply Forall_app in H. tauto. Qed.

Lemma train_epoch_calls_forward g loader wts :
  Forall (train_forward g) (train_epoch_calls env g loader wts).
Proof.
  unfold train_epoch_calls.
  apply Forall_app_2; [repeat constructor|]. apply Forall_app_2; [|repeat constructor].
  revert wts. induction loader as [|data rest IH]; intros [|wt wts]; simpl;
    [constructor | constructor | constructor |].
  repeat (constructor; [simpl; auto|]). apply IH.
Qed.

Lemma train_forward_train_epoch g loader :
  keeps (fun w => grad_enabled w = g) (train_forward g) (train_epoch env loader).
Proof.
  apply keeps_both; [apply grad_kept_train_epoch|]. intros w <-.
  destruct (train_epoch env loader w) as [r w'] eqn:H.
  apply train_epoch_run in H as (wts & evs & _ & Ht & Hev).
  exists evs. split; [exact Ht|]. destruct r.
  - subst evs. apply train_epoch_calls_forward.
  - destruct Hev as [rest Hrest]. apply (Forall_prefix _ evs rest).
    rewrite <- Hrest. apply train_epoch_calls_forward.
Qed.

Lemma train_forward_validate g opt loader size epoch best :
  keeps (fun w => grad_enabled w = g) (train_forward g)
    (validate env opt loader size epoch best).
Proof.
  apply keeps_both; [apply grad_kept_validate|]. intros w _.
  destruct (validate_eval_calls env opt loader size epoch best w) as (evs & Ht & HE).
  exists (EModelEval :: evs). split; [exact Ht|]. constructor; [exact I|].
  eapply List.Forall_impl; [|exact HE]. intros [] Hev; try exact I.
  right. exact Hev.
Qed.

Lemma train_forward_train g :
  keeps (fun w => grad_enabled w = g) (train_forward g) (train env).
Proof.
  unfold train.
  apply keeps_bind; [keeps_steps; frame_side|]. intros s. cbv zeta.
  apply keeps_bind; [|intros _; keeps_steps; frame_side].
  unfold train_loop. apply keeps_for_each. intros epoch best _.
  unfold epoch_body. apply keeps_bind; [apply train_forward_train_epoch|]. intros _.
  apply keeps_bind; [keeps_steps; frame_side|]. intros r.
  destruct (r =? 0); [apply train_forward_validate | apply keeps_ret].
Qed.

(** ** The last checkpoint *)

Lemma last_cons_default {A} (x d : A) (l : list A) : List.last (x :: l) d = List.last l x.
Proof.
  revert x d. induction l as [|y l IH]; intros x d; [reflexivity|].
  change (List.last (y :: l) d = List.last (y :: l) x). rewrite !IH. reflexivity.
Qed.

Lemma last_new_best hist : forall b : Best num,
  List.last (new_bests hist (best_psnr b)) (best_epoch b) = best_epoch (best_after hist b).
Proof.
  induction hist as [|[e p] hist IH]; intros b; [reflexivity|].
  rewrite best_after_cons. simpl. destruct (ngt p (best_psnr b)).
  - rewrite last_cons_default. apply (IH {| best_epoch := e; best_psnr := p |}).
  - apply IH.
Qed.


Lemma range_In x a b : a <= x < b -> In x (range a b).
Proof.
  intros H. unfold range. apply in_map_iff. exists (Z.to_nat (x - a)).
  split; [lia|]. apply in_seq. lia.
Qed.

(** ** Steps that make a fixed list of calls *)

Lemma scripted_silent {A} (a : A) (m : M A) :
  (forall w, m w = (Ok a, w) \/ exists w', m w = (Ok a, w') /\ trace w' = trace w) ->
  scripted [] m.
Proof.
  intros H w. exists []. rewrite app_nil_r.
  destruct (H w) as [-> | (w' & -> & Ht)]; simpl; auto.
Qed.

Lemma scripted_ret {A} (a : A) : scripted [] (ret a : M A).
Proof. apply (scripted_silent a). intros w. left. reflexivity. Qed.

Lemma scripted_modify (f : World -> World) :
  (forall w, trace (f w) = trace w) -> scripted [] (modify f).
Proof. intros H. apply (scripted_silent tt). intros w. right. exists (f w). auto. Qed.

Lemma scripted_call ev : scripted [ev] (call env ev).
Proof.
  intros w. exists [ev]. unfold call. destruct (raises env (trace w) ev); simpl.
  - split; [reflexivity|]. exists []. reflexivity.
  - auto.
Qed.

Lemma scripted_bind {A B} c1 c2 (m : M A) (f : A -> M B) :
  scripted c1 m -> (forall a, scripted c2 (f a)) -> scripted (c1 ++ c2) (bind m f).
Proof.
  intros Hm Hf w. destruct (Hm w) as (evs1 & Ht1 & H1).
  unfold bind. destruct (m w) as [[a|e] w1]; simpl in *.
  - subst evs1. destruct (Hf a w1) as (evs2 & Ht2 & H2).
    exists (c1 ++ evs2). split; [rewrite Ht2, Ht1, app_assoc; reflexivity|].
    destruct (fst (f a w1)).
    + subst evs2. reflexivity.
    + destruct H2 as [rest ->]. exists rest. rewrite app_assoc. reflexivity.
  - exists evs1. split; [exact Ht1|]. destruct H1 as [rest ->].
    exists (rest ++ c2). rewrite app_assoc. reflexivity.
Qed.

Lemma scripted_bind_returns {A B} c1 c2 (m : M A) (f : A -> M B) v :
  returns m v -> scripted c1 m -> scripted c2 (f v) -> scripted (c1 ++ c2) (bind m f).
Proof.
  intros Hv Hm Hf w. destruct (Hm w) as (evs1 & Ht1 & H1).
  unfold bind. destruct (m w) as [[a|e] w1] eqn:Hrun; simpl in *.
  - subst evs1. rewrite (Hv _ _ _ Hrun). destruct (Hf w1) as (evs2 & Ht2 & H2).
    exists (c1 ++ evs2). split; [rewrite Ht2, Ht1, app_assoc; reflexivity|].
    destruct (fst (f v w1)).
    + subst evs2. reflexivity.
    + destruct H2 as [rest ->]. exists rest. rewrite app_assoc. reflexivity.
  - exists evs1. split; [exact Ht1|]. destruct H1 as [rest ->].
    exists (rest ++ c2). rewrite app_assoc. reflexivity.
Qed.

Lemma scripted_if {A} (b : bool) c1 c2 (m1 m2 : M A) :
  scripted c1 m1 -> scripted c2 m2 ->
  scripted (if b then c1 else c2) (if b then m1 else m2).
Proof. destruct b; auto. Qed.

Lemma scripted_eq {A} c c' (m : M A) : scripted c' m -> c' = c -> scripted c m.
Proof. intros H <-. exact H. Qed.

(** One structural step of a [scripted] derivation. *)
#[local] Ltac script_step :=
  lazymatch goal with
  | |- scripted _ (bind _ _) =>
      first [ eapply scripted_bind_returns; [solve [eauto with returns] | | ]
            | eapply scripted_bind; [| intros ?] ]
  | |- scripted _ (ret _) => apply scripted_ret
  | |- scripted _ (modify _) => apply scripted_modify; intros ?; reflexivity
  | |- scripted _ (call _ _) => apply scripted_call
  | |- scripted _ (if _ then _ else _) => apply scripted_if
  | |- scripted _ (let _ := _ in _) => cbv zeta
  | |- scripted _ ?m => let h := head_of m in unfold h
  end.

Lemma train_setup_scripted : scripted (train_setup_calls env) (train_setup env).
Proof. eapply scripted_eq; [repeat script_step | reflexivity]. Qed.

Lemma test_setup_scripted : scripted (test_setup_calls env) (test_setup env).
Proof. eapply scripted_eq; [repeat script_step | reflexivity]. Qed.

(** ** The properties *)

(** X1. A run of [train] that completes has trained for exactly
    [opt.OPTIM.NUM_EPOCHS] epochs - none when that number is zero or
    negative: it called [model.train()] and stepped the scheduler that many
    times each, the scheduler having been built with [T_max] that same
    number, and [accelerator.end_training()] is its last call and is made
    only once. *)
Theorem completed_train_runs_every_epoch_once w w' :
  train env w = (Ok tt, w') ->
  let opt := config_yml env in
  exists evs,
    trace w' = trace w ++ evs ++ [EEndTraining] /\
    List.filter is_end_training evs = [] /\
    length (List.filter is_model_train evs) = Z.to_nat (OPTIM_NUM_EPOCHS opt) /\
    length (List.filter is_scheduler_step evs) = Z.to_nat (OPTIM_NUM_EPOCHS opt) /\
    In (ECosineAnnealingLR (OPTIM_NUM_EPOCHS opt) (OPTIM_LR_MIN opt)) evs.
Proof.
  intros H opt. apply train_Ok in H as (_ & _ & evs & Ht & He & Hs & Hm & _ & Hin).
  exists evs. auto.
Qed.

(** X2. In a run of [train] that completes, the epochs whose metrics were
    logged to the tracker are, in order, the epochs from [1] to
    [opt.OPTIM.NUM_EPOCHS] that [opt.TRAINING.VAL_AFTER_EVERY] divides: a
    validation pass runs at those epochs and at no other. *)
Theorem validation_runs_at_multiples_of_val_after_every :
  (forall w w',
     train env w = (Ok tt, w') ->
     exists evs,
       trace w' = trace w ++ evs ++ [EEndTraining] /\
       map fst (psnr_history evs) = validation_epochs (config_yml env)) /\
  (forall (opt : Config num) epoch,
     In epoch (validation_epochs opt) <->
     1 <= epoch <= OPTIM_NUM_EPOCHS opt /\
     epoch mod TRAINING_VAL_AFTER_EVERY opt = 0).
Proof.
  split.
  - intros w w' H. apply train_Ok in H as (_ & _ & evs & Ht & _ & _ & _ & Hl & _).
    exists evs. auto.
  - intros opt epoch. unfold validation_epochs. rewrite List.filter_In, Z.eqb_eq. split.
    + intros [Hin%in_range Hmod]. split; [lia | exact Hmod].
    + intros [Hin Hmod]. split; [apply range_In; lia | exact Hmod].
Qed.


(** X4. On a framework that never raises, [test] completes exactly when
    its evaluation set is not empty, and [train] completes exactly when
    there is no epoch to run, or [opt.TRAINING.VAL_AFTER_EVERY] is not zero
    and the validation set is not empty or no epoch is a validation
    epoch. *)
Theorem scripts_complete_unless_they_divide_by_zero :
  never_raises env ->
  (forall w, (exists w', test env w = (Ok tt, w')) <-> test_val_dataset env <> []) /\
  (forall w,
     (exists w', train env w = (Ok tt, w')) <->
     (OPTIM_NUM_EPOCHS (config_yml env) < 1 \/
      (TRAINING_VAL_AFTER_EVERY (config_yml env) <> 0 /\
       (validation_epochs (config_yml env) = [] \/ train_val_dataset env <> [])))).
Proof.
  intros Hnr. split; intros w; split.
  - intros [w' H]. exact (test_needs_samples env _ _ H).
  - intros Hne. destruct (test_succeeds Hnr Hne w) as ([] & w' & H). eauto.
  - intros [w' H]. apply train_Ok in H as (Hv & Hds & _).
    destruct (Z.lt_ge_cases (OPTIM_NUM_EPOCHS (config_yml env)) 1) as [Hn|Hn]; [left; exact Hn|].
    right. split; [apply Hv, Hn|].
    destruct (validation_epochs (config_yml env)) as [|e l]; [left; reflexivity|].
    right. apply Hds. discriminate.
  - intros Hcase. destruct (train_succeeds Hnr Hcase w) as ([] & w' & H). eauto.
Qed.

(** X5. When [train] or [test] ends in an exception, either the last call
    it made raised that exception, or the exception is a
    [ZeroDivisionError]: the scripts raise nothing else themselves (the
    index [test_data[2][0]] is never out of range, as the loader yields one
    file name per batch).  On a framework that never raises,
    [ZeroDivisionError] is thus the only way for them not to complete. *)
Theorem scripts_raise_only_zero_division_themselves :
  blames env (train env) /\
  blames env (test env) /\
  (never_raises env ->
   forall w e,
     (fst (train env w) = Raise e -> e = ZeroDivisionError) /\
     (fst (test env w) = Raise e -> e = ZeroDivisionError)).
Proof.
  split; [exact train_blames|]. split; [exact test_blames|].
  intros Hnr w e. split; intros H.
  - exact (blames_reliable _ _ _ Hnr train_blames H).
  - exact (blames_reliable _ _ _ Hnr test_blames H).
Qed.

(** X10. test.py run as a script first creates the directory [result],
    whatever [opt.TESTING.RESULT_DIR] is, and then runs [test].  When the
    run completes, both directories exist; [test] itself has called
    [os.makedirs] at most once, for [RESULT_DIR], and not at all when
    [RESULT_DIR] is [result]: the check inside the loop then never creates
    anything. *)
Theorem test_script_creates_result_first w w' :
  test_main env w = (Ok tt, w') ->
  let result_dir := TESTING_RESULT_DIR (config_yml env) in
  "result" ∈ dirs w' /\
  result_dir ∈ dirs w' /\
  exists evs,
    trace w' = trace w ++ EMakedirs "result" true :: evs /\
    (List.filter is_makedirs evs = [] \/
     List.filter is_makedirs evs = [EMakedirs result_dir false]) /\
    (result_dir = "result" -> List.filter is_makedirs evs = []).
Proof.
  intros H result_dir. apply test_main_Ok in H as (Hr & Hin & evs & Ht & Hf).
  fold result_dir in Hf.
  split; [exact Hr|]. split; [exact Hin|]. exists evs. split; [exact Ht|]. split.
  - rewrite Hf. destruct (bool_decide _); [left | right]; reflexivity.
  - intros Heq. rewrite Hf, Heq.
    rewrite bool_decide_eq_true_2; [reflexivity|].
    apply elem_of_union_l, elem_of_singleton. reflexivity.
Qed.

(** X11. In every run of [train], complete or not, each forward pass is
    either in train mode with gradients as the script found them, or in
    eval mode with gradients disabled, and the gradient mode at the end is
    the one at the start: [torch.no_grad()] never leaks out of a validation
    pass.  [test] too leaves the gradient mode as it found it. *)
Theorem no_grad_does_not_leak :
  (forall w,
     exists evs,
       trace (snd (train env w)) = trace w ++ evs /\
       Forall (train_forward (grad_enabled w)) evs /\
       grad_enabled (snd (train env w)) = grad_enabled w) /\
  (forall w, grad_enabled (snd (test env w)) = grad_enabled w).
Proof.
  split; intros w.
  - exact (train_forward_train (grad_enabled w) w eq_refl).
  - destruct (grad_kept_test (grad_enabled w) w eq_refl) as (_ & _ & _ & H). exact H.
Qed.

(** X12. When the epoch loop completes, [best_epoch] is the epoch of the
    last checkpoint it saved, or still its starting value when it saved
    none. *)
Theorem best_epoch_is_the_last_checkpoint opt ds loader size epochs best w best' w' :
  train_loop env opt ds loader size epochs best w = (Ok best', w') ->
  exists evs,
    trace w' = trace w ++ evs /\
    best_epoch best' = List.last (saved_epochs evs) (best_epoch best).
Proof.
  intros H. apply train_loop_history in H as (evs & Ht & -> & Hs).
  exists evs. split; [exact Ht|]. rewrite Hs. symmetry. apply last_new_best.
Qed.

(** X13. The setup of each script makes its calls in one fixed order, with
    arguments taken from the configuration only: the seed is set right after
    the configuration is read, before the data sets and the model are
    built; [train] loads its training set with [shuffle=True] and the
    configured batch size, and both scripts load their evaluation set in
    mode ['test'] with [batch_size=1] and [shuffle=False]; [test] takes the
    [ORI] flag and the patch size from the TRAINING section, loads the
    checkpoint [opt.TESTING.WEIGHT] and ends its setup with [model.eval()].
    A setup that raises has made the first calls of that sequence. *)
Theorem setup_calls_in_fixed_order :
  scripted (train_setup_calls env) (train_setup env) /\
  scripted (test_setup_calls env) (test_setup env).
Proof. split; [exact train_setup_scripted | exact test_setup_scripted]. Qed.

End Further.

(** * Whole runs of [train] and [test] *)

Section Whole.

Context {tensor weights optim num : Type} {NumOps : Number num}.
Variable env : Framework tensor weights optim num.

#[local] Abbreviation World := (World tensor weights optim num).
#[local] Abbreviation Event := (Event tensor weights num).
#[local] Abbreviation M := (@M tensor weights optim num).

Implicit Types (w : World) (ev : Event) (evs : list Event).
Implicit Types (J : World -> Prop) (E : Event -> Prop).

#[local] Ltac script_step :=
  lazymatch goal with
  | |- scripted _ (bind _ _) =>
      first [ eapply scripted_bind_returns; [solve [eauto with returns] | | ]
            | eapply scripted_bind; [| intros ?] ]
  | |- scripted _ (ret _) => apply scripted_ret
  | |- scripted _ (modify _) => apply scripted_modify; intros ?; reflexivity
  | |- scripted _ (call _ _) => apply scripted_call
  | |- scripted _ (if _ then _ else _) => apply scripted_if
  | |- scripted _ (let _ := _ in _) => cbv zeta
  | |- scripted _ ?m => let h := head_of m in unfold h
  end.

(** ** What a run logs *)

Lemma no_log_train_setup : only_calls no_log (train_setup env).
Proof. unfold only_calls. keeps_steps; keeps_side. Qed.

Lemma no_log_train_epoch loader : only_calls no_log (train_epoch env loader).
Proof. unfold only_calls. keeps_steps; keeps_side. Qed.

Lemma no_log_val_metrics loader size : only_calls no_log (val_metrics env loader size).
Proof. unfold only_calls. keeps_steps; keeps_side. Qed.

Lemma no_log_val_checkpoint opt epoch m best :
  only_calls no_log (val_checkpoint env opt epoch m best).
Proof. unfold only_calls. keeps_steps; keeps_side. Qed.



Lemma filter_all {A} (f : A -> bool) (l : list A) :
  Forall (fun x => f x = true) l -> List.filter f l = l.
Proof.
  induction 1 as [|x l Hx _ IH]; simpl; [reflexivity|]. rewrite Hx, IH. reflexivity.
Qed.

Lemma val_log_scripted opt epoch m best :
  scripted (val_log_calls env opt epoch m best) (val_log env opt epoch m best).
Proof.
  eapply scripted_eq; [repeat script_step|].
  unfold val_log_calls, train_log_path. destruct (is_local_main_process env); reflexivity.
Qed.


Lemma val_log_calls_log opt epoch m best :
  Forall (fun ev => is_log_call ev = true) (val_log_calls env opt epoch m best).
Proof. unfold val_log_calls. destruct (is_local_main_process env); repeat constructor. Qed.


(** A step that makes the log calls [calls], and no other log call. *)
Lemma scripted_logs {A} calls (m : M A) w r w' :
  scripted calls m -> Forall (fun ev => is_log_call ev = true) calls ->
  m w = (r, w') ->
  exists evs, trace w' = trace w ++ evs /\
    match r with
    | Ok _ => List.filter is_log_call evs = calls
    | Raise _ => exists rest, calls = List.filter is_log_call evs ++ rest
    end.
Proof.
  intros Hm Hall Hrun. destruct (Hm w) as (evs & Ht & H). rewrite Hrun in Ht, H. simpl in *.
  exists evs. split; [exact Ht|]. destruct r.
  - subst evs. apply filter_all, Hall.
  - destruct H as [rest ->]. exists rest. apply Forall_app in Hall as [Hall _].
    rewrite (filter_all _ _ Hall). reflexivity.
Qed.

Lemma no_log_run {A} (m : M A) w r w' :
  only_calls no_log m -> m w = (r, w') ->
  exists evs, trace w' = trace w ++ evs /\ List.filter is_log_call evs = [].
Proof.
  intros Hm Hrun. destruct (only_calls_run _ _ _ _ _ Hm Hrun) as (evs & Ht & HE).
  exists evs. split; [exact Ht | apply filter_none, HE].
Qed.

Lemma validate_logs opt loader size epoch best w r w' :
  validate env opt loader size epoch best w = (r, w') ->
  let m := pass_metrics env loader size (model_weights w) in
  let b := update_best best (epoch, m_psnr m) in
  exists evs, trace w' = trace w ++ evs /\
    match r with
    | Ok best' => List.filter is_log_call evs = val_log_calls env opt epoch m b /\ best' = b
    | Raise _ => exists rest, val_log_calls env opt epoch m b = List.filter is_log_call evs ++ rest
    end.
Proof.
  intros H m b. unfold validate in H.
  apply bind_run in H as [(m' & w1 & Hm & H)|(e & Hm & ->)].
  2:{ apply (no_log_run _ _ _ _ (no_log_val_metrics _ _)) in Hm as (evs & Ht & Hf).
      exists evs. split; [exact Ht|]. rewrite Hf. eexists. reflexivity. }
  destruct (no_log_run _ _ _ _ (no_log_val_metrics _ _) Hm) as (evs1 & Ht1 & Hf1).
  apply val_metrics_Ok in Hm as (_ & Hm' & _). fold (pass_metrics env loader size (model_weights w)) in Hm'.
  fold m in Hm'. subst m'.
  unfold val_report in H.
  apply bind_run in H as [(b' & w2 & Hc & H)|(e & Hc & ->)].
  2:{ apply (no_log_run _ _ _ _ (no_log_val_checkpoint _ _ _ _)) in Hc as (evs2 & Ht2 & Hf2).
      exists (evs1 ++ evs2). split; [rewrite Ht2, Ht1, app_assoc; reflexivity|].
      rewrite List.filter_app, Hf1, Hf2. eexists. reflexivity. }
  destruct (no_log_run _ _ _ _ (no_log_val_checkpoint _ _ _ _) Hc) as (evs2 & Ht2 & Hf2).
  apply val_checkpoint_Ok in Hc as (Hb & _). change (b' = b) in Hb. subst b'.
  apply bind_run in H as [(u & w3 & Hl & H)|(e & Hl & ->)].
  - unfold ret in H. injection H as <- <-.
    apply (scripted_logs _ _ _ _ _ (val_log_scripted _ _ _ _) (val_log_calls_log _ _ _ _)) in Hl
      as (evs3 & Ht3 & Hf3).
    exists (evs1 ++ evs2 ++ evs3). split; [rewrite Ht3, Ht2, Ht1, <- !app_assoc; reflexivity|].
    rewrite !List.filter_app, Hf1, Hf2, Hf3. split; reflexivity.
  - apply (scripted_logs _ _ _ _ _ (val_log_scripted _ _ _ _) (val_log_calls_log _ _ _ _)) in Hl
      as (evs3 & Ht3 & rest & Hf3).
    exists (evs1 ++ evs2 ++ evs3). split; [rewrite Ht3, Ht2, Ht1, <- !app_assoc; reflexivity|].
    exists rest. rewrite !List.filter_app, Hf1, Hf2. exact Hf3.
Qed.


Lemma epoch_body_logs opt ds loader size epoch best w r w' :
  epoch_body env opt ds loader size epoch best w = (r, w') ->
  exists evs wt, trace w' = trace w ++ evs /\
    let m := pass_metrics env loader size wt in
    let b := update_best best (epoch, m_psnr m) in
    match r with
    | Ok best' =>
        if epoch mod TRAINING_VAL_AFTER_EVERY opt =? 0
        then List.filter is_log_call evs = val_log_calls env opt epoch m b /\ best' = b
        else List.filter is_log_call evs = [] /\ best' = best
    | Raise _ =>
        if epoch mod TRAINING_VAL_AFTER_EVERY opt =? 0
        then exists rest, val_log_calls env opt epoch m b = List.filter is_log_call evs ++ rest
        else List.filter is_log_call evs = []
    end.
Proof.
  intros H. unfold epoch_body in H.
  apply bind_run in H as [(u & w1 & He & H)|(e & He & ->)].
  2:{ apply (no_log_run _ _ _ _ (no_log_train_epoch _)) in He as (evs & Ht & Hf).
      exists evs, (model_weights w). split; [exact Ht|]. cbv zeta. rewrite Hf.
      destruct (_ =? 0); [eexists|]; reflexivity. }
  apply (no_log_run _ _ _ _ (no_log_train_epoch _)) in He as (evs1 & Ht1 & Hf1).
  apply bind_run in H as [(x & w2 & Hx & H)|(e & Hx & ->)].
  2:{ exists evs1, (model_weights w). unfold py_mod in Hx.
      destruct (TRAINING_VAL_AFTER_EVERY opt =? 0); [|discriminate Hx].
      injection Hx as _ <-. split; [exact Ht1|]. cbv zeta. rewrite Hf1.
      destruct (_ =? 0); [eexists|]; reflexivity. }
  apply py_mod_Ok in Hx as (_ & -> & ->).
  destruct (epoch mod TRAINING_VAL_AFTER_EVERY opt =? 0).
  - apply validate_logs in H as (evs2 & Ht2 & H).
    exists (evs1 ++ evs2), (model_weights w1).
    split; [rewrite Ht2, Ht1, app_assoc; reflexivity|].
    cbv zeta in *. rewrite List.filter_app, Hf1. exact H.
  - unfold ret in H. injection H as <- <-.
    exists evs1, (model_weights w). split; [exact Ht1|]. cbv zeta. auto.
Qed.

Lemma pass_logs_cons opt loader size epoch wt passes (best : Best num) :
  pass_logs env opt loader size ((epoch, wt) :: passes) best =
  val_log_calls env opt epoch (pass_metrics env loader size wt)
    (update_best best (epoch, m_psnr (pass_metrics env loader size wt))) ++
  pass_logs env opt loader size passes
    (update_best best (epoch, m_psnr (pass_metrics env loader size wt))).
Proof. reflexivity. Qed.

Lemma train_loop_logs opt ds loader size epochs : forall best w r w',
  train_loop env opt ds loader size epochs best w = (r, w') ->
  exists evs passes, trace w' = trace w ++ evs /\
    map fst passes =
      List.filter (fun epoch => epoch mod TRAINING_VAL_AFTER_EVERY opt =? 0) epochs /\
    match r with
    | Ok best' =>
        List.filter is_log_call evs = pass_logs env opt loader size passes best /\
        best' = best_after (pass_history env loader size passes) best
    | Raise _ =>
        exists rest,
          pass_logs env opt loader size passes best = List.filter is_log_call evs ++ rest
    end.
Proof.
  unfold train_loop.
  induction epochs as [|epoch epochs IH]; intros best w r w' H; simpl in H.
  - unfold ret in H. injection H as <- <-. exists [], []. rewrite app_nil_r.
    repeat split; reflexivity.
  - apply bind_run in H as [(b1 & w1 & H1 & H)|(e & H1 & ->)].
    + apply epoch_body_logs in H1 as (evs1 & wt & Ht1 & H1). cbv zeta in H1.
      apply IH in H as (evs2 & passes & Ht2 & Hp & H).
      cbn [List.filter]. destruct (epoch mod TRAINING_VAL_AFTER_EVERY opt =? 0).
      * destruct H1 as [Hf1 ->].
        exists (evs1 ++ evs2), ((epoch, wt) :: passes).
        split; [rewrite Ht2, Ht1, app_assoc; reflexivity|].
        split; [simpl; rewrite Hp; reflexivity|].
        rewrite pass_logs_cons, List.filter_app, Hf1. destruct r.
        -- destruct H as [-> ->]. split; reflexivity.
        -- destruct H as [rest ->]. exists rest. rewrite app_assoc. reflexivity.
      * destruct H1 as [Hf1 ->].
        exists (evs1 ++ evs2), passes.
        split; [rewrite Ht2, Ht1, app_assoc; reflexivity|].
        split; [exact Hp|]. rewrite List.filter_app, Hf1. exact H.
    + apply epoch_body_logs in H1 as (evs1 & wt & Ht1 & H1). cbv zeta in H1.
      cbn [List.filter]. destruct (epoch mod TRAINING_VAL_AFTER_EVERY opt =? 0).
      * destruct H1 as [rest1 Hr1].
        exists evs1, ((epoch, wt) ::
                      map (fun e => (e, wt))
                        (List.filter (fun e => e mod TRAINING_VAL_AFTER_EVERY opt =? 0) epochs)).
        split; [exact Ht1|].
        split; [simpl; rewrite map_map, map_id; reflexivity|].
        rewrite pass_logs_cons, Hr1, <- app_assoc. eexists. reflexivity.
      * exists evs1, (map (fun e => (e, wt))
                        (List.filter (fun e => e mod TRAINING_VAL_AFTER_EVERY opt =? 0) epochs)).
        split; [exact Ht1|].
        split; [rewrite map_map, map_id; reflexivity|].
        rewrite H1. eexists. reflexivity.
Qed.

Lemma train_logs w :
  let loader := map collate1 (train_val_dataset env) in
  let size := Z.of_nat (length (train_val_dataset env)) in
  exists evs passes,
    trace (snd (train env w)) = trace w ++ evs /\
    map fst passes = validation_epochs (config_yml env) /\
    match fst (train env w) with
    | Ok _ =>
        List.filter is_log_call evs =
          pass_logs env (config_yml env) loader size passes initial_best
    | Raise _ =>
        exists rest,
          pass_logs env (config_yml env) loader size passes initial_best =
            List.filter is_log_call evs ++ rest
    end.
Proof.
  intros loader size. rewrite train_size_is_validation_set_size. fold loader size.
  destruct (train_setup env w) as [[s|e] w1] eqn:Hs.
  2:{ rewrite (bind_Raise_intro _ _ _ _ _ Hs).
      apply (no_log_run _ _ _ _ no_log_train_setup) in Hs as (evs & Ht & Hf).
      exists evs, (map (fun e => (e, model_weights w)) (validation_epochs (config_yml env))).
      split; [exact Ht|]. split; [rewrite map_map, map_id; reflexivity|].
      simpl. rewrite Hf. eexists. reflexivity. }
  rewrite (bind_Ok_intro _ _ _ _ _ Hs).
  apply (no_log_run _ _ _ _ no_log_train_setup) in Hs as (evs1 & Ht1 & Hf1).
  destruct (train_loop env (config_yml env) (train_dataset env) loader size
              (range 1 (OPTIM_NUM_EPOCHS (config_yml env) + 1)) initial_best w1)
    as [[b|e] w2] eqn:Hl.
  - rewrite (bind_Ok_intro _ _ _ _ _ Hl).
    apply train_loop_logs in Hl as (evs2 & passes & Ht2 & Hp & Hf2 & _).
    exists (evs1 ++ evs2 ++ [EEndTraining]), passes.
    split.
    { unfold accelerator_end_training, call.
      destruct (raises env (trace w2) EEndTraining); simpl;
        rewrite Ht2, Ht1, <- !app_assoc; reflexivity. }
    split; [exact Hp|].
    assert (Hf : List.filter is_log_call (evs1 ++ evs2 ++ [EEndTraining]) =
                 pass_logs env (config_yml env) loader size passes initial_best).
    { rewrite !List.filter_app, Hf1, Hf2. simpl. apply app_nil_r. }
    rewrite Hf. unfold accelerator_end_training, call.
    destruct (raises env (trace w2) EEndTraining); simpl; [exists []; rewrite app_nil_r|];
      reflexivity.
  - rewrite (bind_Raise_intro _ _ _ _ _ Hl).
    apply train_loop_logs in Hl as (evs2 & passes & Ht2 & Hp & rest & Hf2).
    exists (evs1 ++ evs2), passes.
    split; [simpl; rewrite Ht2, Ht1, app_assoc; reflexivity|].
    split; [exact Hp|]. simpl. exists rest. rewrite List.filter_app, Hf1. exact Hf2.
Qed.



(** ** The calls of a whole run of [train] *)

Lemma epoch_part_idle opt ds epoch (wt : weights) :
  epoch_part env opt ds epoch
    (repeat wt (length (fw_train_batches env ds (OPTIM_BATCH_SIZE opt) epoch)), []).
Proof. split; [apply repeat_length | constructor]. Qed.

Lemma epoch_body_calls opt ds loader size epoch best w r w' :
  epoch_body env opt ds loader size epoch best w = (r, w') ->
  exists part evs,
    epoch_part env opt ds epoch part /\
    trace w' = trace w ++ evs /\
    grad_enabled w' = grad_enabled w /\
    match r with
    | Ok _ => evs = epoch_calls env (grad_enabled w) opt ds epoch part
    | Raise _ => exists rest, epoch_calls env (grad_enabled w) opt ds epoch part = evs ++ rest
    end.
Proof.
  intros H. unfold epoch_body in H. unfold epoch_calls, epoch_part.
  apply bind_run in H as [(u & w1 & He & H)|(e & He & ->)].
  2:{ pose proof (keeps_run _ _ _ _ _ (grad_kept_train_epoch env (grad_enabled w) _) eq_refl He)
        as Hg.
      apply train_epoch_run in He as (wts & evs & Hlen & Ht & rest & Hr).
      exists (wts, []), evs. cbn [fst snd]. split; [split; [exact Hlen | constructor]|].
      split; [exact Ht|]. split; [exact Hg|].
      exists rest. rewrite app_nil_r. exact Hr. }
  pose proof (keeps_run _ _ _ _ _ (grad_kept_train_epoch env (grad_enabled w) _) eq_refl He)
    as Hg1.
  apply train_epoch_run in He as (wts & evs1 & Hlen & Ht1 & ->).
  apply bind_run in H as [(x & w2 & Hx & H)|(e & Hx & ->)].
  2:{ unfold py_mod in Hx. destruct (TRAINING_VAL_AFTER_EVERY opt =? 0); [|discriminate Hx].
      injection Hx as _ <-.
      match type of Ht1 with _ = _ ++ ?l => exists (wts, []), l end.
      cbn [fst snd]. split; [split; [exact Hlen | constructor]|].
      split; [exact Ht1|]. split; [exact Hg1|]. exists []. reflexivity. }
  apply py_mod_Ok in Hx as (_ & -> & ->).
  destruct (epoch mod TRAINING_VAL_AFTER_EVERY opt =? 0).
  - pose proof (keeps_run _ _ _ _ _ (grad_kept_validate env (grad_enabled w1) _ _ _ _ _)
                  eq_refl H) as Hg2.
    destruct (validate_eval_calls env opt loader size epoch best w1) as (evs2 & Ht2 & HE2).
    rewrite H in Ht2. simpl in Ht2.
    match type of Ht1 with _ = _ ++ ?l =>
      exists (wts, EModelEval :: evs2), (l ++ EModelEval :: evs2) end.
    cbn [fst snd].
    split; [split; [exact Hlen | constructor; [exact I | exact HE2]]|].
    split; [rewrite Ht2, Ht1, <- app_assoc; reflexivity|].
    split; [congruence|].
    destruct r; [reflexivity | exists []; rewrite app_nil_r; reflexivity].
  - unfold ret in H. injection H as <- <-.
    match type of Ht1 with _ = _ ++ ?l => exists (wts, []), l end.
    cbn [fst snd]. split; [split; [exact Hlen | constructor]|].
    split; [exact Ht1|]. split; [exact Hg1 | rewrite app_nil_r; reflexivity].
Qed.

Lemma train_loop_calls opt ds loader size epochs : forall best w r w',
  train_loop env opt ds loader size epochs best w = (r, w') ->
  exists parts evs,
    Forall2 (epoch_part env opt ds) epochs parts /\
    trace w' = trace w ++ evs /\
    match r with
    | Ok _ => evs = concat (zip_with (epoch_calls env (grad_enabled w) opt ds) epochs parts)
    | Raise _ =>
        exists rest,
          concat (zip_with (epoch_calls env (grad_enabled w) opt ds) epochs parts) = evs ++ rest
    end.
Proof.
  unfold train_loop.
  induction epochs as [|epoch epochs IH]; intros best w r w' H; simpl in H.
  - unfold ret in H. injection H as <- <-. exists [], []. rewrite app_nil_r.
    repeat split; constructor.
  - apply bind_run in H as [(b1 & w1 & H1 & H)|(e & H1 & ->)].
    + apply epoch_body_calls in H1 as (part & evs1 & Hp & Ht1 & Hg & ->).
      apply IH in H as (parts & evs2 & Hps & Ht2 & H). rewrite Hg in H.
      exists (part :: parts). eexists.
      split; [constructor; assumption|].
      split; [rewrite Ht2, Ht1, <- app_assoc; reflexivity|].
      cbn [zip_with concat]. destruct r.
      * rewrite H. reflexivity.
      * destruct H as [rest ->]. exists rest. rewrite app_assoc. reflexivity.
    + apply epoch_body_calls in H1 as (part & evs1 & Hp & Ht1 & _ & rest & Hr).
      exists (part :: map (fun e => (repeat (model_weights w)
                               (length (fw_train_batches env ds (OPTIM_BATCH_SIZE opt) e)), []))
                        epochs), evs1.
      split.
      { constructor; [exact Hp|]. clear. induction epochs as [|e es IH]; simpl; constructor;
          [apply epoch_part_idle | exact IH]. }
      split; [exact Ht1|].
      cbn [zip_with concat]. rewrite Hr, <- app_assoc. eexists. reflexivity.
Qed.

Lemma train_run w :
  exists parts evs,
    Forall2 (epoch_part env (config_yml env) (train_dataset env))
      (range 1 (OPTIM_NUM_EPOCHS (config_yml env) + 1)) parts /\
    trace (snd (train env w)) = trace w ++ evs /\
    match fst (train env w) with
    | Ok _ => evs = train_calls env (grad_enabled w) parts
    | Raise _ => exists rest, train_calls env (grad_enabled w) parts = evs ++ rest
    end.
Proof.
  rewrite train_size_is_validation_set_size. unfold train_calls.
  set (idle := map (fun e => (repeat (model_weights w)
                      (length (fw_train_batches env (train_dataset env)
                                 (OPTIM_BATCH_SIZE (config_yml env)) e)),
                    @nil Event))
                 (range 1 (OPTIM_NUM_EPOCHS (config_yml env) + 1))).
  assert (Hidle : Forall2 (epoch_part env (config_yml env) (train_dataset env))
                    (range 1 (OPTIM_NUM_EPOCHS (config_yml env) + 1)) idle).
  { unfold idle. induction (range 1 (OPTIM_NUM_EPOCHS (config_yml env) + 1)) as [|e es IH];
      simpl; constructor; [apply epoch_part_idle | exact IH]. }
  destruct (train_setup_scripted env w) as (evs1 & Ht1 & H1).
  pose proof (train_setup_keeps_grad env (grad_enabled w) w eq_refl) as (_ & _ & _ & Hg1).
  destruct (train_setup env w) as [[s|e] w1] eqn:Hs; cbn [fst snd] in Ht1, H1, Hg1.
  2:{ rewrite (bind_Raise_intro _ _ _ _ _ Hs). destruct H1 as [rest ->].
      exists idle, evs1. split; [exact Hidle|]. split; [exact Ht1|].
      cbn [fst snd]. rewrite <- app_assoc. eexists. reflexivity. }
  subst evs1. rewrite (bind_Ok_intro _ _ _ _ _ Hs).
  destruct (train_loop env (config_yml env) (train_dataset env)
              (map collate1 (train_val_dataset env))
              (Z.of_nat (length (train_val_dataset env)))
              (range 1 (OPTIM_NUM_EPOCHS (config_yml env) + 1)) initial_best w1)
    as [[b|e] w2] eqn:Hl.
  - rewrite (bind_Ok_intro _ _ _ _ _ Hl).
    apply train_loop_calls in Hl as (parts & evs2 & Hps & Ht2 & H2). rewrite Hg1 in H2.
    exists parts, (train_setup_calls env ++ evs2 ++ [EEndTraining]). split; [exact Hps|].
    rewrite <- H2. unfold accelerator_end_training, call.
    destruct (raises env (trace w2) EEndTraining); cbn [fst snd trace log_event].
    + split; [rewrite Ht2, Ht1, <- !app_assoc; reflexivity|]. exists []. rewrite app_nil_r.
      reflexivity.
    + split; [rewrite Ht2, Ht1, <- !app_assoc; reflexivity|]. reflexivity.
  - rewrite (bind_Raise_intro _ _ _ _ _ Hl).
    apply train_loop_calls in Hl as (parts & evs2 & Hps & Ht2 & rest & Hr). rewrite Hg1 in Hr.
    exists parts, (train_setup_calls env ++ evs2). split; [exact Hps|].
    split; [cbn [fst snd]; rewrite Ht2, Ht1, app_assoc; reflexivity|].
    cbn [fst snd]. exists (rest ++ [EEndTraining]). rewrite Hr, <- !app_assoc. reflexivity.
Qed.

Lemma epoch_calls_scheduler grad opt ds epoch part :
  epoch_part env opt ds epoch part ->
  List.filter is_scheduler_step (epoch_calls env grad opt ds epoch part) = [ESchedulerStep].
Proof.
  intros [_ Hval]. unfold epoch_calls.
  rewrite List.filter_app, train_epoch_calls_scheduler.
  apply eval_calls_do_not_train in Hval as [-> _]. reflexivity.
Qed.


(** ** Reports and the logged history *)






Lemma psnr_history_logs evs : psnr_history (List.filter is_log_call evs) = psnr_history evs.
Proof.
  unfold psnr_history. induction evs as [|ev evs IH]; [reflexivity|]. simpl.
  destruct ev; simpl; rewrite IH; reflexivity.
Qed.

Lemma psnr_history_val_log_calls opt epoch m best :
  psnr_history (val_log_calls env opt epoch m best) = [(epoch, m_psnr m)].
Proof. unfold val_log_calls. destruct (is_local_main_process env); reflexivity. Qed.

Lemma psnr_history_pass_logs opt loader size passes : forall best,
  psnr_history (pass_logs env opt loader size passes best) = pass_history env loader size passes.
Proof.
  induction passes as [|[epoch wt] passes IH]; intros best; [reflexivity|].
  rewrite pass_logs_cons. unfold psnr_history in *.
  rewrite flat_map_app. fold (psnr_history (val_log_calls env opt epoch
    (pass_metrics env loader size wt)
    (update_best best (epoch, m_psnr (pass_metrics env loader size wt))))).
  rewrite psnr_history_val_log_calls, IH. reflexivity.
Qed.

Lemma quiet_train_setup : only_calls quiet (train_setup env).
Proof. unfold only_calls. keeps_steps; try solve [split; reflexivity]; keeps_side. Qed.

Lemma train_history w w' :
  train env w = (Ok tt, w') ->
  exists evs, trace w' = trace w ++ evs /\
    saved_epochs evs = new_bests (psnr_history evs) (of_int 0).
Proof.
  intros H. rewrite train_size_is_validation_set_size in H.
  apply bind_Ok in H as (s & w1 & Hs & H).
  apply bind_Ok in H as (b & w2 & Hl & H).
  unfold accelerator_end_training in H. apply call_Ok in H as [_ ->].
  destruct (only_calls_run _ _ _ _ _ quiet_train_setup Hs) as (evs1 & Ht1 & HE1).
  apply quiet_history in HE1 as [Hl1 Hs1].
  apply train_loop_history in Hl as (evs2 & Ht2 & _ & Hs2).
  exists (evs1 ++ evs2 ++ [EEndTraining]).
  split; [simpl; rewrite Ht2, Ht1, <- !app_assoc; reflexivity|].
  unfold psnr_history, saved_epochs in *. rewrite !flat_map_app, Hl1, Hs1, Hs2. simpl.
  rewrite !app_nil_r. reflexivity.
Qed.

(** ** The running best, for values that [>] orders *)

Section Ordered.

Variable vals : list num.
Hypothesis vals_ordered : ordered_on vals.

Lemma asym_on a b : In a vals -> In b vals -> ngt a b = true -> ngt b a = false.
Proof. intros Ha Hb. exact (proj1 (vals_ordered a b a Ha Hb Ha)). Qed.

Lemma neg_trans_on a b c :
  In a vals -> In b vals -> In c vals ->
  ngt a c = true -> ngt a b = true \/ ngt b c = true.
Proof. intros Ha Hb Hc. exact (proj2 (vals_ordered a b c Ha Hb Hc)). Qed.

Lemma irrefl_on a : In a vals -> ngt a a = false.
Proof.
  intros Ha. destruct (ngt a a) eqn:H; [|reflexivity]. rewrite <- H. apply asym_on; assumption.
Qed.

Lemma le_le_on a b c :
  In a vals -> In b vals -> In c vals ->
  ngt a b = false -> ngt b c = false -> ngt a c = false.
Proof.
  intros Ha Hb Hc Hab Hbc. destruct (ngt a c) eqn:Hac; [|reflexivity].
  destruct (neg_trans_on a b c Ha Hb Hc Hac); congruence.
Qed.

#[local] Abbreviation within hist := (forall (e : Z) (p : num), In (e, p) hist -> In p vals).

Lemma within_tail ep hist : within (ep :: hist) -> within hist.
Proof. intros H e p Hin. apply (H e p). right. exact Hin. Qed.

Lemma update_best_within (b : Best num) e p :
  In (best_psnr b) vals -> In p vals -> In (best_psnr (update_best b (e, p))) vals.
Proof. intros Hb Hp. unfold update_best. simpl. destruct (ngt p (best_psnr b)); assumption. Qed.

Lemma update_best_ge (b : Best num) e p :
  In (best_psnr b) vals -> In p vals ->
  ngt (best_psnr b) (best_psnr (update_best b (e, p))) = false.
Proof.
  intros Hb Hp. unfold update_best. simpl. destruct (ngt p (best_psnr b)) eqn:H; simpl.
  - apply asym_on; assumption.
  - apply irrefl_on, Hb.
Qed.

Lemma update_best_upper (b : Best num) e p :
  In (best_psnr b) vals -> In p vals ->
  ngt p (best_psnr (update_best b (e, p))) = false.
Proof.
  intros Hb Hp. unfold update_best. simpl. destruct (ngt p (best_psnr b)) eqn:H; simpl.
  - apply irrefl_on, Hp.
  - exact H.
Qed.

Lemma best_after_within hist : forall b : Best num,
  In (best_psnr b) vals -> within hist -> In (best_psnr (best_after hist b)) vals.
Proof.
  induction hist as [|[e p] hist IH]; intros b Hb Hh; [exact Hb|].
  change (In (best_psnr (best_after hist (update_best b (e, p)))) vals).
  apply IH; [|exact (within_tail _ _ Hh)].
  apply update_best_within; [exact Hb | apply (Hh e p); left; reflexivity].
Qed.

Lemma best_after_ge_on hist : forall b : Best num,
  In (best_psnr b) vals -> within hist ->
  ngt (best_psnr b) (best_psnr (best_after hist b)) = false.
Proof.
  induction hist as [|[e p] hist IH]; intros b Hb Hh; [apply irrefl_on, Hb|].
  change (ngt (best_psnr b) (best_psnr (best_after hist (update_best b (e, p)))) = false).
  assert (Hp : In p vals) by (apply (Hh e p); left; reflexivity).
  pose proof (update_best_within b e p Hb Hp) as Hb1.
  apply le_le_on with (b := best_psnr (update_best b (e, p)));
    [exact Hb | exact Hb1 | apply best_after_within; [exact Hb1 | exact (within_tail _ _ Hh)]
    | apply update_best_ge; assumption | apply IH; [exact Hb1 | exact (within_tail _ _ Hh)]].
Qed.

Lemma best_after_upper_on hist : forall (b : Best num) e p,
  In (best_psnr b) vals -> within hist ->
  In (e, p) hist -> ngt p (best_psnr (best_after hist b)) = false.
Proof.
  induction hist as [|[e0 p0] hist IH]; intros b e p Hb Hh Hin; [contradiction|].
  change (ngt p (best_psnr (best_after hist (update_best b (e0, p0)))) = false).
  assert (Hp0 : In p0 vals) by (apply (Hh e0 p0); left; reflexivity).
  pose proof (update_best_within b e0 p0 Hb Hp0) as Hb1.
  destruct Hin as [[= -> ->]|Hin]; [|exact (IH _ _ _ Hb1 (within_tail _ _ Hh) Hin)].
  apply le_le_on with (b := best_psnr (update_best b (e, p)));
    [exact Hp0 | exact Hb1 | apply best_after_within; [exact Hb1 | exact (within_tail _ _ Hh)]
    | apply update_best_upper; assumption
    | apply best_after_ge_on; [exact Hb1 | exact (within_tail _ _ Hh)]].
Qed.

End Ordered.

Lemma running_bests_nth hist : forall (b : Best num) k x,
  nth_error (running_bests hist b) k = Some x -> x = best_after (firstn (S k) hist) b.
Proof.
  induction hist as [|ep hist IH]; intros b k x H; [destruct k; discriminate H|].
  destruct k as [|k]; simpl in H.
  - injection H as <-. destruct hist; reflexivity.
  - apply IH in H. rewrite H. reflexivity.
Qed.

Lemma running_bests_step hist : forall (b0 : Best num) k b b',
  nth_error (running_bests hist b0) k = Some b ->
  nth_error (running_bests hist b0) (S k) = Some b' ->
  exists ep, In ep hist /\ b' = update_best b ep.
Proof.
  induction hist as [|ep0 hist IH]; intros b0 k b b' Hk HSk; [destruct k; discriminate Hk|].
  destruct k as [|k]; simpl in Hk, HSk.
  - injection Hk as <-. destruct hist as [|ep1 hist]; [discriminate HSk|].
    simpl in HSk. injection HSk as <-. exists ep1. split; [right; left; reflexivity | reflexivity].
  - destruct (IH _ _ _ _ Hk HSk) as (ep & Hin & ->). exists ep. split; [right; exact Hin | reflexivity].
Qed.

Lemma In_firstn {A} (x : A) n (l : list A) : In x (firstn n l) -> In x l.
Proof.
  revert l. induction n as [|n IH]; intros [|y l] H; simpl in H; try contradiction.
  destruct H as [->|H]; [left; reflexivity | right; exact (IH _ H)].
Qed.

Lemma running_best_is_maximum hist k (b : Best num) :
  ordered_on (of_int 0 :: map snd hist) ->
  nth_error (running_bests hist initial_best) k = Some b ->
  let seen := firstn (S k) hist in
  ngt (of_int 0) (best_psnr b) = false /\
  (forall e p, In (e, p) seen -> ngt p (best_psnr b) = false) /\
  ((b = initial_best /\ forall e p, In (e, p) seen -> ngt p (of_int 0) = false) \/
   In (best_epoch b, best_psnr b) seen) /\
  (forall b', nth_error (running_bests hist initial_best) (S k) = Some b' ->
     ngt (best_psnr b) (best_psnr b') = false).
Proof.
  intros Hord Hk seen.
  assert (H0 : In (best_psnr (@initial_best num _)) (of_int 0 :: map snd hist))
    by (left; reflexivity).
  assert (Hall : forall e p, In (e, p) hist -> In p (of_int 0 :: map snd hist)).
  { intros e p Hin. right. apply in_map_iff. exists (e, p). auto. }
  assert (Hseen : forall e p, In (e, p) seen -> In p (of_int 0 :: map snd hist)).
  { intros e p Hin. apply (Hall e p). exact (In_firstn _ _ _ Hin). }
  pose proof (running_bests_nth _ _ _ _ Hk) as Hb. fold seen in Hb.
  split; [|split; [|split]].
  - rewrite Hb. exact (best_after_ge_on _ Hord seen initial_best H0 Hseen).
  - intros e p Hin. rewrite Hb. exact (best_after_upper_on _ Hord seen _ e p H0 Hseen Hin).
  - rewrite Hb. exact (best_after_attained seen initial_best).
  - intros b' HSk. destruct (running_bests_step _ _ _ _ _ Hk HSk) as ([e p] & Hin & ->).
    apply (update_best_ge _ Hord).
    + rewrite Hb. apply (best_after_within _ seen); assumption.
    + exact (Hall e p Hin).
Qed.


(** ** The claims on whole runs *)


(** C2. Every run of [train] makes its calls in one fixed order: the
    setup; then, for the epochs from [1] to [opt.OPTIM.NUM_EPOCHS] in
    order, the training part of the epoch followed by its validation pass,
    if it has one; then [accelerator.end_training()].  A run that raises
    stops inside that sequence.  The training part of an epoch is
    [model.train()], then for every batch of the loader the fetch,
    [zero_grad], the forward pass giving [res], the three loss terms, the
    backward pass on [SmoothL1 + 0.3 * (1 - ssim) + 0.7 * lpips] and the
    optimizer step, and after the last batch one scheduler step.  A
    validation pass makes no call of a training step, so the scheduler
    steps exactly once in every epoch. *)
Theorem training_steps_in_fixed_order :
  (forall w,
     exists parts evs,
       Forall2 (epoch_part env (config_yml env) (train_dataset env))
         (range 1 (OPTIM_NUM_EPOCHS (config_yml env) + 1)) parts /\
       trace (snd (train env w)) = trace w ++ evs /\
       match fst (train env w) with
       | Ok _ => evs = train_calls env (grad_enabled w) parts
       | Raise _ => exists rest, train_calls env (grad_enabled w) parts = evs ++ rest
       end) /\
  (forall grad opt ds epoch part,
     epoch_part env opt ds epoch part ->
     List.filter is_scheduler_step (epoch_calls env grad opt ds epoch part) =
       [ESchedulerStep]) /\
  (forall loader w,
     exists wts evs,
       length wts = length loader /\
       trace (snd (train_epoch env loader w)) = trace w ++ evs /\
       match fst (train_epoch env loader w) with
       | Ok _ => evs = train_epoch_calls env (grad_enabled w) loader wts
       | Raise _ =>
           exists rest, train_epoch_calls env (grad_enabled w) loader wts = evs ++ rest
       end) /\
  (forall grad loader wts,
     List.filter is_scheduler_step (train_epoch_calls env grad loader wts) =
       [ESchedulerStep]).
Proof.
  split; [exact train_run|]. split; [exact epoch_calls_scheduler|].
  split; [|exact (train_epoch_calls_scheduler env)].
  intros loader w.
  destruct (train_epoch env loader w) as [r w'] eqn:H.
  exact (train_epoch_run env _ _ _ _ H).
Qed.


(** C9. A validation pass that completes logs one averaged PSNR [p]; it
    saves a checkpoint exactly when [p] strictly exceeds the best so far,
    which then becomes [p] with the current epoch, and otherwise stays.  In
    a run of [train] that completes, the best starts as [0] with epoch [1];
    the epochs with a checkpoint are those whose PSNR strictly exceeded the
    best before them, and there is none while no logged PSNR exceeds [0];
    the best after each pass is the one its log line holds.  When [>]
    orders [0] and the PSNR values the run logged (no NaN among them),
    the best after each pass is at least [0], no PSNR logged so far exceeds
    it, it is either still the starting value (no PSNR so far exceeding
    [0]) or the PSNR logged at the best epoch, and it does not decrease
    from one pass to the next. *)
Theorem best_psnr_is_running_maximum :
  (forall opt loader size epoch best w best' w',
     validate env opt loader size epoch best w = (Ok best', w') ->
     exists evs p,
       trace w' = trace w ++ evs /\
       psnr_history evs = [(epoch, p)] /\
       saved_epochs evs = (if ngt p (best_psnr best) then [epoch] else []) /\
       best' = (if ngt p (best_psnr best)
                then {| best_epoch := epoch; best_psnr := p |} else best)) /\
  (forall w w',
     train env w = (Ok tt, w') ->
     let loader := map collate1 (train_val_dataset env) in
     let size := Z.of_nat (length (train_val_dataset env)) in
     exists evs passes,
       trace w' = trace w ++ evs /\
       map fst passes = validation_epochs (config_yml env) /\
       let hist := pass_history env loader size passes in
       psnr_history evs = hist /\
       List.filter is_log_call evs =
         pass_logs env (config_yml env) loader size passes initial_best /\
       saved_epochs evs = new_bests hist (of_int 0) /\
       ((forall e p, In (e, p) hist -> ngt p (of_int 0) = false) -> saved_epochs evs = []) /\
       (ordered_on (of_int 0 :: map snd hist) ->
        forall k b,
          nth_error (running_bests hist initial_best) k = Some b ->
          let seen := firstn (S k) hist in
          ngt (of_int 0) (best_psnr b) = false /\
          (forall e p, In (e, p) seen -> ngt p (best_psnr b) = false) /\
          ((b = initial_best /\ forall e p, In (e, p) seen -> ngt p (of_int 0) = false) \/
           In (best_epoch b, best_psnr b) seen) /\
          (forall b', nth_error (running_bests hist initial_best) (S k) = Some b' ->
             ngt (best_psnr b) (best_psnr b') = false))).
Proof.
  split.
  - intros opt loader size epoch best w best' w' H.
    apply validate_history in H as (evs & p & Ht & Hl & Hs & ->).
    exists evs, p. auto.
  - intros w w' H loader size.
    destruct (train_logs w) as (evs & passes & Ht & Hp & Hlogs).
    rewrite H in Ht, Hlogs. cbn [fst snd] in Ht, Hlogs.
    apply train_history in H as (evs' & Ht' & Hsaved).
    rewrite Ht in Ht'. apply app_inv_head in Ht'. subst evs'.
    fold loader size in Hlogs.
    assert (Hhist : psnr_history evs = pass_history env loader size passes).
    { rewrite <- psnr_history_logs, Hlogs. apply psnr_history_pass_logs. }
    exists evs, passes. split; [exact Ht|]. split; [exact Hp|]. cbv zeta.
    split; [exact Hhist|]. split; [exact Hlogs|]. rewrite <- Hhist.
    split; [exact Hsaved|].
    split; [intros Hall; rewrite Hsaved; apply new_bests_none, Hall|].
    intros Hord k b Hk. exact (running_best_is_maximum _ _ _ Hord Hk).
Qed.

End Whole.

(** * The claims on whole runs, on the concrete framework *)


Lemma training_steps_in_fixed_order_witness :
  List.filter is_scheduler_step (epoch_calls toy true toy_config toy_samples 1 ([0; 1], [])) =
    [ESchedulerStep].
Proof.
  destruct (training_steps_in_fixed_order toy) as (_ & Hepoch & _).
  apply Hepoch. split; [reflexivity | constructor].
Defined.

Lemma Q_ordered_on (vals : list Q) : ordered_on vals.
Proof.
  intros a b c _ _ _. split; [apply Q_ngt_asym | apply Q_ngt_neg_trans].
Qed.

(** The order assumed of the logged values holds of numbers with a NaN as
    long as no NaN is among the values, and fails with one. *)
Lemma ordered_on_without_nan (qs : list Q) : ordered_on (map (@Some Q) qs).
Proof.
  intros a b c Ha Hb Hc.
  apply in_map_iff in Ha as (x & <- & _). apply in_map_iff in Hb as (y & <- & _).
  apply in_map_iff in Hc as (z & <- & _).
  split; [apply (Q_ngt_asym x y) | apply (Q_ngt_neg_trans x y z)].
Qed.

Lemma not_ordered_on_with_nan : ~ ordered_on [Some 1%Q; None; Some 0%Q].
Proof.
  intros H.
  destruct (H (Some 1%Q) None (Some 0%Q)) as [_ Hnt]; [simpl; auto .. |].
  destruct Hnt as [Hf|Hf]; [reflexivity | discriminate Hf | discriminate Hf].
Qed.

Lemma best_psnr_is_running_maximum_witness :
  (exists evs p,
     trace (snd (validate toy toy_config toy_loader 2 1 initial_best toy_world)) =
       trace toy_world ++ evs /\
     psnr_history evs = [(1, p)]) /\
  (exists evs passes,
     trace (snd (train toy toy_world)) = trace toy_world ++ evs /\
     map fst passes = [1; 2] /\
     saved_epochs evs = new_bests (pass_history toy toy_loader 2 passes) (of_int 0) /\
     forall k b,
       nth_error (running_bests (pass_history toy toy_loader 2 passes) initial_best) k = Some b ->
       ngt (of_int 0) (best_psnr b) = false).
Proof.
  destruct (best_psnr_is_running_maximum toy) as (Hpass & Hrun).
  split.
  - destruct (Hpass toy_config toy_loader 2 1 initial_best toy_world initial_best
                (snd (validate toy toy_config toy_loader 2 1 initial_best toy_world)))
      as (evs & p & Ht & Hl & _).
    + vm_compute. reflexivity.
    + exists evs, p. split; assumption.
  - destruct (Hrun toy_world (snd (train toy toy_world)))
      as (evs & passes & Ht & Hp & _ & _ & Hs & _ & Hmax).
    + vm_compute. reflexivity.
    + exists evs, passes. split; [exact Ht|]. split; [exact Hp|]. split; [exact Hs|].
      intros k b Hk. exact (proj1 (Hmax (Q_ordered_on _) k b Hk)).
Defined.

(** * The further properties on the concrete framework *)

Lemma completed_train_runs_every_epoch_once_witness :
  exists evs,
    trace (snd (train toy toy_world)) = trace toy_world ++ evs ++ [EEndTraining] /\
    List.filter is_end_training evs = [] /\
    length (List.filter is_model_train evs) = 2%nat /\
    length (List.filter is_scheduler_step evs) = 2%nat /\
    In (ECosineAnnealingLR 2 (1 # 100000)) evs.
Proof.
  refine (completed_train_runs_every_epoch_once toy toy_world (snd (train toy toy_world)) _).
  vm_compute. reflexivity.
Defined.

Lemma validation_runs_at_multiples_witness :
  (exists evs,
     trace (snd (train toy toy_world)) = trace toy_world ++ evs ++ [EEndTraining] /\
     map fst (psnr_history evs) = [1; 2]) /\
  In 2 (validation_epochs toy_config).
Proof.
  destruct (validation_runs_at_multiples_of_val_after_every toy) as [Hrun Hin].
  split.
  - refine (Hrun toy_world (snd (train toy toy_world)) _). vm_compute. reflexivity.
  - apply (Hin toy_config 2). vm_compute. repeat split; discriminate.
Defined.


Lemma scripts_complete_witness :
  (exists w', test toy toy_world = (Ok tt, w')) /\
  (exists w', train toy toy_world = (Ok tt, w')).
Proof.
  destruct (scripts_complete_unless_they_divide_by_zero toy (fun h ev => eq_refl))
    as [Htest Htrain].
  split.
  - apply Htest. discriminate.
  - apply Htrain. right. split; [discriminate|]. right. discriminate.
Defined.

Lemma scripts_raise_only_zero_division_witness :
  fst (test toy_empty toy_world) = Raise ZeroDivisionError /\
  forall e, fst (test toy_empty toy_world) = Raise e -> e = ZeroDivisionError.
Proof.
  split; [vm_compute; reflexivity|]. intros e.
  destruct (scripts_raise_only_zero_division_themselves toy_empty) as (_ & _ & H).
  apply (H (fun h ev => eq_refl) toy_world e).
Defined.

Lemma test_script_creates_result_first_witness :
  "result" ∈ dirs (snd (test_main toy toy_world)) /\
  exists evs,
    trace (snd (test_main toy toy_world)) = trace toy_world ++ EMakedirs "result" true :: evs /\
    List.filter is_makedirs evs = [].
Proof.
  destruct (test_script_creates_result_first toy toy_world (snd (test_main toy toy_world)))
    as (Hr & _ & evs & Ht & _ & Hnone).
  - vm_compute. reflexivity.
  - split; [exact Hr|]. exists evs. split; [exact Ht|]. apply Hnone. reflexivity.
Defined.

Lemma best_epoch_is_the_last_checkpoint_witness :
  exists evs,
    trace (snd (train_loop toy toy_config toy_samples toy_loader 2 [1; 2]
                  initial_best toy_world)) = trace toy_world ++ evs /\
    2 = List.last (saved_epochs evs) 1.
Proof.
  apply (best_epoch_is_the_last_checkpoint toy toy_config toy_samples toy_loader 2 [1; 2]
           initial_best toy_world {| best_epoch := 2; best_psnr := 11 # 2 |}).
  vm_compute. reflexivity.
Defined.
